(** * log-sniffer: session store, provider router, orchestrator and endpoints

  A shallow embedding of the server side of the Snyk audit-log dashboard
  ([server/cookie-session-storage.ts], [server/services/llm/*.ts],
  [server/services/llm-service.ts], [server/routes.ts], [shared/schema.ts])
  together with the properties its specification states about it.

  Conventions of the embedding.
  - Times are epoch milliseconds in [Z]. A call on the session store and an
    orchestration each take the value [now] the clock has while they run.
    A request handler that reads the clock more than once (a call on the
    store and the taking of a time stamp being one reading each) is given
    the stream of its readings, [Routes.Clock]; the other handlers read it
    once. Requests are served one after the other, no other request touches
    the store in between.
  - JavaScript strings are [string]s holding the UTF-8 bytes of well-formed
    text. [trim] removes the white space of the language (the ASCII one, NO-BREAK SPACE, the
    Unicode space separators, the line and paragraph separators and the
    byte order mark); [toLowerCase] is exact as far as a comparison with an
    ASCII name can tell.
  - Numbers that come out of JSON are exact decimals, integers are in [Z];
    rounding to doubles is not modelled. They print as [Number.prototype.toString]
    prints the decimal, exponent notation included.
  - The text an LLM backend answers with is a [string]; where a backend
    answers with a JSON value of another kind in the place of the text, the
    adapter's result is that value as text.
  - The [Map] of sessions is a [gmap string CookieSession]; a JavaScript
    object is the list of its properties in property order.
  - Asynchronous code is a tree of external calls ([Async.IO]): it returns,
    throws, or awaits a collaborator and goes on with the answer.
  - The endpoints are those of the built server, which serves the LLM
    configuration routes next to the upstream ones; [express.json()] runs
    before them ([Routes.body_parsed]). *)

From Stdlib Require Import ZArith QArith String Ascii List Bool Lia Sorted.
From stdpp Require Import gmap strings list fin_maps.

#[local] Set Warnings "-register-all".
#[local] Open Scope string_scope.
#[local] Open Scope Z_scope.

(** ** JavaScript string helpers *)

Module JsString.

(** A string of the program is held as the bytes of its UTF-8 form, the
    form string literals have here. *)
Definition byte (c : ascii) : nat := nat_of_ascii c.

(** The white space [String.prototype.trim] removes (WhiteSpace and
    LineTerminator of the language). In one byte: TAB, LF, VT, FF, CR and
    SPACE. *)
Definition is_space (c : ascii) : bool :=
  let n := byte c in
  ((9 <=? n)%nat && (n <=? 13)%nat) || (n =? 32)%nat.

(** In two bytes: NO-BREAK SPACE, U+00A0, which is C2 A0. *)
Definition is_space2 (c1 c2 : ascii) : bool :=
  (byte c1 =? 194)%nat && (byte c2 =? 160)%nat.

(** In three bytes: U+1680 (E1 9A 80); U+2000 to U+200A, the line and
    paragraph separators U+2028 and U+2029, and U+202F (E2 80 80 to 8A, A8,
    A9, AF); U+205F (E2 81 9F); U+3000 (E3 80 80); and U+FEFF
    (EF BB BF). *)
Definition is_space3 (c1 c2 c3 : ascii) : bool :=
  let a := byte c1 in
  let b := byte c2 in
  let c := byte c3 in
  ((a =? 225) && (b =? 154) && (c =? 128))%nat
  || ((a =? 226) && (b =? 128)
      && (((128 <=? c) && (c <=? 138)) || (c =? 168) || (c =? 169) || (c =? 175)))%nat
  || ((a =? 226) && (b =? 129) && (c =? 159))%nat
  || ((a =? 227) && (b =? 128) && (c =? 128))%nat
  || ((a =? 239) && (b =? 187) && (c =? 191))%nat.

Fixpoint trimStart (s : string) : string :=
  match s with
  | EmptyString => EmptyString
  | String c1 r1 =>
      if is_space c1 then trimStart r1
      else
        match r1 with
        | EmptyString => s
        | String c2 r2 =>
            if is_space2 c1 c2 then trimStart r2
            else
              match r2 with
              | EmptyString => s
              | String c3 r3 => if is_space3 c1 c2 c3 then trimStart r3 else s
              end
        end
  end.

(** Made of white space only (the empty string included). *)
Fixpoint all_space (s : string) : bool :=
  match s with
  | EmptyString => true
  | String c1 r1 =>
      if is_space c1 then all_space r1
      else
        match r1 with
        | EmptyString => false
        | String c2 r2 =>
            if is_space2 c1 c2 then all_space r2
            else
              match r2 with
              | EmptyString => false
              | String c3 r3 => is_space3 c1 c2 c3 && all_space r3
              end
        end
  end.

(** What is left once the white space at the end is gone: the string up to
    the first place from which only white space follows. No white space
    character starts on a byte that continues another character, so that
    place is never inside a character. *)
Fixpoint trimEnd (s : string) : string :=
  match s with
  | EmptyString => EmptyString
  | String c r => if all_space s then EmptyString else String c (trimEnd r)
  end.

Definition trim (s : string) : string := trimEnd (trimStart s).

Definition lower_char (c : ascii) : ascii :=
  let n := byte c in
  if ((65 <=? n)%nat && (n <=? 90)%nat)%bool then ascii_of_nat (n + 32) else c.

(** KELVIN SIGN, U+212A, which is E2 84 AA. *)
Definition is_kelvin (c1 c2 c3 : ascii) : bool :=
  (byte c1 =? 226)%nat && (byte c2 =? 132)%nat && (byte c3 =? 170)%nat.

(** [String.prototype.toLowerCase], as far as a comparison with a name
    written in ASCII can tell: the letters A to Z and the Kelvin sign are the
    characters whose lower-case form is made of ASCII characters; every
    other character outside ASCII is left as it is, its lower-case form being
    outside ASCII as well. *)
Fixpoint toLowerCase (s : string) : string :=
  match s with
  | EmptyString => EmptyString
  | String c1 r1 =>
      match r1 with
      | String c2 (String c3 r3) =>
          if is_kelvin c1 c2 c3 then String "k" (toLowerCase r3)
          else String (lower_char c1) (toLowerCase r1)
      | _ => String (lower_char c1) (toLowerCase r1)
      end
  end.

(** Truthiness of a string value: every string but the empty one. *)
Definition truthy (s : string) : bool :=
  match s with EmptyString => false | _ => true end.

(** [a || b] on strings. *)
Definition or_else (a b : string) : string := if truthy a then a else b.

(** A blank value: empty, or made of white space only. *)
Definition blank (s : string) : bool := all_space s.

(** A white-space-only value in the strict sense: blank and not empty. *)
Definition whitespace_only (s : string) : bool := truthy s && all_space s.

Definition digit_char (d : Z) : ascii :=
  if d <? 10 then ascii_of_nat (Z.to_nat (48 + d))
  else ascii_of_nat (Z.to_nat (87 + d)).

Fixpoint to_radix_aux (fuel : nat) (radix n : Z) (acc : string) : string :=
  match fuel with
  | O => acc
  | S f =>
      let acc' := String (digit_char (n mod radix)) acc in
      if n / radix =? 0 then acc' else to_radix_aux f radix (n / radix) acc'
  end.

(** [Number.prototype.toString(radix)] on an integer. *)
Definition toString_radix (radix n : Z) : string :=
  if n <? 0
  then String "-" (to_radix_aux (S (Z.to_nat (Z.log2 (- n)))) radix (- n) "")
  else to_radix_aux (S (Z.to_nat (Z.log2 n))) radix n "".

(** [String(n)] for an integer. *)
Definition of_Z (n : Z) : string := toString_radix 10 n.

Definition of_nat (n : nat) : string := of_Z (Z.of_nat n).

Definition hex_of_byte (b : Byte.byte) : string :=
  let n := Z.of_N (Byte.to_N b) in
  String (digit_char (n / 16)) (String (digit_char (n mod 16)) "").

(** [Buffer.prototype.toString('hex')]. *)
Fixpoint hex_of_bytes (bs : list Byte.byte) : string :=
  match bs with
  | [] => ""
  | b :: r => hex_of_byte b ++ hex_of_bytes r
  end.

(** [Array.prototype.join]. *)
Fixpoint join (sep : string) (l : list string) : string :=
  match l with
  | [] => ""
  | [x] => x
  | x :: r => x ++ sep ++ join sep r
  end.

End JsString.


(** ** JavaScript values that come out of JSON *)

Module JSON.

Inductive Json :=
| JNull
| JBool (b : bool)
| JNum (mantissa exponent : Z)
| JStr (s : string)
| JArr (items : list Json)
| JObj (fields : list (string * Json)).

Definition code (c : ascii) : Z := Z.of_nat (nat_of_ascii c).

Definition is_digit (c : ascii) : bool := (48 <=? code c) && (code c <=? 57).

Definition dquote : ascii := ascii_of_nat 34.

(** *** Property order of an ordinary object

    Own keys that are canonical array indices come first, in ascending
    numeric order; the other keys follow in the order they were created. *)

Fixpoint digits_value (s : string) (acc : Z) : option Z :=
  match s with
  | EmptyString => Some acc
  | String c r =>
      if is_digit c then digits_value r (acc * 10 + (code c - 48)) else None
  end.

Definition array_index (s : string) : option Z :=
  match s with
  | EmptyString => None
  | String c r =>
      if (code c =? 48) && JsString.truthy r then None
      else match digits_value s 0 with
           | Some n => if n <? 4294967295 then Some n else None
           | None => None
           end
  end.

Fixpoint get_prop {V} (k : string) (o : list (string * V)) : option V :=
  match o with
  | [] => None
  | (k', v) :: r => if String.eqb k k' then Some v else get_prop k r
  end.

Fixpoint replace_prop {V} (k : string) (v : V) (o : list (string * V))
  : list (string * V) :=
  match o with
  | [] => []
  | (k', v') :: r =>
      if String.eqb k k' then (k', v) :: r else (k', v') :: replace_prop k v r
  end.

Fixpoint insert_index {V} (i : Z) (k : string) (v : V) (o : list (string * V))
  : list (string * V) :=
  match o with
  | [] => [(k, v)]
  | (k', v') :: r =>
      match array_index k' with
      | Some j => if j <? i then (k', v') :: insert_index i k v r
                  else (k, v) :: o
      | None => (k, v) :: o
      end
  end.

(** [o[k] = v]. *)
Definition set_prop {V} (k : string) (v : V) (o : list (string * V))
  : list (string * V) :=
  match get_prop k o with
  | Some _ => replace_prop k v o
  | None =>
      match array_index k with
      | Some i => insert_index i k v o
      | None => o ++ [(k, v)]
      end
  end.

(** *** Coercions *)

Definition truthy (v : Json) : bool :=
  match v with
  | JNull => false
  | JBool b => b
  | JNum m _ => negb (m =? 0)
  | JStr s => JsString.truthy s
  | JArr _ | JObj _ => true
  end.

(** [a || b] where a missing property reads as [undefined]. *)
Definition or_else (a : option Json) (b : option Json) : option Json :=
  match a with
  | Some v => if truthy v then a else b
  | None => b
  end.

(** [v?.k]: the property of an object, [undefined] on anything else. *)
Definition prop (k : string) (v : option Json) : option Json :=
  match v with
  | Some (JObj fields) => get_prop k fields
  | _ => None
  end.

(** The first character of a string, as the bytes of its UTF-8 form. *)
Definition first_char (s : string) : string :=
  match s with
  | EmptyString => EmptyString
  | String c1 r1 =>
      let n := code c1 in
      if n <? 192 then String c1 EmptyString
      else if n <? 224 then substring 0 2 s
      else if n <? 240 then substring 0 3 s
      else substring 0 4 s
  end.

(** [v?.[0]]: the first element of an array, the property [0] of an
    object, the first character of a string. *)
Definition first (v : option Json) : option Json :=
  match v with
  | Some (JArr (x :: _)) => Some x
  | Some (JObj fields) => get_prop "0" fields
  | Some (JStr s) => if JsString.truthy s then Some (JStr (first_char s)) else None
  | _ => None
  end.

Definition num_eqb (m1 e1 m2 e2 : Z) : bool :=
  let e := Z.min e1 e2 in
  m1 * 10 ^ (e1 - e) =? m2 * 10 ^ (e2 - e).

(** SameValueZero, the equality of [Set]. Arrays and objects are compared
    by identity; two values read from two different records are never the
    same object. Numbers are compared by their decimal value. *)
Definition same_value_zero (a b : Json) : bool :=
  match a, b with
  | JNull, JNull => true
  | JBool x, JBool y => Bool.eqb x y
  | JNum m1 e1, JNum m2 e2 => num_eqb m1 e1 m2 e2
  | JStr x, JStr y => String.eqb x y
  | _, _ => false
  end.

(** A number without the zeros its digits end with: the same value, the
    mantissa no longer a multiple of ten. *)
Fixpoint strip_zeros (fuel : nat) (m e : Z) : Z * Z :=
  match fuel with
  | O => (m, e)
  | S f => if m mod 10 =? 0 then strip_zeros f (m / 10) (e + 1) else (m, e)
  end.

Fixpoint zeros (n : nat) : string :=
  match n with O => EmptyString | S k => String "0" (zeros k) end.

(** [String(x)] for a number ([Number::toString]). With [k] digits and the
    decimal point [n] places after the first digit's left side: the digits
    followed by zeros, the digits with a point inside, or [0.] and zeros
    before them, when [-6 < n <= 21]; the exponent notation otherwise. *)
Definition number_toString (m e : Z) : string :=
  if m =? 0 then "0"
  else
    let '(m', e') := strip_zeros (S (Z.to_nat (Z.log2 (Z.abs m)))) m e in
    let ds := JsString.of_Z (Z.abs m') in
    let k := Z.of_nat (String.length ds) in
    let n := k + e' in
    let sign := if m <? 0 then "-" else EmptyString in
    if (k <=? n) && (n <=? 21) then sign ++ ds ++ zeros (Z.to_nat (n - k))
    else if (0 <? n) && (n <=? 21)
    then sign ++ substring 0 (Z.to_nat n) ds ++ "."
         ++ substring (Z.to_nat n) (Z.to_nat (k - n)) ds
    else if (-6 <? n) && (n <=? 0) then sign ++ "0." ++ zeros (Z.to_nat (- n)) ++ ds
    else
      let exponent :=
        (if n - 1 <? 0 then "-" else "+") ++ JsString.of_Z (Z.abs (n - 1)) in
      if k =? 1 then sign ++ ds ++ "e" ++ exponent
      else sign ++ substring 0 1 ds ++ "." ++ substring 1 (Z.to_nat (k - 1)) ds
           ++ "e" ++ exponent.

(** [String(v)]. *)
Fixpoint toString (v : Json) : string :=
  match v with
  | JNull => "null"
  | JBool true => "true"
  | JBool false => "false"
  | JNum m e => number_toString m e
  | JStr s => s
  | JArr items =>
      JsString.join ","
        (map (fun x => match x with JNull => EmptyString | _ => toString x end) items)
  | JObj _ => "[object Object]"
  end.

(** *** [JSON.parse] *)

Definition is_ws (c : ascii) : bool :=
  let n := code c in (n =? 32) || (n =? 9) || (n =? 10) || (n =? 13).

Fixpoint skip_ws (s : string) : string :=
  match s with
  | EmptyString => EmptyString
  | String c r => if is_ws c then skip_ws r else s
  end.

Fixpoint expect (lit s : string) : option string :=
  match lit, s with
  | EmptyString, _ => Some s
  | String a l, String b r => if Ascii.eqb a b then expect l r else None
  | String _ _, EmptyString => None
  end.

Fixpoint take_digits (s : string) (acc : Z) (n : Z) : Z * Z * string :=
  match s with
  | String c r =>
      if is_digit c then take_digits r (acc * 10 + (code c - 48)) (n + 1)
      else (acc, n, s)
  | EmptyString => (acc, n, s)
  end.

Definition parse_exponent (s : string) : option (Z * string) :=
  match s with
  | String c r =>
      if (code c =? 101) || (code c =? 69) then
        let '(sign, r1) :=
          match r with
          | String d r' =>
              if code d =? 45 then (-1, r')
              else if code d =? 43 then (1, r') else (1, r)
          | EmptyString => (1, r)
          end in
        let '(v, n, r2) := take_digits r1 0 0 in
        if n =? 0 then None else Some (sign * v, r2)
      else Some (0, s)
  | EmptyString => Some (0, s)
  end.

Definition parse_fraction (s : string) : option (Z * Z * string) :=
  match s with
  | String c r =>
      if code c =? 46 then
        let '(v, n, r1) := take_digits r 0 0 in
        if n =? 0 then None else Some (v, n, r1)
      else Some (0, 0, s)
  | EmptyString => Some (0, 0, s)
  end.

Definition parse_number (s : string) : option (Json * string) :=
  let '(sign, s1) :=
    match s with
    | String c r => if code c =? 45 then (-1, r) else (1, s)
    | EmptyString => (1, s)
    end in
  match s1 with
  | String c r =>
      if negb (is_digit c) then None
      else
        let '(ip, r1) :=
          if code c =? 48 then (0, r)
          else let '(v, _, r') := take_digits s1 0 0 in (v, r') in
        match parse_fraction r1 with
        | Some (fp, fl, r2) =>
            match parse_exponent r2 with
            | Some (ex, r3) => Some (JNum (sign * (ip * 10 ^ fl + fp)) (ex - fl), r3)
            | None => None
            end
        | None => None
        end
  | EmptyString => None
  end.

Definition hex_value (c : ascii) : option Z :=
  let n := code c in
  if (48 <=? n) && (n <=? 57) then Some (n - 48)
  else if (97 <=? n) && (n <=? 102) then Some (n - 87)
  else if (65 <=? n) && (n <=? 70) then Some (n - 55)
  else None.

Definition chr (n : Z) : ascii := ascii_of_nat (Z.to_nat n).

(** The bytes of a code point in UTF-8. *)
Definition utf8 (cp : Z) : list ascii :=
  if cp <? 128 then [chr cp]
  else if cp <? 2048 then [chr (192 + cp / 64); chr (128 + cp mod 64)]
  else if cp <? 65536
  then [chr (224 + cp / 4096); chr (128 + (cp / 64) mod 64); chr (128 + cp mod 64)]
  else [chr (240 + cp / 262144); chr (128 + (cp / 4096) mod 64);
        chr (128 + (cp / 64) mod 64); chr (128 + cp mod 64)].

(** The four hexadecimal digits of a [\u] escape. *)
Definition hex4_value (h1 h2 h3 h4 : ascii) : option Z :=
  match hex_value h1, hex_value h2, hex_value h3, hex_value h4 with
  | Some a, Some b, Some c, Some d => Some (((a * 16 + b) * 16 + c) * 16 + d)
  | _, _, _, _ => None
  end.

Definition is_high_surrogate (u : Z) : bool := (55296 <=? u) && (u <=? 56319).
Definition is_low_surrogate (u : Z) : bool := (56320 <=? u) && (u <=? 57343).

(** The code point a surrogate pair stands for. *)
Definition surrogate_pair (hi lo : Z) : Z := 65536 + (hi - 55296) * 1024 + (lo - 56320).

Definition simple_escape (c : ascii) : option ascii :=
  let n := code c in
  if (n =? 34) || (n =? 92) || (n =? 47) then Some c
  else if n =? 98 then Some (chr 8)
  else if n =? 102 then Some (chr 12)
  else if n =? 110 then Some (chr 10)
  else if n =? 114 then Some (chr 13)
  else if n =? 116 then Some (chr 9)
  else None.

(** The body of a string literal, after its opening quote; [acc] holds the
    characters read so far, last first. An escaped high surrogate followed
    by an escaped low surrogate is one character. *)
Fixpoint parse_string (s : string) (acc : list ascii) : option (string * string) :=
  match s with
  | EmptyString => None
  | String c r =>
      if code c =? 34 then Some (string_of_list_ascii (rev acc), r)
      else if code c =? 92 then
        match r with
        | String e r1 =>
            if code e =? 117 then
              match r1 with
              | String h1 (String h2 (String h3 (String h4 r2))) =>
                  match hex4_value h1 h2 h3 h4 with
                  | Some u =>
                      match r2 with
                      | String b (String e' (String l1 (String l2 (String l3
                          (String l4 r3))))) =>
                          match hex4_value l1 l2 l3 l4 with
                          | Some u' =>
                              if (code b =? 92) && (code e' =? 117)
                                 && is_high_surrogate u && is_low_surrogate u'
                              then parse_string r3
                                     (rev (utf8 (surrogate_pair u u')) ++ acc)
                              else parse_string r2 (rev (utf8 u) ++ acc)
                          | None => parse_string r2 (rev (utf8 u) ++ acc)
                          end
                      | _ => parse_string r2 (rev (utf8 u) ++ acc)
                      end
                  | None => None
                  end
              | _ => None
              end
            else
              match simple_escape e with
              | Some x => parse_string r1 (x :: acc)
              | None => None
              end
        | EmptyString => None
        end
      else if code c <? 32 then None
      else parse_string r (c :: acc)
  end.

Definition with_value (v : Json) (r : option string) : option (Json * string) :=
  match r with Some r' => Some (v, r') | None => None end.

Fixpoint parse_value (fuel : nat) (s : string) : option (Json * string) :=
  match fuel with
  | O => None
  | S f =>
      match skip_ws s with
      | EmptyString => None
      | String c r =>
          let n := code c in
          if n =? 110 then with_value JNull (expect "ull" r)
          else if n =? 116 then with_value (JBool true) (expect "rue" r)
          else if n =? 102 then with_value (JBool false) (expect "alse" r)
          else if n =? 34 then
            match parse_string r [] with
            | Some (str, r') => Some (JStr str, r')
            | None => None
            end
          else if n =? 91 then
            match skip_ws r with
            | String c' r' =>
                if code c' =? 93 then Some (JArr [], r') else parse_elements f r []
            | EmptyString => None
            end
          else if n =? 123 then
            match skip_ws r with
            | String c' r' =>
                if code c' =? 125 then Some (JObj [], r') else parse_members f r []
            | EmptyString => None
            end
          else parse_number (String c r)
      end
  end
with parse_elements (fuel : nat) (s : string) (acc : list Json)
  : option (Json * string) :=
  match fuel with
  | O => None
  | S f =>
      match parse_value f s with
      | Some (v, r) =>
          match skip_ws r with
          | String c r' =>
              if code c =? 44 then parse_elements f r' (v :: acc)
              else if code c =? 93 then Some (JArr (rev (v :: acc)), r')
              else None
          | EmptyString => None
          end
      | None => None
      end
  end
with parse_members (fuel : nat) (s : string) (acc : list (string * Json))
  : option (Json * string) :=
  match fuel with
  | O => None
  | S f =>
      match skip_ws s with
      | String q r =>
          if code q =? 34 then
            match parse_string r [] with
            | Some (k, r1) =>
                match skip_ws r1 with
                | String c r2 =>
                    if code c =? 58 then
                      match parse_value f r2 with
                      | Some (v, r3) =>
                          match skip_ws r3 with
                          | String d r4 =>
                              if code d =? 44
                              then parse_members f r4 (set_prop k v acc)
                              else if code d =? 125
                              then Some (JObj (set_prop k v acc), r4)
                              else None
                          | EmptyString => None
                          end
                      | None => None
                      end
                    else None
                | EmptyString => None
                end
            | None => None
            end
          else None
      | EmptyString => None
      end
  end.

(** *** [JSON.stringify(value, null, 2)] *)

Definition hex4 (n : Z) : string :=
  String (JsString.digit_char (n / 4096 mod 16))
    (String (JsString.digit_char (n / 256 mod 16))
       (String (JsString.digit_char (n / 16 mod 16))
          (String (JsString.digit_char (n mod 16)) EmptyString))).

Definition escape_char (c : ascii) : string :=
  let n := code c in
  if n =? 34 then String "\" (String dquote EmptyString)
  else if n =? 92 then "\\"
  else if n =? 8 then "\b"
  else if n =? 12 then "\f"
  else if n =? 10 then "\n"
  else if n =? 13 then "\r"
  else if n =? 9 then "\t"
  else if n <? 32 then "\u" ++ hex4 n
  else String c EmptyString.

Fixpoint escape (s : string) : string :=
  match s with
  | EmptyString => EmptyString
  | String c r => escape_char c ++ escape r
  end.

Definition quote (s : string) : string :=
  String dquote (escape s ++ String dquote EmptyString).

Definition newline : string := String (chr 10) EmptyString.

(** [ind] is the indentation of the line the value starts on. *)
Fixpoint stringify_at (ind : string) (v : Json) : string :=
  let ind' := ind ++ "  " in
  match v with
  | JNull => "null"
  | JBool true => "true"
  | JBool false => "false"
  | JNum m e => number_toString m e
  | JStr s => quote s
  | JArr [] => "[]"
  | JArr items =>
      "[" ++ newline
      ++ (fix go (l : list Json) : string :=
            match l with
            | [] => EmptyString
            | x :: r =>
                ind' ++ stringify_at ind' x
                ++ match r with [] => EmptyString | _ => "," ++ newline ++ go r end
            end) items
      ++ newline ++ ind ++ "]"
  | JObj [] => "{}"
  | JObj fields =>
      "{" ++ newline
      ++ (fix go (l : list (string * Json)) : string :=
            match l with
            | [] => EmptyString
            | (k, x) :: r =>
                ind' ++ quote k ++ ": " ++ stringify_at ind' x
                ++ match r with [] => EmptyString | _ => "," ++ newline ++ go r end
            end) fields
      ++ newline ++ ind ++ "}"
  end.

Definition stringify (v : Json) : string := stringify_at EmptyString v.

(** [JSON.parse(text)]; [None] stands for the [SyntaxError] it throws. *)
Definition parse (text : string) : option Json :=
  match parse_value (2 * String.length text + 2) text with
  | Some (v, r) =>
      match skip_ws r with
      | EmptyString => Some v
      | String _ _ => None
      end
  | None => None
  end.

End JSON.

(** ** [Date] *)

Module JsDate.

Definition MS_PER_DAY : Z := 24 * 60 * 60 * 1000.

(** Year, month (1 to 12) and day of the month of a day number counted
    from 1 January 1970, in the proleptic Gregorian calendar. *)
Definition civil_from_days (days : Z) : Z * Z * Z :=
  let z := days + 719468 in
  let era := z / 146097 in
  let doe := z - era * 146097 in
  let yoe := (doe - doe / 1460 + doe / 36524 - doe / 146096) / 365 in
  let doy := doe - (365 * yoe + yoe / 4 - yoe / 100) in
  let mp := (5 * doy + 2) / 153 in
  let d := doy - (153 * mp + 2) / 5 + 1 in
  let m := if mp <? 10 then mp + 3 else mp - 9 in
  let y := yoe + era * 400 in
  (if m <=? 2 then y + 1 else y, m, d).

Definition pad (width : nat) (n : Z) : string :=
  let s := JsString.of_Z n in
  JSON.zeros (width - String.length s) ++ s.

Definition year_string (y : Z) : string :=
  if (0 <=? y) && (y <=? 9999) then pad 4 y
  else if y <? 0 then "-" ++ pad 6 (- y) else "+" ++ pad 6 y.

(** [Date.prototype.toISOString] of a valid time value. *)
Definition toISOString (t : Z) : string :=
  let '(y, m, d) := civil_from_days (t / MS_PER_DAY) in
  let ms := t mod MS_PER_DAY in
  year_string y ++ "-" ++ pad 2 m ++ "-" ++ pad 2 d ++ "T"
  ++ pad 2 (ms / 3600000) ++ ":" ++ pad 2 (ms / 60000 mod 60) ++ ":"
  ++ pad 2 (ms / 1000 mod 60) ++ "." ++ pad 3 (ms mod 1000) ++ "Z".

Definition month_name (m : Z) : string :=
  nth (Z.to_nat (m - 1))
    ["January"; "February"; "March"; "April"; "May"; "June"; "July";
     "August"; "September"; "October"; "November"; "December"] EmptyString.

(** [toLocaleDateString] for en-US with a numeric year, a long month, a
    numeric day and the UTC time zone. *)
Definition toLocaleDateString (t : Z) : string :=
  let '(y, m, d) := civil_from_days (t / MS_PER_DAY) in
  month_name m ++ " " ++ JsString.of_Z d ++ ", " ++ JsString.of_Z y.

(** [Date.prototype.toJSON]: a [Date] with no valid time value gives [null]. *)
Definition toJSON (d : option Z) : JSON.Json :=
  match d with
  | Some t => JSON.JStr (toISOString t)
  | None => JSON.JNull
  end.

End JsDate.

(** ** The cookie session store ([server/cookie-session-storage.ts]) *)

Module Store.

(** The payload of [snykConfig], without its expiry field. The interface
    declares strings; the values arrive unchecked from a request body, so
    they are kept as the JSON values they are, an absent one as [None]. *)
Record SnykConfig := mkSnykConfig {
  snykApiToken : JSON.Json;
  groupId : option JSON.Json;
  orgId : option JSON.Json;
  apiVersion : option JSON.Json
}.

(** The payload of [llmConfig], without its expiry field. *)
Record LlmConfig := mkLlmConfig {
  provider : string;
  model : string;
  apiKey : string;
  baseUrl : option string
}.

(** A stored sub-record: [{ ...config, expiresAt }]. *)
Record Stored (P : Type) := mkStored {
  payload : P;
  expiresAt : Z
}.
Arguments mkStored {P} _ _.
Arguments payload {P} _.
Arguments expiresAt {P} _.

Record CookieSession := mkSession {
  session_id : string;
  snykConfig : option (Stored SnykConfig);
  llmConfig : option (Stored LlmConfig);
  createdAt : Z;
  lastAccessed : Z
}.

Definition CLEANUP_INTERVAL : Z := 5 * 60 * 1000.
Definition SESSION_TIMEOUT : Z := 30 * 60 * 1000.
Definition COOKIE_NAME : string := "snyk-session-id".

(** What a call writes to the response: [res.cookie] and [res.clearCookie]. *)
Inductive CookieOp :=
| SetCookie (name value : string) (maxAge : Z)
| ClearCookie (name : string).

(** A request as the store sees it: the value of the session cookie, and
    the sixteen bytes [randomBytes] hands out should an identifier be
    generated while serving it. *)
Record Request := mkRequest {
  cookie : option string;
  entropy : list Byte.byte
}.

Definition set_lastAccessed (t : Z) (s : CookieSession) : CookieSession :=
  mkSession (session_id s) (snykConfig s) (llmConfig s) (createdAt s) t.

Definition set_snykConfig (c : option (Stored SnykConfig)) (s : CookieSession)
  : CookieSession :=
  mkSession (session_id s) c (llmConfig s) (createdAt s) (lastAccessed s).

Definition set_llmConfig (c : option (Stored LlmConfig)) (s : CookieSession)
  : CookieSession :=
  mkSession (session_id s) (snykConfig s) c (createdAt s) (lastAccessed s).

Definition generateSessionId (now : Z) (random : list Byte.byte) : string :=
  JsString.toString_radix 36 now ++ "-" ++ JsString.hex_of_bytes random.

(** The outcome of a call on the store. *)
Record Outcome (A : Type) := mkOutcome {
  result : A;
  sessions : gmap string CookieSession;
  cookies : list CookieOp
}.
Arguments mkOutcome {A} _ _ _.
Arguments result {A} _.
Arguments sessions {A} _.
Arguments cookies {A} _.

Definition createSession (st : gmap string CookieSession) (now : Z) (req : Request)
  : Outcome string :=
  let sessionId := generateSessionId now (entropy req) in
  let session := mkSession sessionId None None now now in
  mkOutcome sessionId (<[sessionId := session]> st)
            [SetCookie COOKIE_NAME sessionId SESSION_TIMEOUT].

Definition getOrCreateSessionId (st : gmap string CookieSession) (now : Z)
    (req : Request) : Outcome string :=
  match cookie req with
  | Some sessionId =>
      if JsString.truthy sessionId then
        match st !! sessionId with
        | Some session =>
            if now - lastAccessed session >? SESSION_TIMEOUT
            then createSession (delete sessionId st) now req
            else mkOutcome sessionId
                   (<[sessionId := set_lastAccessed now session]> st) []
        | None => createSession st now req
        end
      else createSession st now req
  | None => createSession st now req
  end.

(** [f] applied to the session object a call has just resolved; the call
    always finds it, the identifier having been resolved the line before. *)
Definition update_session (f : CookieSession -> CookieSession) (sid : string)
    (st : gmap string CookieSession) : gmap string CookieSession :=
  match st !! sid with
  | Some s => <[sid := f s]> st
  | None => st
  end.

Definition setApiConfiguration (st : gmap string CookieSession) (now : Z)
    (req : Request) (config : SnykConfig) (expirationMinutes : Z)
  : Outcome string :=
  let o := getOrCreateSessionId st now req in
  let sessionId := result o in
  mkOutcome sessionId
    (update_session
       (set_snykConfig (Some (mkStored config (now + expirationMinutes * 60 * 1000))))
       sessionId (sessions o))
    (cookies o).

Definition getApiConfiguration (st : gmap string CookieSession) (now : Z)
    (req : Request) : Outcome (option (SnykConfig * string)) :=
  let o := getOrCreateSessionId st now req in
  let sessionId := result o in
  match sessions o !! sessionId with
  | Some session =>
      match snykConfig session with
      | Some c =>
          if now >? expiresAt c
          then mkOutcome None
                 (<[sessionId := set_snykConfig None session]> (sessions o))
                 (cookies o)
          else mkOutcome (Some (payload c, sessionId)) (sessions o) (cookies o)
      | None => mkOutcome None (sessions o) (cookies o)
      end
  | None => mkOutcome None (sessions o) (cookies o)
  end.

Definition getTimeUntilExpiration (st : gmap string CookieSession) (now : Z)
    (req : Request) : Outcome (option Z) :=
  let o := getOrCreateSessionId st now req in
  let sessionId := result o in
  match sessions o !! sessionId with
  | Some session =>
      match snykConfig session with
      | Some c =>
          let remainingMs := expiresAt c - now in
          mkOutcome (Some (Z.max 0 (remainingMs / (60 * 1000))))
                    (sessions o) (cookies o)
      | None => mkOutcome None (sessions o) (cookies o)
      end
  | None => mkOutcome None (sessions o) (cookies o)
  end.

Definition clearConfiguration (st : gmap string CookieSession) (now : Z)
    (req : Request) : Outcome unit :=
  let o := getOrCreateSessionId st now req in
  let sessionId := result o in
  let st1 := update_session (set_snykConfig None) sessionId (sessions o) in
  (* Also clear the cookie, then remove the session entirely. *)
  mkOutcome tt (delete sessionId st1) (cookies o ++ [ClearCookie COOKIE_NAME]).

Definition extendConfiguration (st : gmap string CookieSession) (now : Z)
    (req : Request) (additionalMinutes : Z) : Outcome bool :=
  let o := getOrCreateSessionId st now req in
  let sessionId := result o in
  match sessions o !! sessionId with
  | Some session =>
      match snykConfig session with
      | Some c =>
          if now >? expiresAt c
          then mkOutcome false (sessions o) (cookies o)
          else mkOutcome true
                 (<[sessionId :=
                      set_snykConfig
                        (Some (mkStored (payload c) (now + additionalMinutes * 60 * 1000)))
                        session]> (sessions o))
                 (cookies o)
      | None => mkOutcome false (sessions o) (cookies o)
      end
  | None => mkOutcome false (sessions o) (cookies o)
  end.

(** LLM configuration: same session, separate TTL. *)

Definition setLlmConfiguration (st : gmap string CookieSession) (now : Z)
    (req : Request) (config : LlmConfig) (expirationMinutes : Z)
  : Outcome string :=
  let o := getOrCreateSessionId st now req in
  let sessionId := result o in
  mkOutcome sessionId
    (update_session
       (set_llmConfig (Some (mkStored config (now + expirationMinutes * 60 * 1000))))
       sessionId (sessions o))
    (cookies o).

Definition getLlmConfiguration (st : gmap string CookieSession) (now : Z)
    (req : Request) : Outcome (option (LlmConfig * string)) :=
  let o := getOrCreateSessionId st now req in
  let sessionId := result o in
  match sessions o !! sessionId with
  | Some session =>
      match llmConfig session with
      | Some c =>
          if now >? expiresAt c
          then mkOutcome None
                 (<[sessionId := set_llmConfig None session]> (sessions o))
                 (cookies o)
          else mkOutcome (Some (payload c, sessionId)) (sessions o) (cookies o)
      | None => mkOutcome None (sessions o) (cookies o)
      end
  | None => mkOutcome None (sessions o) (cookies o)
  end.

Definition clearLlmConfiguration (st : gmap string CookieSession) (now : Z)
    (req : Request) : Outcome unit :=
  let o := getOrCreateSessionId st now req in
  let sessionId := result o in
  mkOutcome tt (update_session (set_llmConfig None) sessionId (sessions o))
            (cookies o).

(** The periodic sweep: every session idle beyond the timeout goes. *)
Definition cleanupExpiredSessions (st : gmap string CookieSession) (now : Z)
  : gmap string CookieSession :=
  filter (fun kv => negb (now - lastAccessed (snd kv) >? SESSION_TIMEOUT) = true) st.

(** The request a browser sends next: it carries the identifier the last
    call resolved (the cookie it already had, or the one just written). *)
Definition follow_up (sid : string) (rnd : list Byte.byte) : Request :=
  mkRequest (Some sid) rnd.

End Store.

(** ** Records and request schemas ([shared/schema.ts]) *)

Module Schema.
Import JSON.

Record AuditLog := mkAuditLog {
  id : string;
  event : string;
  (** the time value of the [Date]; [None] for an invalid date *)
  created : option Z;
  orgId : option string;
  groupId : option string;
  projectId : option string;
  content : Json
}.

Record ChatSession := mkChatSession {
  chat_id : string;
  userId : option string;
  (** a [jsonb] column: whatever was stored *)
  messages : Json
}.

(** *** The issues a schema reports (zod 3)

    A failed [parse] throws a [ZodError] whose message is the JSON text of
    its issues. *)

Definition parsed_type (v : option Json) : string :=
  match v with
  | None => "undefined"
  | Some JNull => "null"
  | Some (JBool _) => "boolean"
  | Some (JNum _ _) => "number"
  | Some (JStr _) => "string"
  | Some (JArr _) => "array"
  | Some (JObj _) => "object"
  end.

Definition invalid_type (expected received : string) (path : list Json) : Json :=
  JObj [("code", JStr "invalid_type");
        ("expected", JStr expected);
        ("received", JStr received);
        ("path", JArr path);
        ("message",
         JStr (if String.eqb received "undefined" then "Required"
               else "Expected " ++ expected ++ ", received " ++ received))].

Definition too_small_string (minimum : Z) (path : list Json) : Json :=
  JObj [("code", JStr "too_small");
        ("minimum", JNum minimum 0);
        ("type", JStr "string");
        ("inclusive", JBool true);
        ("exact", JBool false);
        ("message",
         JStr ("String must contain at least " ++ JsString.of_Z minimum
               ++ " character(s)"));
        ("path", JArr path)].

Definition too_small_number (minimum : Z) (path : list Json) : Json :=
  JObj [("code", JStr "too_small");
        ("minimum", JNum minimum 0);
        ("type", JStr "number");
        ("inclusive", JBool true);
        ("exact", JBool false);
        ("message",
         JStr ("Number must be greater than or equal to " ++ JsString.of_Z minimum));
        ("path", JArr path)].

Definition too_big_number (maximum : Z) (path : list Json) : Json :=
  JObj [("code", JStr "too_big");
        ("maximum", JNum maximum 0);
        ("type", JStr "number");
        ("inclusive", JBool true);
        ("exact", JBool false);
        ("message",
         JStr ("Number must be less than or equal to " ++ JsString.of_Z maximum));
        ("path", JArr path)].

(** [z.string().optional()] *)
Definition optional_string (path : list Json) (v : option Json)
  : list Json + option string :=
  match v with
  | None => inr None
  | Some (JStr s) => inr (Some s)
  | Some _ => inl [invalid_type "string" (parsed_type v) path]
  end.

(** [z.string().min(n)] *)
Definition string_min (minimum : Z) (path : list Json) (v : option Json)
  : list Json + string :=
  match v with
  | Some (JStr s) =>
      if Z.of_nat (String.length s) <? minimum
      then inl [too_small_string minimum path] else inr s
  | _ => inl [invalid_type "string" (parsed_type v) path]
  end.

(** The elements of [z.array(z.string())], from index [i] on. *)
Fixpoint string_items (path : list Json) (i : Z) (l : list Json)
  : list Json * list string :=
  match l with
  | [] => ([], [])
  | x :: r =>
      let '(issues, values) := string_items path (i + 1) r in
      match x with
      | JStr s => (issues, s :: values)
      | _ => (invalid_type "string" (parsed_type (Some x)) (path ++ [JNum i 0])%list
                :: issues, values)
      end
  end.

(** [z.array(z.string()).optional()] *)
Definition optional_string_array (path : list Json) (v : option Json)
  : list Json + option (list string) :=
  match v with
  | None => inr None
  | Some (JArr l) =>
      match string_items path 0 l with
      | ([], values) => inr (Some values)
      | (issues, _) => inl issues
      end
  | Some _ => inl [invalid_type "array" (parsed_type v) path]
  end.

(** [z.number().min(lo).max(hi).default(d)] on a number that is present;
    [None] is [NaN]. *)
Definition number_range (lo hi : Z) (path : list Json) (v : option Z)
  : list Json + Z :=
  match v with
  | None => inl [invalid_type "number" "nan" path]
  | Some n =>
      if n <? lo then inl [too_small_number lo path]
      else if hi <? n then inl [too_big_number hi path]
      else inr n
  end.

Definition issues_of {A} (r : list Json + A) : list Json :=
  match r with inl l => l | inr _ => [] end.

(** *** [chatMessageSchema] *)

Record ChatMessage := mkChatMessage {
  message : string;
  sessionId : option string
}.

Definition chatMessageSchema (body : Json) : list Json + ChatMessage :=
  match body with
  | JObj _ =>
      let m := string_min 1 [JStr "message"] (prop "message" (Some body)) in
      let s := optional_string [JStr "sessionId"] (prop "sessionId" (Some body)) in
      match m, s with
      | inr m', inr s' => inr (mkChatMessage m' s')
      | _, _ => inl (issues_of m ++ issues_of s)%list
      end
  | _ => inl [invalid_type "object" (parsed_type (Some body)) []]
  end.

(** *** [auditLogFilterSchema] *)

(** The object the audit-log route builds from the query string. *)
Record QueryParams := mkQueryParams {
  q_from : option Json;
  q_to : option Json;
  q_events : Json;
  q_excludeEvents : Json;
  q_size : option Z;
  q_cursor : option Json;
  q_search : option Json
}.

Record AuditLogFilter := mkAuditLogFilter {
  from : option string;
  to : option string;
  events : option (list string);
  excludeEvents : option (list string);
  size : Z;
  cursor : option string;
  search : option string
}.

Definition auditLogFilterSchema (q : QueryParams) : list Json + AuditLogFilter :=
  let f := optional_string [JStr "from"] (q_from q) in
  let t := optional_string [JStr "to"] (q_to q) in
  let e := optional_string_array [JStr "events"] (Some (q_events q)) in
  let x := optional_string_array [JStr "excludeEvents"] (Some (q_excludeEvents q)) in
  let n := number_range 1 100 [JStr "size"] (q_size q) in
  let c := optional_string [JStr "cursor"] (q_cursor q) in
  let s := optional_string [JStr "search"] (q_search q) in
  match f, t, e, x, n, c, s with
  | inr f', inr t', inr e', inr x', inr n', inr c', inr s' =>
      inr (mkAuditLogFilter f' t' e' x' n' c' s')
  | _, _, _, _, _, _, _ =>
      inl (issues_of f ++ issues_of t ++ issues_of e ++ issues_of x
           ++ issues_of n ++ issues_of c ++ issues_of s)%list
  end.

End Schema.

(** ** Asynchronous code: external calls and exceptions *)

Module Async.
Import JSON.

(** An [Error] instance, as a [catch] clause sees it. *)
Record JsError := mkError {
  name : string;
  message : string
}.

(** [new Error(message)] *)
Definition Error (message : string) : JsError := mkError "Error" message.

(** How a promise settles. *)
Inductive Settled (A : Type) : Type :=
| Fulfilled (a : A)
| Rejected (e : JsError).
Arguments Fulfilled {A} _.
Arguments Rejected {A} _.

(** *** What goes over the wire *)

Record GeminiContent := mkGeminiContent {
  g_role : string;
  g_parts : list string
}.

(** [ai.models.generateContent({ model, contents, config })] on a client
    built with [apiKey]. *)
Record GeminiCall := mkGeminiCall {
  g_apiKey : string;
  g_model : string;
  g_contents : list GeminiContent;
  g_maxOutputTokens : Z;
  g_temperature : Q;
  g_topP : Q;
  g_topK : Z
}.

Record GeminiResponse := mkGeminiResponse {
  g_text : option string;
  g_candidates : option Json
}.

Record ApiMessage := mkApiMessage {
  api_role : string;
  api_content : string
}.

(** The object a provider adapter serialises into the request body. *)
Inductive RequestBody :=
| OpenAIBody (model : string) (messages : list ApiMessage) (max_tokens : Z)
    (temperature : Q)
| AnthropicBody (model : string) (max_tokens : Z) (messages : list ApiMessage)
    (system : option string).

Record FetchCall := mkFetchCall {
  url : string;
  method : string;
  headers : list (string * string);
  body : RequestBody
}.

(** A [fetch] response; [json] is what [res.json()] settles to. *)
Record FetchResponse := mkFetchResponse {
  ok : bool;
  status : Z;
  json : Settled Json
}.

(** *** The upstream audit-log client ([server/services/snyk-api.ts]) *)

Record SnykFilters := mkSnykFilters {
  f_from : option string;
  f_to : option string;
  f_events : option (list string);
  f_excludeEvents : option (list string);
  f_size : Z;
  f_cursor : option string;
  f_search : option string
}.

Record SnykItem := mkSnykItem {
  item_id : string;
  item_event : string;
  item_created : string;
  item_content : Json;
  item_orgId : option string;
  item_groupId : option string;
  item_projectId : option string
}.

Record SnykPage := mkSnykPage {
  items : list SnykItem;
  total : Z;
  nextCursor : option string
}.

Record ConnectionTest := mkConnectionTest {
  success : bool;
  test_message : string
}.

Record InsertAuditLog := mkInsertAuditLog {
  ins_event : string;
  ins_created : option Z;
  ins_orgId : option string;
  ins_groupId : option string;
  ins_projectId : option string;
  ins_content : Json
}.

(** *** External calls

    Each constructor is one awaited call on a collaborator: an LLM backend,
    the upstream audit-log API, or the transient storage of audit logs and
    chat transcripts ([server/storage.ts]). Its index is the type of what
    the call gives back. *)
Inductive Event : Type -> Type :=
| GenerateContent (c : GeminiCall) : Event (Settled GeminiResponse)
| Fetch (c : FetchCall) : Event (Settled FetchResponse)
| TestConnection (apiToken : Json) (apiVersion : option Json) : Event ConnectionTest
| GetOrganizationAuditLogs (apiToken apiVersion orgId : Json) (filters : SnykFilters)
  : Event (Settled SnykPage)
| GetGroupAuditLogs (apiToken apiVersion groupId : Json) (filters : SnykFilters)
  : Event (Settled SnykPage)
| CreateAuditLog (log : InsertAuditLog) : Event (Settled Schema.AuditLog)
| GetAllAuditLogs : Event (list Schema.AuditLog)
| GetChatSession (id : string) : Event (option Schema.ChatSession)
| CreateChatSession (userId : string) (messages : Json) : Event Schema.ChatSession
| UpdateChatSession (id : string) (messages : Json) : Event (Settled Schema.ChatSession).

(** An asynchronous computation: it returns, throws, or awaits an external
    call and goes on with what the call gave back. *)
Inductive IO (A : Type) : Type :=
| Ret (a : A)
| Throw (e : JsError)
| Vis {X : Type} (ev : Event X) (k : X -> IO A).
Arguments Ret {A} _.
Arguments Throw {A} _.
Arguments Vis {A X} _ _.

Fixpoint bind {A B} (m : IO A) (f : A -> IO B) : IO B :=
  match m with
  | Ret a => f a
  | Throw e => Throw e
  | Vis ev k => Vis ev (fun x => bind (k x) f)
  end.

(** [try { m } catch (e) { h e }] *)
Fixpoint try_catch {A} (m : IO A) (h : JsError -> IO A) : IO A :=
  match m with
  | Ret a => Ret a
  | Throw e => h e
  | Vis ev k => Vis ev (fun x => try_catch (k x) h)
  end.

(** [await] of one external call. *)
Definition await {X} (ev : Event X) : IO X := Vis ev Ret.

(** [await] of a call whose promise may reject. *)
Definition await_settled {X} (ev : Event (Settled X)) : IO X :=
  Vis ev (fun r => match r with Fulfilled x => Ret x | Rejected e => Throw e end).

(** The collaborators, as a function answering every call. *)
Definition World := forall X, Event X -> X.

Fixpoint run {A} (w : World) (m : IO A) : Settled A :=
  match m with
  | Ret a => Fulfilled a
  | Throw e => Rejected e
  | Vis ev k => run w (k (w _ ev))
  end.

(** The number of external calls made along the way. *)
Fixpoint calls {A} (w : World) (m : IO A) : nat :=
  match m with
  | Ret _ | Throw _ => O
  | Vis ev k => S (calls w (k (w _ ev)))
  end.

#[global] Instance io_ret : MRet IO := fun A a => Ret a.
#[global] Instance io_bind : MBind IO := fun A B f m => bind m f.

End Async.

(** ** Provider adapters and the router ([server/services/llm/]) *)

Module Llm.
Import JSON Async.

Abbreviation LLMConfig := Store.LlmConfig.

Inductive Role := user | assistant | system.

Record Message := mkMessage {
  role : Role;
  content : string
}.

Record GenerateOptions := mkGenerateOptions {
  maxOutputTokens : option Z;
  temperature : option Q;
  topP : option Q;
  topK : option Z
}.

Record LLMProvider := mkProvider {
  generateText : list Message -> option GenerateOptions -> IO string
}.

(** [options?.field ?? fallback] *)
Definition option_or {A} (options : option GenerateOptions)
    (field : GenerateOptions -> option A) (fallback : A) : A :=
  match options with
  | Some o => match field o with Some v => v | None => fallback end
  | None => fallback
  end.

(** *** Gemini ([gemini-provider.ts]) *)

Definition gemini_contents (messages : list Message) : list GeminiContent :=
  let contents :=
    map (fun m =>
           mkGeminiContent
             (match role m with assistant => "model" | _ => "user" end)
             [content m]) messages in
  if (length contents =? 0)%nat
  then (contents ++ [mkGeminiContent "user" [EmptyString]])%list
  else contents.

(** [candidates?.[0]?.content?.parts?.[0]?.text] *)
Definition candidate_text (response : GeminiResponse) : option Json :=
  prop "text" (first (prop "parts" (prop "content" (first (g_candidates response))))).

Definition gemini_text (response : GeminiResponse) : IO string :=
  match g_text response with
  | Some t =>
      if JsString.truthy t then Ret t
      else
        match candidate_text response with
        | Some v => if truthy v then Ret (toString v)
                    else Throw (Error "No text in Gemini response")
        | None => Throw (Error "No text in Gemini response")
        end
  | None =>
      match candidate_text response with
      | Some v => if truthy v then Ret (toString v)
                  else Throw (Error "No text in Gemini response")
      | None => Throw (Error "No text in Gemini response")
      end
  end.

Definition createGeminiProvider (config : LLMConfig) : LLMProvider :=
  mkProvider (fun messages options =>
    let contents := gemini_contents messages in
    response ← await_settled (GenerateContent
      (mkGeminiCall (Store.apiKey config) (Store.model config) contents
         (option_or options maxOutputTokens 4096)
         (option_or options temperature (1 # 10)%Q)
         (option_or options topP (9 # 10)%Q)
         (option_or options topK 40)));
    gemini_text response).

(** *** OpenAI and compatible backends ([openai-provider.ts]) *)

Definition openAiRole (r : Role) : string :=
  match r with
  | user => "user"
  | assistant => "assistant"
  | system => "system"
  end.

(** [s.replace] of a final slash by nothing: one trailing slash goes. *)
Fixpoint strip_trailing_slash (s : string) : string :=
  match s with
  | EmptyString => EmptyString
  | String c EmptyString => if code c =? 47 then EmptyString else s
  | String c r => String c (strip_trailing_slash r)
  end.

Definition openai_baseUrl (config : LLMConfig) : string :=
  JsString.or_else
    (match Store.baseUrl config with
     | Some u => strip_trailing_slash u
     | None => EmptyString
     end)
    "https://api.openai.com/v1".

Definition openai_messages (messages : list Message) : list ApiMessage :=
  map (fun m => mkApiMessage (openAiRole (role m)) (content m)) messages.

Definition openai_request (config : LLMConfig) (messages : list Message)
    (options : option GenerateOptions) : FetchCall :=
  mkFetchCall (openai_baseUrl config ++ "/chat/completions") "POST"
    [("Content-Type", "application/json");
     ("Authorization", "Bearer " ++ Store.apiKey config)]
    (OpenAIBody (Store.model config) (openai_messages messages)
       (option_or options maxOutputTokens 4096)
       (option_or options temperature (1 # 10)%Q)).

(** [err?.error?.message || fallback], thrown as an [Error]. *)
Definition api_error (res : FetchResponse) (fallback : string) : JsError :=
  let err := match json res with Fulfilled v => v | Rejected _ => JObj [] end in
  match prop "message" (prop "error" (Some err)) with
  | Some v => if truthy v then Error (toString v) else Error fallback
  | None => Error fallback
  end.

(** [if (text != null) return text]: the content is returned as it is; a
    content that is not a string is held here as the text it prints as. A
    body that is [null] has no [choices] to read. *)
Definition createOpenAIProvider (config : LLMConfig) : LLMProvider :=
  mkProvider (fun messages options =>
    res ← await_settled (Fetch (openai_request config messages options));
    if negb (ok res)
    then Throw (api_error res ("OpenAI API error: " ++ JsString.of_Z (status res)))
    else
      match json res with
      | Rejected e => Throw e
      | Fulfilled JNull =>
          Throw (mkError "TypeError" "Cannot read properties of null (reading 'choices')")
      | Fulfilled data =>
          match prop "content" (prop "message" (first (prop "choices" (Some data)))) with
          | Some JNull | None => Throw (Error "No content in OpenAI response")
          | Some v => Ret (toString v)
          end
      end).

(** *** Anthropic ([anthropic-provider.ts]) *)

(** The loop over the messages: the last system message becomes [system],
    the others are pushed in order. *)
Fixpoint anthropic_split (messages : list Message) (system_ : option string)
    (apiMessages : list ApiMessage) : option string * list ApiMessage :=
  match messages with
  | [] => (system_, apiMessages)
  | m :: r =>
      match role m with
      | system => anthropic_split r (Some (content m)) apiMessages
      | assistant =>
          anthropic_split r system_
            (apiMessages ++ [mkApiMessage "assistant" (content m)])%list
      | user =>
          anthropic_split r system_
            (apiMessages ++ [mkApiMessage "user" (content m)])%list
      end
  end.

Definition anthropic_request (config : LLMConfig) (messages : list Message)
    (options : option GenerateOptions) : FetchCall :=
  let '(system_, apiMessages) := anthropic_split messages None [] in
  mkFetchCall "https://api.anthropic.com/v1/messages" "POST"
    [("Content-Type", "application/json");
     ("x-api-key", Store.apiKey config);
     ("anthropic-version", "2023-06-01")]
    (AnthropicBody (Store.model config)
       (option_or options maxOutputTokens 4096)
       apiMessages
       (match system_ with
        | Some s => if JsString.truthy s then Some s else None
        | None => None
        end)).

(** [blocks.find((b) => b.type === 'text')]; reading [type] off [null]
    throws. *)
Fixpoint find_text_block (blocks : list Json) : JsError + option Json :=
  match blocks with
  | [] => inr None
  | JNull :: _ =>
      inl (mkError "TypeError" "Cannot read properties of null (reading 'type')")
  | b :: r =>
      match prop "type" (Some b) with
      | Some (JStr t) => if String.eqb t "text" then inr (Some b) else find_text_block r
      | _ => find_text_block r
      end
  end.

Definition anthropic_text (data : Json) : IO string :=
  let found :=
    match prop "content" (Some data) with
    | None | Some JNull => inr None
    | Some (JArr blocks) => find_text_block blocks
    | Some _ => inl (mkError "TypeError" "data.content?.find is not a function")
    end in
  match found with
  | inl e => Throw e
  | inr block =>
      match prop "text" block with
      | Some JNull | None => Throw (Error "No text in Anthropic response")
      | Some v => Ret (toString v)
      end
  end.

Definition createAnthropicProvider (config : LLMConfig) : LLMProvider :=
  mkProvider (fun messages options =>
    res ← await_settled (Fetch (anthropic_request config messages options));
    if negb (ok res)
    then Throw (api_error res ("Anthropic API error: " ++ JsString.of_Z (status res)))
    else
      match json res with
      | Rejected e => Throw e
      | Fulfilled JNull =>
          Throw (mkError "TypeError" "Cannot read properties of null (reading 'content')")
      | Fulfilled data => anthropic_text data
      end).

(** *** The router ([index.ts]) *)

Definition UNCONFIGURED_MESSAGE : string :=
  "AI is not configured. Please configure an AI provider (provider, model, and API key) in the settings.".

Definition createNoOpProvider : LLMProvider :=
  mkProvider (fun _ _ => Ret UNCONFIGURED_MESSAGE).

(** [!config?.field?.trim()] *)
Definition missing (config : option LLMConfig) (field : LLMConfig -> string) : bool :=
  match config with
  | Some c => negb (JsString.truthy (JsString.trim (field c)))
  | None => true
  end.

Definition getProvider (config : option LLMConfig) : LLMProvider :=
  if missing config Store.provider || missing config Store.model
     || missing config Store.apiKey
  then createNoOpProvider
  else
    match config with
    | None => createNoOpProvider
    | Some config =>
        let provider := JsString.toLowerCase (Store.provider config) in
        if String.eqb provider "gemini" || String.eqb provider "google"
           || String.eqb provider "google gemini"
        then createGeminiProvider config
        else if String.eqb provider "openai" || String.eqb provider "custom"
        then createOpenAIProvider config
        else if String.eqb provider "anthropic" || String.eqb provider "claude"
        then createAnthropicProvider config
        else createNoOpProvider
    end.

End Llm.

(** ** The summary and chat orchestrator ([server/services/llm-service.ts]) *)

Module LlmService.
Import JSON Async Llm Schema.

Record LogSummary := mkLogSummary {
  ls_event : string;
  ls_created : option Z;
  ls_content : Json
}.

Definition summarize (log : AuditLog) : LogSummary :=
  mkLogSummary (event log) (created log) (content log).

(** [JSON.stringify] sees the [Date] through its [toJSON]. *)
Definition summary_json (l : LogSummary) : Json :=
  JObj [("event", JStr (ls_event l));
        ("created", JsDate.toJSON (ls_created l));
        ("content", ls_content l)].

(** [l.slice(0, n)] *)
Definition slice0 {A} (n : nat) (l : list A) : list A := firstn n l.

(** [new Date(log.created) >= oneDayAgo]; a comparison with an invalid date
    is false. *)
Definition is_recent (now : Z) (log : AuditLog) : bool :=
  let oneDayAgo := now - 24 * 60 * 60 * 1000 in
  match created log with
  | Some t => oneDayAgo <=? t
  | None => false
  end.

(** [acc[event] = (acc[event] || 0) + 1], for an event whose name is not
    one an object inherits from [Object.prototype] ([constructor],
    [toString], [__proto__] and the like, [Notions.inherited_names]): there
    [acc[event]] reads as [undefined] until the event has been counted.
    The statements about the histogram are made for such names. *)
Definition count_event (acc : list (string * Z)) (log : LogSummary)
  : list (string * Z) :=
  let seen := match get_prop (ls_event log) acc with
              | Some n => if n =? 0 then 0 else n
              | None => 0
              end in
  set_prop (ls_event log) (seen + 1) acc.

Definition eventSummary (logSummary : list LogSummary) : list (string * Z) :=
  fold_left count_event logSummary [].

(** [content?.user_email || content?.user_id || 'Unknown'] *)
Definition user_of (log : LogSummary) : Json :=
  let content := Some (ls_content log) in
  match or_else (or_else (prop "user_email" content) (prop "user_id" content))
          (Some (JStr "Unknown")) with
  | Some v => v
  | None => JStr "Unknown"
  end.

Definition set_add (s : list Json) (x : Json) : list Json :=
  if existsb (same_value_zero x) s then s else (s ++ [x])%list.

(** [new Set(values)], as the list of its members in insertion order. *)
Definition new_Set (values : list Json) : list Json := fold_left set_add values [].

Definition uniqueUsers (logSummary : list LogSummary) : nat :=
  length (new_Set (map user_of logSummary)).

(** The place of an entry in a list already sorted by decreasing count;
    among equal counts the entry met first stays first. *)
Fixpoint insert_by_count (x : string * Z) (l : list (string * Z))
  : list (string * Z) :=
  match l with
  | [] => [x]
  | y :: r => if snd x <? snd y then y :: insert_by_count x r else x :: l
  end.

(** [entries.sort(([, a], [, b]) => b - a)] *)
Definition sort_by_count (entries : list (string * Z)) : list (string * Z) :=
  fold_right insert_by_count [] entries.

Definition topEvents (summary : list (string * Z)) : string :=
  JsString.join ", "
    (map (fun entry => fst entry ++ ": " ++ JsString.of_Z (snd entry))
       (slice0 5 (sort_by_count summary))).

Definition nl : string := newline.

(** The prompt, with the report date, the number of events, the number of
    users and the top events in their places. *)
Definition executive_prompt (currentDate : string) (events uniqueUsers : nat)
    (topEvents : string) : string :=
  "Create a comprehensive executive security summary for Snyk audit events from the last 24 hours." ++ nl
  ++ nl
  ++ "IMPORTANT: Today's date is " ++ currentDate ++ ". Use this as the report date and reference timeframe." ++ nl
  ++ nl
  ++ "Event Data: " ++ JsString.of_nat events ++ " events, "
  ++ JsString.of_nat uniqueUsers ++ " users" ++ nl
  ++ "Top Events: " ++ topEvents ++ nl
  ++ nl
  ++ "Generate a detailed executive report with these sections:" ++ nl
  ++ nl
  ++ "## Executive Security Summary" ++ nl
  ++ nl
  ++ "### 🔍 Activity Overview" ++ nl
  ++ "Provide a thorough assessment of security activity and operational posture over the last 24 hours. Include the current date (" ++ currentDate ++ ") in your analysis." ++ nl
  ++ nl
  ++ "### 🚨 Critical Events" ++ nl
  ++ "Analyze the top security events by frequency and potential impact, including specific details about each event type." ++ nl
  ++ nl
  ++ "### ⚠️ Risk Analysis" ++ nl
  ++ "Evaluate security concerns, threat patterns, and vulnerability implications from the logged activities." ++ nl
  ++ nl
  ++ "### 👥 User Activity Insights" ++ nl
  ++ "Examine user behavior patterns, access trends, and any anomalies in user actions." ++ nl
  ++ nl
  ++ "### 📋 Recommendations" ++ nl
  ++ "Provide detailed, prioritized actionable steps for leadership with High/Medium/Low priority levels and business impact analysis." ++ nl
  ++ nl
  ++ "### 📊 Key Metrics & Trends" ++ nl
  ++ "Present comprehensive statistics including event frequencies, user engagement, and security posture indicators." ++ nl
  ++ nl
  ++ "Create a professional, detailed executive-level analysis with complete sections. Use proper Markdown formatting with headers, bullet points, bold text, and comprehensive insights.".

Definition NO_RECENT_LOGS : string :=
  "No recent audit logs found in the last 24 hours. Please check if your Snyk organization has recent activity.".

(** The clock is read twice: [now] is what [Date.now()] gives for the
    filter, [today] what [new Date()] gives for the report date. *)
Definition generateExecutiveSummary (now today : Z) (auditLogs : list AuditLog)
    (llmConfig : option LLMConfig) : IO string :=
  try_catch
    (let recentLogs := List.filter (is_recent now) auditLogs in
     let logSummary := map summarize (slice0 200 recentLogs) in
     if (length recentLogs =? 0)%nat then Ret NO_RECENT_LOGS
     else
       let eventSummary := eventSummary logSummary in
       let uniqueUsers := uniqueUsers logSummary in
       let topEvents := topEvents eventSummary in
       let currentDate := JsDate.toLocaleDateString today in
       let prompt :=
         executive_prompt currentDate (length logSummary) uniqueUsers topEvents in
       let provider := getProvider llmConfig in
       text ← generateText provider [mkMessage user prompt]
                (Some (mkGenerateOptions (Some 4096) (Some (1 # 10)%Q)
                         (Some (9 # 10)%Q) (Some 40)));
       Ret text)
    (fun error => Ret ("Summary generation error: " ++ Async.message error)).

Definition insights_prompt (logSummary : list LogSummary) : string :=
  nl
  ++ "Analyze these Snyk audit logs and provide security insights:" ++ nl
  ++ nl
  ++ stringify (JArr (map summary_json logSummary)) ++ nl
  ++ nl
  ++ "Please provide:" ++ nl
  ++ "1. Key security events summary" ++ nl
  ++ "2. Risk patterns or anomalies" ++ nl
  ++ "3. Recommendations for improvement" ++ nl
  ++ "4. Overall security posture assessment" ++ nl
  ++ nl
  ++ "Format as a JSON array of string insights." ++ nl.

(** The inner [try]: the parsed value when it is an array, the text itself
    in a one-element array otherwise, also when [JSON.parse] throws. *)
Definition insights_of (result : string) : list Json :=
  match parse result with
  | Some (JArr insights) => insights
  | Some _ => [JStr result]
  | None => [JStr result]
  end.

Definition analyzeAuditLogs (auditLogs : list AuditLog)
    (llmConfig : option LLMConfig) : IO (list Json) :=
  try_catch
    (let logSummary := map summarize (slice0 100 auditLogs) in
     let prompt := insights_prompt logSummary in
     let provider := getProvider llmConfig in
     result ← generateText provider [mkMessage user prompt] None;
     Ret (insights_of result))
    (fun error => Ret [JStr ("Analysis error: " ++ Async.message error)]).

(** A value interpolated into a template string. *)
Definition interpolate (v : option Json) : string :=
  match v with
  | Some x => toString x
  | None => "undefined"
  end.

(** [previousMessages.map((msg) => `${msg.role}: ${msg.content}`)]; reading
    a property off [null] throws. *)
Fixpoint transcript (previousMessages : list Json) : JsError + list string :=
  match previousMessages with
  | [] => inr []
  | JNull :: _ =>
      inl (mkError "TypeError" "Cannot read properties of null (reading 'role')")
  | msg :: r =>
      match transcript r with
      | inl e => inl e
      | inr lines =>
          inr ((interpolate (prop "role" (Some msg)) ++ ": "
                ++ interpolate (prop "content" (Some msg))) :: lines)
      end
  end.

Definition chat_prompt (message : string) (context : list LogSummary)
    (lines : list string) : string :=
  "You are a security analyst assistant for Snyk audit logs. " ++ nl
  ++ "You have access to recent audit log data and can help users understand security events, " ++ nl
  ++ "identify patterns, and provide recommendations." ++ nl
  ++ nl
  ++ "Recent audit logs context:" ++ nl
  ++ stringify (JArr (map summary_json context)) ++ nl
  ++ nl
  ++ "Previous conversation:" ++ nl
  ++ JsString.join nl lines ++ nl
  ++ nl
  ++ "Current user message: " ++ message ++ nl
  ++ nl
  ++ "IMPORTANT: Respond in PLAIN TEXT format only. Do not use Markdown formatting like **bold**, *italics*, # headers, - bullet points, ## headings, or any other Markdown syntax. Use simple text with line breaks for readability." ++ nl
  ++ nl
  ++ "Please provide helpful, security-focused responses based on the audit log data using plain text formatting only.".

Definition CHAT_FALLBACK : string :=
  "I apologize, but I couldn't process your request at this time.".

Definition chatWithAI (message : string) (auditLogs : list AuditLog)
    (previousMessages : list Json) (llmConfig : option LLMConfig) : IO string :=
  try_catch
    (let context := map summarize (slice0 50 auditLogs) in
     match transcript previousMessages with
     | inl e => Throw e
     | inr lines =>
         let systemContent := chat_prompt message context lines in
         let provider := getProvider llmConfig in
         result ← generateText provider [mkMessage user systemContent] None;
         Ret (JsString.or_else result CHAT_FALLBACK)
     end)
    (fun error =>
       Ret ("I encountered an error: " ++ Async.message error ++ ". Please try again.")).

End LlmService.

(** ** The endpoints ([server/routes.ts]) *)

Module Routes.
Import JSON Async Schema.

(** A request as a handler reads it. [req_entropy k] is what [randomBytes]
    gives the [k]-th call on the session store made while serving it. *)
Record HttpRequest := mkHttpRequest {
  req_cookie : option string;
  req_body : Json;
  req_query : list (string * Json);
  req_entropy : nat -> list Byte.byte
}.

Record Response := mkResponse {
  status : Z;
  body : Json
}.

(** The shared store, and the cookies written to the response so far. *)
Record ServerState := mkServerState {
  st_sessions : gmap string Store.CookieSession;
  st_cookies : list Store.CookieOp
}.

(** The body of a handler: it runs from a server state, may await external
    calls, and completes or throws; what it did to the state before a
    throw stays done. *)
Record H (A : Type) : Type := mkH {
  runH : ServerState -> IO (Settled A * ServerState)
}.
Arguments mkH {A} _.
Arguments runH {A} _ _.

#[global] Instance h_ret : MRet H := fun A a => mkH (fun s => Ret (Fulfilled a, s)).

#[global] Instance h_bind : MBind H := fun A B f m =>
  mkH (fun s =>
    bind (runH m s) (fun rs =>
      match fst rs with
      | Fulfilled a => runH (f a) (snd rs)
      | Rejected e => Ret (Rejected e, snd rs)
      end)).

Definition throw {A} (e : JsError) : H A := mkH (fun s => Ret (Rejected e, s)).

(** An asynchronous computation that does not touch the store. *)
Definition lift {A} (m : IO A) : H A :=
  mkH (fun s =>
    try_catch (bind m (fun a => Ret (Fulfilled a, s)))
      (fun e => Ret (Rejected e, s))).

(** A synchronous call on the session store. *)
Definition store_call {A}
    (f : gmap string Store.CookieSession -> Store.Outcome A) : H A :=
  mkH (fun s =>
    let o := f (st_sessions s) in
    Ret (Fulfilled (Store.result o),
         mkServerState (Store.sessions o) (st_cookies s ++ Store.cookies o)%list)).

(** [res.json(value)] with the status set before, 200 by default. *)
Definition json (status : Z) (value : Json) : H Response :=
  mret (mkResponse status value).

(** An object literal: later keys overwrite earlier ones in place. *)
Definition object_literal (props : list (string * option Json))
  : list (string * option Json) :=
  fold_left (fun o kv => set_prop (fst kv) (snd kv) o) props [].

(** What [res.json] sends of an object: properties holding [undefined] are
    left out. *)
Definition sent (o : list (string * option Json)) : Json :=
  JObj (omap (fun kv => match snd kv with
                        | Some v => Some (fst kv, v)
                        | None => None
                        end) o).

Definition error_body (message : string) : Json :=
  sent (object_literal [("error", Some (JStr message))]).

(** [try { ... } catch (error) { res.status(500).json({ error: error.message }) }] *)
Definition handle (h : H Response) (s : ServerState) : IO (Response * ServerState) :=
  bind (runH h s) (fun rs =>
    match fst rs with
    | Fulfilled r => Ret (r, snd rs)
    | Rejected e => Ret (mkResponse 500 (error_body (Async.message e)), snd rs)
    end).

Definition session_request (req : HttpRequest) (k : nat) : Store.Request :=
  Store.mkRequest (req_cookie req) (req_entropy req k).

(** The clock as a handler reads it: [clock k] is what the [k]-th reading
    made while serving the request gives, a call on the session store and
    the taking of a time stamp being one reading each. A handler that reads
    the clock once takes the value read. *)
Definition Clock := nat -> Z.

(** What [express.json()] hands a handler as [req.body]: an object or an
    array, the empty object for a request without a JSON body; a JSON text
    of another kind is refused by the parser, with status 400, before any
    handler runs. *)
Definition body_parsed (v : Json) : bool :=
  match v with
  | JObj _ | JArr _ => true
  | _ => false
  end.

(** [!v] *)
Definition falsy (v : option Json) : bool :=
  match v with
  | Some x => negb (truthy x)
  | None => true
  end.

Definition number_or_null (n : option Z) : Json :=
  match n with
  | Some z => JNum z 0
  | None => JNull
  end.

(** The stored upstream configuration as the object it is. *)
Definition snyk_object (c : Store.SnykConfig) : list (string * option Json) :=
  [("snykApiToken", Some (Store.snykApiToken c));
   ("groupId", Store.groupId c);
   ("orgId", Store.orgId c);
   ("apiVersion", Store.apiVersion c)].

(** [const { k, ...rest } = o] *)
Definition rest_without {V} (k : string) (o : list (string * V)) : list (string * V) :=
  List.filter (fun kv => negb (String.eqb k (fst kv))) o.

Definition DEFAULT_API_VERSION : string := "2024-10-15".

(** *** Upstream configuration *)

Definition get_config (clock : Clock) (req : HttpRequest) : H Response :=
  result ← store_call (fun st =>
    Store.getApiConfiguration st (clock 0%nat) (session_request req 0));
  match result with
  | None => json 200 JNull
  | Some (config, sessionId) =>
      let safeConfig := rest_without "snykApiToken" (snyk_object config) in
      timeRemaining ← store_call (fun st =>
        Store.getTimeUntilExpiration st (clock 1%nat) (session_request req 1));
      json 200 (sent (object_literal
        (safeConfig ++ [("snykApiToken", Some (JStr "***"));
                        ("expiresInMinutes", Some (number_or_null timeRemaining));
                        ("sessionId", Some (JStr sessionId))])%list))
  end.

Definition post_config (clock : Clock) (req : HttpRequest) : H Response :=
  let snykApiToken := prop "snykApiToken" (Some (req_body req)) in
  let groupId := prop "groupId" (Some (req_body req)) in
  let orgId := prop "orgId" (Some (req_body req)) in
  match snykApiToken with
  | None => json 400 (error_body "Snyk API token is required")
  | Some token =>
      if negb (truthy token)
      then json 400 (error_body "Snyk API token is required")
      else
        let apiVersion := prop "apiVersion" (Some (req_body req)) in
        result ← lift (await (TestConnection token apiVersion));
        if negb (success result)
        then json 400 (error_body (test_message result))
        else
          let version := or_else apiVersion (Some (JStr DEFAULT_API_VERSION)) in
          let config := Store.mkSnykConfig token groupId orgId version in
          sessionId ← store_call (fun st =>
            Store.setApiConfiguration st (clock 0%nat) (session_request req 0) config 30);
          timeRemaining ← store_call (fun st =>
            Store.getTimeUntilExpiration st (clock 1%nat) (session_request req 1));
          json 200 (sent (object_literal
            [("groupId", groupId);
             ("orgId", orgId);
             ("apiVersion", version);
             ("snykApiToken", Some (JStr "***"));
             ("expiresInMinutes", Some (number_or_null timeRemaining));
             ("sessionId", Some (JStr sessionId))]))
  end.

Definition post_config_clear (now : Z) (req : HttpRequest) : H Response :=
  _ ← store_call (fun st =>
    Store.clearConfiguration st now (session_request req 0));
  json 200 (sent (object_literal
    [("message", Some (JStr "Configuration cleared successfully"))])).

(** *** LLM configuration *)

Definition get_llm_config (now : Z) (req : HttpRequest) : H Response :=
  result ← store_call (fun st =>
    Store.getLlmConfiguration st now (session_request req 0));
  match result with
  | None => json 200 JNull
  | Some (config, _) =>
      json 200 (sent (object_literal
        [("provider", Some (JStr (Store.provider config)));
         ("model", Some (JStr (Store.model config)));
         ("configured", Some (JBool true))]))
  end.

(** [!v || typeof v !== 'string'] fails: a string, and not the empty one. *)
Definition required_string (v : option Json) : option string :=
  match v with
  | Some (JStr s) => if JsString.truthy s then Some s else None
  | _ => None
  end.

(** [baseUrl && typeof baseUrl === 'string' ? baseUrl.trim() || undefined : undefined] *)
Definition optional_url (v : option Json) : option string :=
  match v with
  | Some (JStr s) =>
      if JsString.truthy s && JsString.truthy (JsString.trim s)
      then Some (JsString.trim s) else None
  | _ => None
  end.

Definition post_llm_config (now : Z) (req : HttpRequest) : H Response :=
  let provider := prop "provider" (Some (req_body req)) in
  let model := prop "model" (Some (req_body req)) in
  let apiKey := prop "apiKey" (Some (req_body req)) in
  let baseUrl := prop "baseUrl" (Some (req_body req)) in
  match required_string provider, required_string model, required_string apiKey with
  | Some provider, Some model, Some apiKey =>
      _ ← store_call (fun st =>
        Store.setLlmConfiguration st now (session_request req 0)
          (Store.mkLlmConfig (JsString.trim provider) (JsString.trim model)
             (JsString.trim apiKey) (optional_url baseUrl)) 30);
      json 200 (sent (object_literal
        [("provider", Some (JStr (JsString.trim provider)));
         ("model", Some (JStr (JsString.trim model)));
         ("configured", Some (JBool true))]))
  | _, _, _ => json 400 (error_body "provider, model, and apiKey are required")
  end.

Definition post_llm_config_clear (now : Z) (req : HttpRequest) : H Response :=
  _ ← store_call (fun st =>
    Store.clearLlmConfiguration st now (session_request req 0));
  json 200 (sent (object_literal
    [("message", Some (JStr "LLM configuration cleared successfully"))])).

(** [llmResult?.config ?? null] *)
Definition llm_config_of (llmResult : option (Store.LlmConfig * string))
  : option Store.LlmConfig :=
  match llmResult with
  | Some (config, _) => Some config
  | None => None
  end.

(** *** Chat and insights *)

(** [schema.parse(input)]: the value, or a thrown [ZodError]. *)
Definition zod_parse {A} (r : list Json + A) : H A :=
  match r with
  | inr v => mret v
  | inl issues => throw (mkError "ZodError" (stringify (JArr issues)))
  end.

Definition chat_message_json (role content timestamp : string) : Json :=
  JObj [("role", JStr role); ("content", JStr content); ("timestamp", JStr timestamp)].

(** The clock is read three times: for the time stamp of the user message,
    by the session store, and, once the reply is there, for the time stamp
    of the assistant message. *)
Definition post_chat (clock : Clock) (req : HttpRequest) : H Response :=
  parsed ← zod_parse (chatMessageSchema (req_body req));
  auditLogs ← lift (await GetAllAuditLogs);
  found ← match sessionId parsed with
          | Some id => if JsString.truthy id then lift (await (GetChatSession id))
                       else mret None
          | None => mret None
          end;
  session ← match found with
            | Some s => mret s
            | None => lift (await (CreateChatSession "default" (JArr [])))
            end;
  let userMessage :=
    chat_message_json "user" (Schema.message parsed)
      (JsDate.toISOString (clock 0%nat)) in
  let currentMessages :=
    match messages session with JArr l => l | _ => [] end in
  llmResult ← store_call (fun st =>
    Store.getLlmConfiguration st (clock 1%nat) (session_request req 0));
  let llmConfig := llm_config_of llmResult in
  aiResponse ← lift (LlmService.chatWithAI (Schema.message parsed) auditLogs
                       currentMessages llmConfig);
  let assistantMessage :=
    chat_message_json "assistant" aiResponse (JsDate.toISOString (clock 2%nat)) in
  let updatedMessages := (currentMessages ++ [userMessage; assistantMessage])%list in
  _ ← lift (await_settled (UpdateChatSession (chat_id session) (JArr updatedMessages)));
  json 200 (sent (object_literal
    [("sessionId", Some (JStr (chat_id session)));
     ("response", Some (JStr aiResponse));
     ("messages", Some (JArr updatedMessages))])).

Definition get_insights (now : Z) (req : HttpRequest) : H Response :=
  auditLogs ← lift (await GetAllAuditLogs);
  if (length auditLogs =? 0)%nat
  then json 200 (sent (object_literal [("insights", Some (JArr []))]))
  else
    llmResult ← store_call (fun st =>
      Store.getLlmConfiguration st now (session_request req 0));
    let llmConfig := llm_config_of llmResult in
    insights ← lift (LlmService.analyzeAuditLogs auditLogs llmConfig);
    json 200 (sent (object_literal [("insights", Some (JArr insights))])).

(** *** Audit logs *)

Fixpoint take_radix_digits (radix : Z) (s : string) (acc n : Z) : Z * Z :=
  match s with
  | String c r =>
      match hex_value c with
      | Some d => if d <? radix then take_radix_digits radix r (acc * radix + d) (n + 1)
                  else (acc, n)
      | None => (acc, n)
      end
  | EmptyString => (acc, n)
  end.

(** [parseInt(s)]; [None] is [NaN]. *)
Definition parseInt (s : string) : option Z :=
  let s1 := JsString.trimStart s in
  let '(sign, s2) :=
    match s1 with
    | String c r => if code c =? 45 then (-1, r)
                    else if code c =? 43 then (1, r) else (1, s1)
    | EmptyString => (1, s1)
    end in
  let '(radix, s3) :=
    match s2 with
    | String z (String x r) =>
        if (code z =? 48) && ((code x =? 120) || (code x =? 88)) then (16, r)
        else (10, s2)
    | _ => (10, s2)
    end in
  let '(v, n) := take_radix_digits radix s3 0 0 in
  if n =? 0 then None else Some (sign * v).

(** [Array.isArray(v) ? v : (v ? [v] : [])] *)
Definition as_array (v : option Json) : Json :=
  match v with
  | Some (JArr l) => JArr l
  | Some x => if truthy x then JArr [x] else JArr []
  | None => JArr []
  end.

Definition queryParams (req : HttpRequest) : QueryParams :=
  let q := req_query req in
  mkQueryParams (get_prop "from" q) (get_prop "to" q)
    (as_array (get_prop "events" q)) (as_array (get_prop "excludeEvents" q))
    (match get_prop "size" q with
     | Some v => if truthy v then parseInt (toString v) else Some 50
     | None => Some 50
     end)
    (get_prop "cursor" q) (get_prop "search" q).

Definition optional_json (s : option string) : Json :=
  match s with
  | Some x => JStr x
  | None => JNull
  end.

Definition item_json (item : SnykItem) : Json :=
  JObj [("id", JStr (item_id item));
        ("event", JStr (item_event item));
        ("created", JStr (item_created item));
        ("content", item_content item);
        ("orgId", optional_json (item_orgId item));
        ("groupId", optional_json (item_groupId item));
        ("projectId", optional_json (item_projectId item))].

(** [x || null] on an optional string. *)
Definition or_null (s : option string) : option string :=
  match s with
  | Some x => if JsString.truthy x then Some x else None
  | None => None
  end.

Section AuditLogs.

(** The time value [new Date(text)] denotes, [None] for an invalid date;
    how free-form text is read is left to the engine. *)
Variable Date_parse : string -> option Z.

(** [filters.field ? formatDate(filters.field) : undefined], where
    [formatDate] throws a [RangeError] on an invalid date. *)
Definition formatDate (field : option string) : H (option string) :=
  match field with
  | Some dateStr =>
      if JsString.truthy dateStr then
        match Date_parse dateStr with
        | Some t => mret (Some (JsDate.toISOString t))
        | None => throw (mkError "RangeError" "Invalid time value")
        end
      else mret None
  | None => mret None
  end.

(** The loop that keeps the fetched items for later; a failure to store
    one is logged and skipped. *)
Fixpoint store_items (l : list SnykItem) : IO unit :=
  match l with
  | [] => Ret tt
  | item :: r =>
      Vis (CreateAuditLog
             (mkInsertAuditLog (item_event item) (Date_parse (item_created item))
                (or_null (item_orgId item)) (or_null (item_groupId item))
                (or_null (item_projectId item)) (item_content item)))
          (fun _ => store_items r)
  end.

Definition get_audit_logs (now : Z) (req : HttpRequest) : H Response :=
  filters ← zod_parse (auditLogFilterSchema (queryParams req));
  result ← store_call (fun st =>
    Store.getApiConfiguration st now (session_request req 0));
  match result with
  | None => json 400 (error_body "Snyk API not configured or session expired")
  | Some (config, _) =>
      if negb (truthy (Store.snykApiToken config))
      then json 400 (error_body "Snyk API not configured or session expired")
      else
        let apiToken := Store.snykApiToken config in
        let apiVersion :=
          match or_else (Store.apiVersion config) (Some (JStr DEFAULT_API_VERSION)) with
          | Some v => v
          | None => JStr DEFAULT_API_VERSION
          end in
        from' ← formatDate (from filters);
        to' ← formatDate (to filters);
        let snykFilters :=
          mkSnykFilters from' to' (events filters) (excludeEvents filters)
            (size filters) (cursor filters) (search filters) in
        fetched ←
          match Store.orgId config, Store.groupId config with
          | Some org, g =>
              if truthy org
              then page ← lift (await_settled
                     (GetOrganizationAuditLogs apiToken apiVersion org snykFilters));
                   mret (Some page)
              else
                match g with
                | Some grp =>
                    if truthy grp
                    then page ← lift (await_settled
                           (GetGroupAuditLogs apiToken apiVersion grp snykFilters));
                         mret (Some page)
                    else mret None
                | None => mret None
                end
          | None, Some grp =>
              if truthy grp
              then page ← lift (await_settled
                     (GetGroupAuditLogs apiToken apiVersion grp snykFilters));
                   mret (Some page)
              else mret None
          | None, None => mret None
          end;
        match fetched with
        | None => json 400 (error_body "No organization or group ID configured")
        | Some snykResponse =>
            _ ← lift (store_items (items snykResponse));
            json 200 (sent (object_literal
              [("items", Some (JArr (map item_json (items snykResponse))));
               ("nextCursor", option_map JStr (nextCursor snykResponse));
               ("total", Some (JNum (total snykResponse) 0))]))
        end
  end.

End AuditLogs.

End Routes.

(** ** Notions of the specification

    The router below is written from the words of the specification, to be
    compared with [Llm.getProvider]. *)

Module Spec.
Import Llm.

Inductive Family := Gemini | OpenAI | Anthropic.

(** The names each backend family answers to. *)
Definition aliases (f : Family) : list string :=
  match f with
  | Gemini => ["gemini"; "google"; "google gemini"]
  | OpenAI => ["openai"; "custom"]
  | Anthropic => ["anthropic"; "claude"]
  end.

Definition named (name : string) (f : Family) : bool :=
  existsb (String.eqb name) (aliases f).

Definition family_of (name : string) : option Family :=
  if named name Gemini then Some Gemini
  else if named name OpenAI then Some OpenAI
  else if named name Anthropic then Some Anthropic
  else None.

Definition adapter (f : Family) (config : LLMConfig) : LLMProvider :=
  match f with
  | Gemini => createGeminiProvider config
  | OpenAI => createOpenAIProvider config
  | Anthropic => createAnthropicProvider config
  end.

(** No configuration, or a blank provider, model or key: the no-op adapter.
    Otherwise the provider name is put in lower case and looked up among
    the aliases; a name no family answers to gives the no-op adapter too. *)
Definition router (config : option LLMConfig) : LLMProvider :=
  match config with
  | None => createNoOpProvider
  | Some c =>
      if JsString.blank (Store.provider c) || JsString.blank (Store.model c)
         || JsString.blank (Store.apiKey c)
      then createNoOpProvider
      else
        match family_of (JsString.toLowerCase (Store.provider c)) with
        | Some f => adapter f c
        | None => createNoOpProvider
        end
  end.

Definition DAY : Z := 24 * 60 * 60 * 1000.

(** A record created within the last 24 hours: no earlier than 24 hours
    before now, and no later than now. *)
Definition within_last_24_hours (now : Z) (log : Schema.AuditLog) : Prop :=
  exists t, Schema.created log = Some t /\ now - DAY <= t <= now.

(** A record created no earlier than 24 hours before now: within the last
    24 hours, or dated after now. *)
Definition not_older_than_24_hours (now : Z) (log : Schema.AuditLog) : Prop :=
  exists t, Schema.created log = Some t /\ now - DAY <= t.

(** A required field of the LLM configuration body that is absent, not a
    string, or the empty string. *)
Definition unusable (v : option JSON.Json) : Prop :=
  v = None
  \/ (exists x, v = Some x /\ forall s, x <> JSON.JStr s)
  \/ v = Some (JSON.JStr EmptyString).

(** The issue reported for a page size [n] outside 1..100. *)
Definition size_issue (n : Z) : JSON.Json :=
  if n <? 1 then Schema.too_small_number 1 [JSON.JStr "size"]
  else Schema.too_big_number 100 [JSON.JStr "size"].

End Spec.

(** ** States that differ only in their secrets *)

Module Secrecy.
Import Store.

(** A sub-record with its secret blanked: the upstream API token, the LLM
    API key. *)
Definition redact_snyk (c : SnykConfig) : SnykConfig :=
  mkSnykConfig JSON.JNull (groupId c) (orgId c) (apiVersion c).

Definition redact_llm (c : LlmConfig) : LlmConfig :=
  mkLlmConfig (provider c) (model c) EmptyString (baseUrl c).

Definition redact_stored {P} (f : P -> P) (c : Stored P) : Stored P :=
  mkStored (f (payload c)) (expiresAt c).

Definition redact (s : CookieSession) : CookieSession :=
  mkSession (session_id s)
    (option_map (redact_stored redact_snyk) (snykConfig s))
    (option_map (redact_stored redact_llm) (llmConfig s))
    (createdAt s) (lastAccessed s).

(** The answer of a read, its payload redacted. *)
Definition redact_found {P} (f : P -> P) (r : option (P * string)) : option (P * string) :=
  match r with
  | Some (c, sid) => Some (f c, sid)
  | None => None
  end.

(** Two stores that hold the same sessions and records, up to the values of
    the secrets in them. *)
Definition same_but_secrets (st1 st2 : gmap string CookieSession) : Prop :=
  redact <$> st1 = redact <$> st2.

(** Two server states that differ only in the secrets they store. *)
Definition differ_in_secrets_only (s1 s2 : Routes.ServerState) : Prop :=
  same_but_secrets (Routes.st_sessions s1) (Routes.st_sessions s2)
  /\ Routes.st_cookies s1 = Routes.st_cookies s2.

(** What the client gets back from a handler, given the collaborators. *)
Definition reply (w : Async.World) (h : Routes.H Routes.Response)
    (s : Routes.ServerState) : Async.Settled Routes.Response :=
  match Async.run w (Routes.handle h s) with
  | Async.Fulfilled rs => Async.Fulfilled (fst rs)
  | Async.Rejected e => Async.Rejected e
  end.

End Secrecy.

(** ** What the configuration endpoints answer *)

Module Views.
Import JSON Routes.

(** What [GET /api/config] shows of a stored configuration. *)
Definition config_view (config : Store.SnykConfig) (timeRemaining : option Z)
    (sessionId : string) : Json :=
  sent (object_literal
    (rest_without "snykApiToken" (snyk_object config)
     ++ [("snykApiToken", Some (JStr "***"));
         ("expiresInMinutes", Some (number_or_null timeRemaining));
         ("sessionId", Some (JStr sessionId))])%list).

(** What [POST /api/config] answers once the configuration is stored. *)
Definition stored_view (groupId orgId version : option Json)
    (timeRemaining : option Z) (sessionId : string) : Json :=
  sent (object_literal
    [("groupId", groupId);
     ("orgId", orgId);
     ("apiVersion", version);
     ("snykApiToken", Some (JStr "***"));
     ("expiresInMinutes", Some (number_or_null timeRemaining));
     ("sessionId", Some (JStr sessionId))]).

(** What both LLM configuration endpoints show. *)
Definition llm_view (provider model : string) : Json :=
  sent (object_literal
    [("provider", Some (JStr provider));
     ("model", Some (JStr model));
     ("configured", Some (JBool true))]).

End Views.

(** ** Sample data *)

Module Sample.
Import JSON.

Definition no_cookie : Store.Request := Store.mkRequest None [].

Definition snyk : Store.SnykConfig :=
  Store.mkSnykConfig (JStr "snyk-token") None (Some (JStr "org-1"))
    (Some (JStr "2024-10-15")).

Definition llm : Store.LlmConfig :=
  Store.mkLlmConfig "openai" "gpt-4o-mini" "sk-test" None.

Definition minute : Z := 60 * 1000.

(** The body of a successful chat-completion response carrying [text]. *)
Definition openai_reply (text : string) : Json :=
  JObj [("choices",
         JArr [JObj [("message",
                      JObj [("role", JStr "assistant"); ("content", JStr text)])]])].

(** Collaborators for the examples: every LLM backend answers [text], the
    upstream API and the storage are empty. *)
Definition world (text : string) : Async.World :=
  fun X ev =>
    match ev in Async.Event T return T with
    | Async.GenerateContent _ =>
        Async.Fulfilled (Async.mkGeminiResponse (Some text) None)
    | Async.Fetch _ =>
        Async.Fulfilled
          (Async.mkFetchResponse true 200 (Async.Fulfilled (openai_reply text)))
    | Async.TestConnection _ _ => Async.mkConnectionTest true "Connection successful"
    | Async.GetOrganizationAuditLogs _ _ _ _ =>
        Async.Fulfilled (Async.mkSnykPage [] 0 None)
    | Async.GetGroupAuditLogs _ _ _ _ =>
        Async.Fulfilled (Async.mkSnykPage [] 0 None)
    | Async.CreateAuditLog l =>
        Async.Fulfilled
          (Schema.mkAuditLog "id" (Async.ins_event l) (Async.ins_created l)
             (Async.ins_orgId l) (Async.ins_groupId l) (Async.ins_projectId l)
             (Async.ins_content l))
    | Async.GetAllAuditLogs => []
    | Async.GetChatSession _ => None
    | Async.CreateChatSession _ m => Schema.mkChatSession "chat-1" (Some "default") m
    | Async.UpdateChatSession id m =>
        Async.Fulfilled (Schema.mkChatSession id (Some "default") m)
    end.

(** The same collaborators, the HTTP backends answering with [res]. *)
Definition answering (res : Async.FetchResponse) : Async.World :=
  fun X ev =>
    match ev in Async.Event T return T with
    | Async.Fetch _ => Async.Fulfilled res
    | other => world "unused" _ other
    end.

(** An audit-log record created at [t] by [who]. *)
Definition log (name : string) (t : Z) (who : string) : Schema.AuditLog :=
  Schema.mkAuditLog "log" name (Some t) None None None
    (JObj [("user_email", JStr who)]).

Definition day : Z := 24 * 60 * minute.

Definition bracket (inner : string) : string := "[" ++ inner ++ "]".

(** The text of a JSON array of two strings, [a] and [b]. *)
Definition two_strings : string :=
  bracket (String dquote (String "a" (String dquote
    (String "," (String dquote (String "b" (String dquote EmptyString))))))).

(** A request without a session cookie. *)
Definition request (body : Json) (query : list (string * Json)) : Routes.HttpRequest :=
  Routes.mkHttpRequest None body query (fun _ => []).

Definition empty_state : Routes.ServerState := Routes.mkServerState ∅ [].

(** A chat request whose message is the empty string. *)
Definition empty_chat : Routes.HttpRequest :=
  request (JObj [("message", JStr EmptyString)]) [].

(** All three fields present and strings, the provider the empty string. *)
Definition empty_provider : Routes.HttpRequest :=
  request (JObj [("provider", JStr EmptyString); ("model", JStr "gpt-4o-mini");
                 ("apiKey", JStr "sk-test")]) [].

(** NO-BREAK SPACE, U+00A0, in UTF-8. *)
Definition nbsp : string :=
  String (ascii_of_nat 194) (String (ascii_of_nat 160) EmptyString).

(** A JSON string literal: the text between double quotes. *)
Definition quoted (inner : string) : string :=
  String dquote (inner ++ String dquote EmptyString).

(** A provider made of two spaces. *)
Definition blank_provider : Routes.HttpRequest :=
  request (JObj [("provider", JStr "  "); ("model", JStr "gpt-4o-mini");
                 ("apiKey", JStr "sk-test")]) [].

End Sample.

(** ** Further notions used to state properties of the code *)

Module Notions.
Import Store.

(** An outcome with the periodic sweep applied to its store. *)
Definition swept {A} (now : Z) (o : Outcome A) : Outcome A :=
  mkOutcome (result o) (cleanupExpiredSessions (sessions o) now) (cookies o).

(** What the Anthropic adapter makes of one message that is not a system
    message. *)
Definition anthropic_turn (m : Llm.Message) : Async.ApiMessage :=
  Async.mkApiMessage
    (match Llm.role m with Llm.assistant => "assistant" | _ => "user" end)
    (Llm.content m).

Definition is_system (m : Llm.Message) : bool :=
  match Llm.role m with Llm.system => true | _ => false end.

(** The content of the last system message, if there is one. *)
Definition last_system (messages : list Llm.Message) : option string :=
  List.last (map (fun m => Some (Llm.content m)) (List.filter is_system messages)) None.

(** The names an empty object inherits from [Object.prototype]: reading one
    of them off the histogram object does not give [undefined]. The
    histogram is modelled for event names other than these. *)
Definition inherited_names : list string :=
  ["constructor"; "__defineGetter__"; "__defineSetter__"; "hasOwnProperty";
   "__lookupGetter__"; "__lookupSetter__"; "isPrototypeOf";
   "propertyIsEnumerable"; "toString"; "valueOf"; "__proto__"; "toLocaleString"].

Definition plain_event (l : LlmService.LogSummary) : Prop :=
  ~ In (LlmService.ls_event l) inherited_names.

(** How many of the records carry the event [e]. *)
Definition occurrences (e : string) (logs : list LlmService.LogSummary) : Z :=
  Z.of_nat (length (List.filter (fun l => String.eqb e (LlmService.ls_event l)) logs)).

Definition total (counts : list (string * Z)) : Z :=
  fold_right Z.add 0 (map snd counts).

(** The order [sort] leaves the histogram entries in: larger counts first. *)
Definition by_count (a b : string * Z) : Prop := snd b <= snd a.

(** The entries with the count [c], in the order they have in the list. *)
Definition with_count (c : Z) (entries : list (string * Z)) : list (string * Z) :=
  List.filter (fun entry => snd entry =? c) entries.

(** The user of a record is a string, as it is when [user_email] or
    [user_id] is one, and when both are missing. *)
Definition named_user (l : LlmService.LogSummary) : Prop :=
  exists name, LlmService.user_of l = JSON.JStr name.

(** The session cookie of a request names a session of the store that has
    not been idle beyond the timeout. *)
Definition live (st : gmap string CookieSession) (now : Z) (c : option string) : bool :=
  match c with
  | Some sid =>
      JsString.truthy sid
      && match st !! sid with
         | Some s => negb (now - lastAccessed s >? SESSION_TIMEOUT)
         | None => false
         end
  | None => false
  end.

End Notions.

(** ** The executive-summary endpoint ([server/routes.ts]) *)

Module RoutesMore.
Import JSON Async Schema Routes.

Definition NO_CONFIGURATION : string :=
  "No API configuration found or session expired. Please configure your Snyk API settings.".

Definition NO_TARGET : string :=
  "No organization or group ID configured for analysis.".

Definition NO_LOGS : string :=
  "No audit logs found in the last 24 hours for analysis.".

Section ExecutiveSummary.

(** The time value [new Date(text)] denotes, [None] for an invalid date. *)
Variable Date_parse : string -> option Z.

(** The identifier made up for the item at a given index when it comes
    without one, [temp-] followed by what the clock and [Math.random()] give
    at that moment. *)
Variable temp_id : nat -> string.

(** An upstream item in the shape the orchestrator takes. *)
Definition audit_log_of (index : nat) (item : SnykItem) : AuditLog :=
  mkAuditLog
    (JsString.or_else (item_id item) (temp_id index))
    (item_event item)
    (Date_parse (item_created item))
    (or_null (item_orgId item))
    (or_null (item_groupId item))
    (or_null (item_projectId item))
    (item_content item).

(** The clock is read six times: by the session store, for each of the
    two bounds of the query, by the session store again, and twice by the
    orchestration. *)
Definition get_executive_summary (clock : Clock) (req : HttpRequest) : H Response :=
  result ← store_call (fun st =>
    Store.getApiConfiguration st (clock 0%nat) (session_request req 0));
  match result with
  | None => json 200 (sent (object_literal [("summary", Some (JStr NO_CONFIGURATION))]))
  | Some (config, _) =>
      if negb (truthy (Store.snykApiToken config))
      then json 200 (sent (object_literal [("summary", Some (JStr NO_CONFIGURATION))]))
      else
        let apiToken := Store.snykApiToken config in
        let apiVersion :=
          match or_else (Store.apiVersion config) (Some (JStr DEFAULT_API_VERSION)) with
          | Some v => v
          | None => JStr DEFAULT_API_VERSION
          end in
        let oneDayAgo := clock 1%nat - 24 * 60 * 60 * 1000 in
        let snykFilters :=
          mkSnykFilters (Some (JsDate.toISOString oneDayAgo))
            (Some (JsDate.toISOString (clock 2%nat))) None None 500 None None in
        fetched ←
          match Store.orgId config, Store.groupId config with
          | Some org, g =>
              if truthy org
              then page ← lift (await_settled
                     (GetOrganizationAuditLogs apiToken apiVersion org snykFilters));
                   mret (Some page)
              else
                match g with
                | Some grp =>
                    if truthy grp
                    then page ← lift (await_settled
                           (GetGroupAuditLogs apiToken apiVersion grp snykFilters));
                         mret (Some page)
                    else mret None
                | None => mret None
                end
          | None, Some grp =>
              if truthy grp
              then page ← lift (await_settled
                     (GetGroupAuditLogs apiToken apiVersion grp snykFilters));
                   mret (Some page)
              else mret None
          | None, None => mret None
          end;
        match fetched with
        | None => json 200 (sent (object_literal [("summary", Some (JStr NO_TARGET))]))
        | Some snykResponse =>
            if (length (items snykResponse) =? 0)%nat
            then json 200 (sent (object_literal [("summary", Some (JStr NO_LOGS))]))
            else
              let auditLogs := imap audit_log_of (items snykResponse) in
              llmResult ← store_call (fun st =>
                Store.getLlmConfiguration st (clock 3%nat) (session_request req 1));
              let llmConfig := llm_config_of llmResult in
              summary ← lift (LlmService.generateExecutiveSummary (clock 4%nat)
                                (clock 5%nat) auditLogs llmConfig);
              json 200 (sent (object_literal [("summary", Some (JStr summary))]))
        end
  end.

End ExecutiveSummary.

End RoutesMore.

(** ** The transient storage ([server/storage.ts]) *)

Module MemStorage.
Import JSON Async Schema.

(** [Map.prototype.set] on a map kept as its entries in insertion order: a
    key already there keeps its place. *)
Fixpoint map_set {V} (k : string) (v : V) (m : list (string * V)) : list (string * V) :=
  match m with
  | [] => [(k, v)]
  | (k0, v0) :: r =>
      if String.eqb k k0 then (k0, v) :: r else (k0, v0) :: map_set k v r
  end.

(** The audit logs are listed in insertion order; the chat sessions are
    only read and written by key. *)
Record Storage := mkStorage {
  auditLogs : list (string * AuditLog);
  chatSessions : gmap string ChatSession
}.

Definition empty : Storage := mkStorage [] ∅.

(** Each operation takes the identifier [randomUUID] hands out where the
    source draws one. *)
Definition createAuditLog (id : string) (insertAuditLog : InsertAuditLog)
    (st : Storage) : AuditLog * Storage :=
  let auditLog :=
    mkAuditLog id (ins_event insertAuditLog) (ins_created insertAuditLog)
      (Routes.or_null (ins_orgId insertAuditLog))
      (Routes.or_null (ins_groupId insertAuditLog))
      (Routes.or_null (ins_projectId insertAuditLog))
      (ins_content insertAuditLog) in
  (auditLog, mkStorage (map_set id auditLog (auditLogs st)) (chatSessions st)).

Definition getAllAuditLogs (st : Storage) : list AuditLog := map snd (auditLogs st).

Definition getChatSession (id : string) (st : Storage) : option ChatSession :=
  chatSessions st !! id.

Definition createChatSession (id : string) (userId : string) (messages : Json)
    (st : Storage) : ChatSession * Storage :=
  let session :=
    mkChatSession id (Routes.or_null (Some userId))
      (if truthy messages then messages else JArr []) in
  (session, mkStorage (auditLogs st) (<[id := session]> (chatSessions st))).

Definition updateChatSession (id : string) (messages : Json) (st : Storage)
  : Settled ChatSession * Storage :=
  match chatSessions st !! id with
  | None => (Rejected (Error "Chat session not found"), st)
  | Some session =>
      let updatedSession :=
        mkChatSession (chat_id session) (Schema.userId session) messages in
      (Fulfilled updatedSession,
       mkStorage (auditLogs st) (<[id := updatedSession]> (chatSessions st)))
  end.

(** The storage together with the number of identifiers handed out. *)
Record Machine := mkMachine {
  storage : Storage;
  issued : nat
}.

Section Machine.

(** The identifiers [randomUUID] hands out, in order. *)
Variable uuid : nat -> string.

(** The collaborators outside the process: the LLM backends and the
    upstream service. *)
Variable w : World.

(** The answer to one external call, the storage calls being answered by
    the storage itself. *)
Definition answer {X} (ev : Event X) (m : Machine) : X * Machine :=
  match ev in Event T return T * Machine with
  | GenerateContent c => (w _ (GenerateContent c), m)
  | Fetch c => (w _ (Fetch c), m)
  | TestConnection apiToken apiVersion => (w _ (TestConnection apiToken apiVersion), m)
  | GetOrganizationAuditLogs apiToken apiVersion orgId filters =>
      (w _ (GetOrganizationAuditLogs apiToken apiVersion orgId filters), m)
  | GetGroupAuditLogs apiToken apiVersion groupId filters =>
      (w _ (GetGroupAuditLogs apiToken apiVersion groupId filters), m)
  | CreateAuditLog log =>
      let r := createAuditLog (uuid (issued m)) log (storage m) in
      (Fulfilled (fst r), mkMachine (snd r) (S (issued m)))
  | GetAllAuditLogs => (getAllAuditLogs (storage m), m)
  | GetChatSession id => (getChatSession id (storage m), m)
  | CreateChatSession userId messages =>
      let r := createChatSession (uuid (issued m)) userId messages (storage m) in
      (fst r, mkMachine (snd r) (S (issued m)))
  | UpdateChatSession id messages =>
      let r := updateChatSession id messages (storage m) in
      (fst r, mkMachine (snd r) (issued m))
  end.

(** An asynchronous computation run against the storage. *)
Fixpoint run_on {A} (m : IO A) (mach : Machine) : Settled A * Machine :=
  match m with
  | Ret a => (Fulfilled a, mach)
  | Throw e => (Rejected e, mach)
  | Vis ev k => run_on (k (fst (answer ev mach))) (snd (answer ev mach))
  end.

End Machine.

(** Every stored chat session sits under its own identifier. *)
Definition well_keyed (st : Storage) : Prop :=
  forall id c, chatSessions st !! id = Some c -> chat_id c = id.

(** A call on an LLM backend. *)
Definition is_backend {X} (ev : Event X) : bool :=
  match ev with
  | GenerateContent _ | Fetch _ => true
  | _ => false
  end.

(** A computation whose external calls all go to an LLM backend. *)
Fixpoint backend_only {A} (m : IO A) : Prop :=
  match m with
  | Ret _ | Throw _ => True
  | Vis ev k => is_backend ev = true /\ forall x, backend_only (k x)
  end.

(** The record the audit-log route stores for an upstream item, under the
    identifier [id]. *)
Definition stored_item (Date_parse : string -> option Z) (id : string)
    (item : SnykItem) : AuditLog :=
  mkAuditLog id (item_event item) (Date_parse (item_created item))
    (Routes.or_null (Routes.or_null (item_orgId item)))
    (Routes.or_null (Routes.or_null (item_groupId item)))
    (Routes.or_null (Routes.or_null (item_projectId item)))
    (item_content item).

End MemStorage.

(** ** Properties of the session store *)

Module StoreFacts.
Import Store.

Lemma append_truthy (a b : string) :
  JsString.truthy (a ++ String "-" b) = true.
Proof. destruct a; reflexivity. Qed.

Lemma generateSessionId_truthy now rnd :
  JsString.truthy (generateSessionId now rnd) = true.
Proof. unfold generateSessionId. apply append_truthy. Qed.

(** The identifier a call resolves is never empty and always names a
    session of the resulting store, touched at the time of the call. *)
Lemma getOrCreateSessionId_resolved st now req :
  let o := getOrCreateSessionId st now req in
  JsString.truthy (result o) = true /\
  exists s, sessions o !! result o = Some s /\ lastAccessed s = now /\
    (forall sid s0, cookie req = Some sid -> JsString.truthy sid = true ->
       st !! sid = Some s0 -> now - lastAccessed s0 <= SESSION_TIMEOUT ->
       result o = sid /\ snykConfig s = snykConfig s0 /\ llmConfig s = llmConfig s0).
Proof.
  unfold getOrCreateSessionId, createSession.
  destruct (cookie req) as [sid|] eqn:Hc; simpl.
  2:{ split; [apply generateSessionId_truthy|].
      eexists; split; [apply lookup_insert_eq|]. split; [reflexivity|]. discriminate. }
  destruct (JsString.truthy sid) eqn:Ht; simpl.
  2:{ split; [apply generateSessionId_truthy|].
      eexists; split; [apply lookup_insert_eq|]. split; [reflexivity|].
      intros ? ? [= <-] ?. congruence. }
  destruct (st !! sid) as [s0|] eqn:Hs; simpl.
  2:{ split; [apply generateSessionId_truthy|].
      eexists; split; [apply lookup_insert_eq|]. split; [reflexivity|].
      intros ? ? [= <-] ? ?. congruence. }
  destruct (now - lastAccessed s0 >? SESSION_TIMEOUT) eqn:Hidle; simpl.
  - split; [apply generateSessionId_truthy|].
    eexists; split; [apply lookup_insert_eq|]. split; [reflexivity|].
    intros ? ? [= <-] ? ? ?. assert (s1 = s0) by congruence. subst. lia.
  - split; [assumption|].
    eexists; split; [apply lookup_insert_eq|]. split; [reflexivity|].
    intros ? ? [= <-] ? H _. assert (s1 = s0) by congruence. subst. auto.
Qed.

(** A live session presented again is resolved to itself, and only its
    access time moves. *)
Lemma getOrCreateSessionId_live st now sid rnd s :
  JsString.truthy sid = true ->
  st !! sid = Some s ->
  now - lastAccessed s <= SESSION_TIMEOUT ->
  getOrCreateSessionId st now (follow_up sid rnd)
  = mkOutcome sid (<[sid := set_lastAccessed now s]> st) [].
Proof.
  intros Ht Hs Hidle. unfold getOrCreateSessionId, follow_up. simpl.
  rewrite Ht, Hs.
  destruct (now - lastAccessed s >? SESSION_TIMEOUT) eqn:E; [lia | reflexivity].
Qed.

(** A session idle beyond the timeout is purged and replaced by a fresh,
    empty one. *)
Lemma getOrCreateSessionId_idle st now sid rnd s :
  JsString.truthy sid = true ->
  st !! sid = Some s ->
  now - lastAccessed s > SESSION_TIMEOUT ->
  getOrCreateSessionId st now (follow_up sid rnd)
  = createSession (delete sid st) now (follow_up sid rnd).
Proof.
  intros Ht Hs Hidle. unfold getOrCreateSessionId, follow_up. simpl.
  rewrite Ht, Hs.
  destruct (now - lastAccessed s >? SESSION_TIMEOUT) eqn:E; [reflexivity | lia].
Qed.

Lemma setApiConfiguration_stored st now req cfg T :
  let o := setApiConfiguration st now req cfg T in
  JsString.truthy (result o) = true /\
  exists s, sessions o !! result o = Some s /\ lastAccessed s = now /\
    snykConfig s = Some (mkStored cfg (now + T * 60 * 1000)).
Proof.
  unfold setApiConfiguration, update_session.
  destruct (getOrCreateSessionId_resolved st now req) as (Ht & s & Hs & Hl & _).
  simpl. rewrite Hs. split; [assumption|].
  eexists; split; [apply lookup_insert_eq|]. simpl. auto.
Qed.

Lemma setLlmConfiguration_stored st now req cfg T :
  let o := setLlmConfiguration st now req cfg T in
  JsString.truthy (result o) = true /\
  exists s, sessions o !! result o = Some s /\ lastAccessed s = now /\
    llmConfig s = Some (mkStored cfg (now + T * 60 * 1000)).
Proof.
  unfold setLlmConfiguration, update_session.
  destruct (getOrCreateSessionId_resolved st now req) as (Ht & s & Hs & Hl & _).
  simpl. rewrite Hs. split; [assumption|].
  eexists; split; [apply lookup_insert_eq|]. simpl. auto.
Qed.

(** Reading the upstream record of a session that holds one. *)
Lemma getApiConfiguration_read st now sid rnd s c :
  JsString.truthy sid = true ->
  st !! sid = Some s ->
  snykConfig s = Some c ->
  result (getApiConfiguration st now (follow_up sid rnd))
  = if (now - lastAccessed s >? SESSION_TIMEOUT) || (now >? expiresAt c)
    then None else Some (payload c, sid).
Proof.
  intros Ht Hs Hc. unfold getApiConfiguration.
  destruct (now - lastAccessed s >? SESSION_TIMEOUT) eqn:E.
  - rewrite (getOrCreateSessionId_idle st now sid rnd s) by (auto; lia).
    unfold createSession. simpl. rewrite lookup_insert_eq. reflexivity.
  - rewrite (getOrCreateSessionId_live st now sid rnd s) by (auto; lia).
    simpl. rewrite lookup_insert_eq. simpl. rewrite Hc.
    destruct (now >? expiresAt c); reflexivity.
Qed.

Lemma getLlmConfiguration_read st now sid rnd s c :
  JsString.truthy sid = true ->
  st !! sid = Some s ->
  llmConfig s = Some c ->
  result (getLlmConfiguration st now (follow_up sid rnd))
  = if (now - lastAccessed s >? SESSION_TIMEOUT) || (now >? expiresAt c)
    then None else Some (payload c, sid).
Proof.
  intros Ht Hs Hc. unfold getLlmConfiguration.
  destruct (now - lastAccessed s >? SESSION_TIMEOUT) eqn:E.
  - rewrite (getOrCreateSessionId_idle st now sid rnd s) by (auto; lia).
    unfold createSession. simpl. rewrite lookup_insert_eq. reflexivity.
  - rewrite (getOrCreateSessionId_live st now sid rnd s) by (auto; lia).
    simpl. rewrite lookup_insert_eq. simpl. rewrite Hc.
    destruct (now >? expiresAt c); reflexivity.
Qed.

(** Read-after-write, in full: what a read at [now'] returns after a write
    at [now], nothing having touched the session in between. *)
Lemma get_after_setApiConfiguration st now req cfg T now' rnd :
  let o := setApiConfiguration st now req cfg T in
  result (getApiConfiguration (sessions o) now' (follow_up (result o) rnd))
  = if (now' - now >? SESSION_TIMEOUT) || (now' >? now + T * 60 * 1000)
    then None else Some (cfg, result o).
Proof.
  intros o.
  destruct (setApiConfiguration_stored st now req cfg T) as (Ht & s & Hs & Hl & Hc).
  fold o in Ht, Hs.
  rewrite (getApiConfiguration_read _ now' _ rnd s _ Ht Hs Hc), Hl. reflexivity.
Qed.

Lemma get_after_setLlmConfiguration st now req cfg T now' rnd :
  let o := setLlmConfiguration st now req cfg T in
  result (getLlmConfiguration (sessions o) now' (follow_up (result o) rnd))
  = if (now' - now >? SESSION_TIMEOUT) || (now' >? now + T * 60 * 1000)
    then None else Some (cfg, result o).
Proof.
  intros o.
  destruct (setLlmConfiguration_stored st now req cfg T) as (Ht & s & Hs & Hl & Hc).
  fold o in Ht, Hs.
  rewrite (getLlmConfiguration_read _ now' _ rnd s _ Ht Hs Hc), Hl. reflexivity.
Qed.

End StoreFacts.

(** ** The TTL boundary and the independence of the two records *)

Module StoreClaims.
Import Store StoreFacts.

(** C1 (as amended): after [setConfig] with a TTL of [T] minutes, for either
    kind of configuration, a [getConfig] of the same session made [elapsed]
    milliseconds later, nothing having touched the session in between,
    returns the stored payload (the expiry field stripped) when
    [elapsed <= T] minutes and the session has not idled out (at most 30
    minutes), and returns absent otherwise, in particular at every
    [elapsed > T] minutes. The boundary [elapsed = T] minutes still reads
    the payload: expiry is [now > expiresAt]. *)
Theorem ttl_boundary st now req (cfgS : SnykConfig) (cfgL : LlmConfig) T now' rnd :
  let elapsed := now' - now in
  let live := (elapsed <=? T * 60 * 1000) && (elapsed <=? SESSION_TIMEOUT) in
  let oS := setApiConfiguration st now req cfgS T in
  let oL := setLlmConfiguration st now req cfgL T in
  result (getApiConfiguration (sessions oS) now' (follow_up (result oS) rnd))
  = (if live then Some (cfgS, result oS) else None)
  /\ result (getLlmConfiguration (sessions oL) now' (follow_up (result oL) rnd))
     = (if live then Some (cfgL, result oL) else None).
Proof.
  intros elapsed live oS oL. subst oS oL.
  rewrite get_after_setApiConfiguration, get_after_setLlmConfiguration.
  subst live elapsed.
  destruct (now' - now >? SESSION_TIMEOUT) eqn:E1;
    destruct (now' >? now + T * 60 * 1000) eqn:E2;
    destruct (now' - now <=? T * 60 * 1000) eqn:E3;
    destruct (now' - now <=? SESSION_TIMEOUT) eqn:E4;
    simpl; try (split; reflexivity); lia.
Qed.

(** C1, the claim as the specification words it, fails on the boundary: a
    configuration stored with a TTL of 30 minutes is still returned exactly
    30 minutes later. *)
Lemma ttl_boundary_counterexample :
  let T := 30 in
  let o := setLlmConfiguration ∅ 0 Sample.no_cookie Sample.llm T in
  let elapsed := T * Sample.minute in
  result (getLlmConfiguration (sessions o) (0 + elapsed) (follow_up (result o) []))
  = Some (Sample.llm, result o)
  /\ result (getLlmConfiguration (sessions o) (0 + elapsed) (follow_up (result o) []))
     <> None.
Proof.
  cbv zeta. rewrite get_after_setLlmConfiguration.
  split; [reflexivity | discriminate].
Qed.

(** A TTL longer than the idle timeout does not keep a record readable: the
    session itself is purged after 30 idle minutes. *)
Lemma ttl_beyond_idle_timeout :
  let o := setApiConfiguration ∅ 0 Sample.no_cookie Sample.snyk 60 in
  result (getApiConfiguration (sessions o) (31 * Sample.minute) (follow_up (result o) []))
  = None.
Proof. cbv zeta. rewrite get_after_setApiConfiguration. reflexivity. Qed.

(** What each call leaves of a live session. *)
Lemma setLlmConfiguration_frame st now sid rnd s cfg T :
  JsString.truthy sid = true -> st !! sid = Some s ->
  now - lastAccessed s <= SESSION_TIMEOUT ->
  sessions (setLlmConfiguration st now (follow_up sid rnd) cfg T)
  = <[sid := set_llmConfig (Some (mkStored cfg (now + T * 60 * 1000)))
               (set_lastAccessed now s)]> st.
Proof.
  intros Ht Hs Hl. unfold setLlmConfiguration, update_session.
  rewrite (getOrCreateSessionId_live st now sid rnd s Ht Hs Hl). simpl.
  rewrite lookup_insert_eq, insert_insert_eq. reflexivity.
Qed.

Lemma setApiConfiguration_frame st now sid rnd s cfg T :
  JsString.truthy sid = true -> st !! sid = Some s ->
  now - lastAccessed s <= SESSION_TIMEOUT ->
  sessions (setApiConfiguration st now (follow_up sid rnd) cfg T)
  = <[sid := set_snykConfig (Some (mkStored cfg (now + T * 60 * 1000)))
               (set_lastAccessed now s)]> st.
Proof.
  intros Ht Hs Hl. unfold setApiConfiguration, update_session.
  rewrite (getOrCreateSessionId_live st now sid rnd s Ht Hs Hl). simpl.
  rewrite lookup_insert_eq, insert_insert_eq. reflexivity.
Qed.

Lemma clearLlmConfiguration_frame st now sid rnd s :
  JsString.truthy sid = true -> st !! sid = Some s ->
  now - lastAccessed s <= SESSION_TIMEOUT ->
  sessions (clearLlmConfiguration st now (follow_up sid rnd))
  = <[sid := set_llmConfig None (set_lastAccessed now s)]> st.
Proof.
  intros Ht Hs Hl. unfold clearLlmConfiguration, update_session.
  rewrite (getOrCreateSessionId_live st now sid rnd s Ht Hs Hl). simpl.
  rewrite lookup_insert_eq, insert_insert_eq. reflexivity.
Qed.

Lemma clearConfiguration_frame st now sid rnd s :
  JsString.truthy sid = true -> st !! sid = Some s ->
  now - lastAccessed s <= SESSION_TIMEOUT ->
  sessions (clearConfiguration st now (follow_up sid rnd)) = delete sid st.
Proof.
  intros Ht Hs Hl. unfold clearConfiguration, update_session.
  rewrite (getOrCreateSessionId_live st now sid rnd s Ht Hs Hl). simpl.
  rewrite lookup_insert_eq, insert_insert_eq, delete_insert_eq. reflexivity.
Qed.

(** C2 (as amended): on a live session, setting the LLM configuration leaves
    the upstream sub-record as it was (presence, payload and expiry), and
    setting the upstream configuration leaves the LLM sub-record as it was;
    clearing the LLM configuration removes that sub-record only, and an
    upstream record that has not expired is still returned afterwards.
    Clearing the upstream configuration is different by design: it removes
    the whole session, and the LLM sub-record goes with it. *)
Theorem kinds_independent st now sid rnd s cfgS cfgL T :
  JsString.truthy sid = true ->
  st !! sid = Some s ->
  now - lastAccessed s <= SESSION_TIMEOUT ->
  (exists s', sessions (setLlmConfiguration st now (follow_up sid rnd) cfgL T) !! sid
              = Some s' /\ snykConfig s' = snykConfig s)
  /\ (exists s', sessions (setApiConfiguration st now (follow_up sid rnd) cfgS T) !! sid
                 = Some s' /\ llmConfig s' = llmConfig s)
  /\ (exists s', sessions (clearLlmConfiguration st now (follow_up sid rnd)) !! sid
                 = Some s' /\ snykConfig s' = snykConfig s /\ llmConfig s' = None)
  /\ (forall c now' rnd', snykConfig s = Some c ->
        now' - now <= SESSION_TIMEOUT -> now' <= expiresAt c ->
        result (getApiConfiguration
                  (sessions (clearLlmConfiguration st now (follow_up sid rnd)))
                  now' (follow_up sid rnd'))
        = Some (payload c, sid))
  /\ sessions (clearConfiguration st now (follow_up sid rnd)) !! sid = None.
Proof.
  intros Ht Hs Hl.
  rewrite (setLlmConfiguration_frame _ _ _ _ _ _ _ Ht Hs Hl),
          (setApiConfiguration_frame _ _ _ _ _ _ _ Ht Hs Hl),
          (clearLlmConfiguration_frame _ _ _ _ _ Ht Hs Hl),
          (clearConfiguration_frame _ _ _ _ _ Ht Hs Hl).
  repeat split.
  - eexists; split; [apply lookup_insert_eq | reflexivity].
  - eexists; split; [apply lookup_insert_eq | reflexivity].
  - eexists; split; [apply lookup_insert_eq | split; reflexivity].
  - intros c now' rnd' Hc Hidle Hexp.
    erewrite getApiConfiguration_read;
      [ | exact Ht | apply lookup_insert_eq | exact Hc ].
    simpl.
    destruct (now' - now >? SESSION_TIMEOUT) eqn:E1; [lia|].
    destruct (now' >? expiresAt c) eqn:E2; [lia|]. reflexivity.
  - apply lookup_delete_eq.
Qed.

(** The theorem at a session that holds both records. *)
Lemma kinds_independent_witness :
  let s := mkSession "s1" (Some (mkStored Sample.snyk 1800000))
             (Some (mkStored Sample.llm 1800000)) 0 0 in
  let st : gmap string CookieSession := {[ "s1" := s ]} in
  (exists s', sessions (setLlmConfiguration st 1000 (follow_up "s1" []) Sample.llm 30)
                !! "s1" = Some s'
              /\ snykConfig s' = Some (mkStored Sample.snyk 1800000))
  /\ (exists s', sessions (clearLlmConfiguration st 1000 (follow_up "s1" [])) !! "s1"
                 = Some s'
                 /\ snykConfig s' = Some (mkStored Sample.snyk 1800000)
                 /\ llmConfig s' = None)
  /\ sessions (clearConfiguration st 1000 (follow_up "s1" [])) !! "s1" = None.
Proof.
  intros s st.
  destruct (kinds_independent st 1000 "s1" [] s Sample.snyk Sample.llm 30
              eq_refl (lookup_singleton_eq _ _)
              ltac:(vm_compute; discriminate))
    as (H1 & _ & H3 & _ & H5).
  exact (conj H1 (conj H3 H5)).
Defined.

(** C2, the claim as worded, fails for the upstream kind: clearing the
    upstream configuration of a session that holds a live LLM record loses
    that record too. *)
Lemma clear_upstream_counterexample :
  let o1 := setLlmConfiguration ∅ 0 Sample.no_cookie Sample.llm 30 in
  let sid := result o1 in
  let o2 := clearConfiguration (sessions o1) 1000 (follow_up sid []) in
  result (getLlmConfiguration (sessions o1) 2000 (follow_up sid []))
  = Some (Sample.llm, sid)
  /\ result (getLlmConfiguration (sessions o2) 2000 (follow_up sid [])) = None.
Proof. vm_compute. split; reflexivity. Qed.

End StoreClaims.

(** ** Facts about strings *)

Module JsStringFacts.
Import JsString.

Lemma truthy_false (s : string) : truthy s = false <-> s = EmptyString.
Proof. destruct s; simpl; split; congruence. Qed.

Lemma string_length_ind (P : string -> Prop) :
  (forall s, (forall t, (String.length t < String.length s)%nat -> P t) -> P s) ->
  forall s, P s.
Proof.
  intros H s. apply H.
  induction s as [|c r IH]; intros t Ht; simpl in Ht; [lia|].
  apply H. intros u Hu. apply IH. lia.
Qed.

Lemma trimStart_empty (s : string) :
  trimStart s = EmptyString <-> all_space s = true.
Proof.
  induction s as [s IH] using string_length_ind.
  destruct s as [|c1 r1]; [simpl; tauto|]. cbn [trimStart all_space].
  destruct (is_space c1); [apply IH; simpl; lia|].
  destruct r1 as [|c2 r2]; [split; discriminate|].
  destruct (is_space2 c1 c2); [apply IH; simpl; lia|].
  destruct r2 as [|c3 r3]; [split; discriminate|].
  destruct (is_space3 c1 c2 c3); cbn [andb]; [apply IH; simpl; lia | split; discriminate].
Qed.

Lemma all_space_trimStart (s : string) : all_space (trimStart s) = all_space s.
Proof.
  induction s as [s IH] using string_length_ind.
  destruct s as [|c1 r1]; [reflexivity|]. cbn [trimStart].
  destruct (is_space c1) eqn:E1;
    [rewrite IH by (simpl; lia); cbn [all_space]; now rewrite E1|].
  destruct r1 as [|c2 r2]; [reflexivity|].
  destruct (is_space2 c1 c2) eqn:E2;
    [rewrite IH by (simpl; lia); cbn [all_space]; now rewrite E1, E2|].
  destruct r2 as [|c3 r3]; [reflexivity|].
  destruct (is_space3 c1 c2 c3) eqn:E3; [|reflexivity].
  rewrite IH by (simpl; lia). cbn [all_space]. now rewrite E1, E2, E3.
Qed.

Lemma trimEnd_empty (s : string) :
  trimEnd s = EmptyString <-> all_space s = true.
Proof.
  destruct s as [|c r]; [simpl; tauto|]. cbn [trimEnd].
  destruct (all_space (String c r)); split; congruence.
Qed.

(** [trim] leaves nothing exactly of the blank strings. *)
Lemma trim_empty (s : string) : trim s = EmptyString <-> blank s = true.
Proof.
  unfold trim, blank. rewrite trimEnd_empty, all_space_trimStart. tauto.
Qed.

Lemma truthy_trim (s : string) : truthy (trim s) = negb (blank s).
Proof.
  destruct (blank s) eqn:E; simpl.
  - apply truthy_false, trim_empty, E.
  - destruct (truthy (trim s)) eqn:T; [reflexivity|].
    apply truthy_false, trim_empty in T. congruence.
Qed.

Lemma whitespace_only_blank (s : string) :
  whitespace_only s = true -> blank s = true.
Proof. unfold whitespace_only, blank. intros H. apply andb_true_iff in H. tauto. Qed.

End JsStringFacts.

(** ** The router *)

Module RouterClaims.
Import JSON Async Llm.

Lemma missing_blank (c : LLMConfig) (field : LLMConfig -> string) :
  missing (Some c) field = JsString.blank (field c).
Proof.
  unfold missing. rewrite JsStringFacts.truthy_trim. apply negb_involutive.
Qed.

(** The no-op adapter answers by itself, whatever it is asked. *)
Lemma noop_generateText messages options :
  generateText createNoOpProvider messages options = Ret UNCONFIGURED_MESSAGE.
Proof. reflexivity. Qed.

(** The code against the specification's router. *)
Lemma getProvider_spec (config : option LLMConfig) :
  getProvider config = Spec.router config.
Proof.
  destruct config as [c|]; [|reflexivity].
  unfold getProvider, Spec.router. rewrite !missing_blank.
  destruct (JsString.blank (Store.provider c) || JsString.blank (Store.model c)
            || JsString.blank (Store.apiKey c)); [reflexivity|].
  unfold Spec.family_of, Spec.named, Spec.aliases, existsb.
  rewrite !orb_false_r.
  destruct (String.eqb _ "gemini"); [reflexivity|].
  destruct (String.eqb _ "google"); [reflexivity|].
  destruct (String.eqb _ "google gemini"); [reflexivity|].
  destruct (String.eqb _ "openai"); [reflexivity|].
  destruct (String.eqb _ "custom"); [reflexivity|].
  destruct (String.eqb _ "anthropic"); [reflexivity|].
  destruct (String.eqb _ "claude"); reflexivity.
Qed.

(** C4: [getProvider] is a total function of the configuration and it is
    the router of the specification. With no configuration, or with a
    provider, model or key that is empty or white space only, it gives the
    no-op adapter, whose [generateText] returns the fixed message and makes
    no external call. Otherwise the provider name is matched in lower case
    against the aliases of each family, so GEMINI routes to the Gemini
    adapter, and a name that no family answers to gives the no-op adapter
    as well. *)
Theorem getProvider_router :
  (forall config, getProvider config = Spec.router config)
  /\ (forall messages options w,
        generateText createNoOpProvider messages options = Ret UNCONFIGURED_MESSAGE
        /\ calls w (generateText createNoOpProvider messages options) = O)
  /\ (forall m k url,
        let c := Store.mkLlmConfig "GEMINI" m k url in
        JsString.blank m = false -> JsString.blank k = false ->
        getProvider (Some c) = createGeminiProvider c).
Proof.
  split; [exact getProvider_spec | split].
  - intros. split; reflexivity.
  - intros m k url c Hm Hk. unfold getProvider. rewrite !missing_blank.
    subst c. simpl Store.model. simpl Store.apiKey. rewrite Hm, Hk. reflexivity.
Qed.

Lemma getProvider_router_witness :
  getProvider (Some (Store.mkLlmConfig "GEMINI" "gemini-1.5-flash" "key" None))
  = createGeminiProvider (Store.mkLlmConfig "GEMINI" "gemini-1.5-flash" "key" None).
Proof.
  apply (proj2 (proj2 getProvider_router)); reflexivity.
Defined.

(** The cases of the router, one by one. *)
Lemma getProvider_blank (c : LLMConfig) :
  JsString.blank (Store.provider c) = true \/ JsString.blank (Store.model c) = true
  \/ JsString.blank (Store.apiKey c) = true ->
  getProvider (Some c) = createNoOpProvider.
Proof.
  intros H. unfold getProvider. rewrite !missing_blank.
  destruct H as [H|[H|H]]; rewrite H; rewrite ?orb_true_r; reflexivity.
Qed.

Lemma getProvider_none : getProvider None = createNoOpProvider.
Proof. reflexivity. Qed.

Lemma getProvider_alias (c : LLMConfig) (f : Spec.Family) :
  JsString.blank (Store.provider c) = false ->
  JsString.blank (Store.model c) = false ->
  JsString.blank (Store.apiKey c) = false ->
  In (JsString.toLowerCase (Store.provider c)) (Spec.aliases f) ->
  getProvider (Some c) = Spec.adapter f c.
Proof.
  intros Hp Hm Hk Hin.
  unfold getProvider. rewrite !missing_blank, Hp, Hm, Hk. simpl orb. cbv iota.
  destruct f; simpl in Hin;
    repeat (destruct Hin as [<-|Hin]; [reflexivity|]); contradiction.
Qed.

Lemma getProvider_unknown (c : LLMConfig) :
  Spec.family_of (JsString.toLowerCase (Store.provider c)) = None ->
  getProvider (Some c) = createNoOpProvider.
Proof.
  intros H. rewrite getProvider_spec. unfold Spec.router.
  rewrite H. destruct (_ || _); reflexivity.
Qed.

End RouterClaims.

(** ** Running asynchronous code *)

Module AsyncFacts.
Import Async.

Lemma run_bind {A B} (w : World) (m : IO A) (f : A -> IO B) :
  run w (bind m f)
  = match run w m with
    | Fulfilled a => run w (f a)
    | Rejected e => Rejected e
    end.
Proof. induction m as [a|e|X ev k IH]; simpl; auto. Qed.

Lemma run_try_catch {A} (w : World) (m : IO A) (h : JsError -> IO A) :
  run w (try_catch m h)
  = match run w m with
    | Fulfilled a => Fulfilled a
    | Rejected e => run w (h e)
    end.
Proof. induction m as [a|e|X ev k IH]; simpl; auto. Qed.

Lemma calls_bind {A B} (w : World) (m : IO A) (f : A -> IO B) :
  calls w (bind m f)
  = (calls w m + match run w m with
                 | Fulfilled a => calls w (f a)
                 | Rejected _ => 0
                 end)%nat.
Proof. induction m as [a|e|X ev k IH]; simpl; auto. Qed.

End AsyncFacts.

(** ** The adapters on an empty message sequence *)

Module AdapterClaims.
Import JSON Async Llm.

(** C6, evaluated on the code: called with no message, the Gemini adapter
    sends a single user message with empty text; the OpenAI and Anthropic
    adapters send the empty message list as it is. *)
Theorem empty_messages_requests (config : LLMConfig) (options : option GenerateOptions) :
  (exists k c,
     generateText (createGeminiProvider config) [] options = Vis (GenerateContent c) k
     /\ g_contents c = [mkGeminiContent "user" [EmptyString]])
  /\ (exists k c,
        generateText (createOpenAIProvider config) [] options = Vis (Fetch c) k
        /\ body c = OpenAIBody (Store.model config) []
                      (option_or options maxOutputTokens 4096)
                      (option_or options temperature (1 # 10)%Q))
  /\ (exists k c,
        generateText (createAnthropicProvider config) [] options = Vis (Fetch c) k
        /\ body c = AnthropicBody (Store.model config)
                      (option_or options maxOutputTokens 4096) [] None).
Proof.
  split; [|split].
  - eexists _, _. split; reflexivity.
  - eexists _, _. split; reflexivity.
  - eexists _, _. split; reflexivity.
Qed.

(** The mapping of a sequence that is not empty keeps one entry per
    message. *)
Lemma gemini_contents_length (messages : list Message) :
  messages <> [] -> length (gemini_contents messages) = length messages.
Proof.
  intros H. unfold gemini_contents.
  destruct messages; [congruence | simpl; now rewrite length_map].
Qed.

End AdapterClaims.

(** ** The orchestrator *)

Module ServiceClaims.
Import JSON Async Llm Schema LlmService AsyncFacts.

(** Insight extraction settles to a list whatever the provider does. *)
Lemma analyzeAuditLogs_never_throws (w : World) auditLogs llmConfig :
  exists insights, run w (analyzeAuditLogs auditLogs llmConfig) = Fulfilled insights.
Proof.
  unfold analyzeAuditLogs. rewrite run_try_catch.
  change (mbind ?f ?m) with (bind m f). rewrite run_bind.
  destruct (run w (generateText _ _ _)); simpl; eauto.
Qed.

(** What it settles to, from the text the provider gave. *)
Lemma analyzeAuditLogs_result (w : World) auditLogs llmConfig :
  run w (analyzeAuditLogs auditLogs llmConfig)
  = match run w (generateText (getProvider llmConfig)
                   [mkMessage user
                      (insights_prompt (map summarize (slice0 100 auditLogs)))] None) with
    | Fulfilled text => Fulfilled (insights_of text)
    | Rejected e => Fulfilled [JStr ("Analysis error: " ++ Async.message e)]
    end.
Proof.
  unfold analyzeAuditLogs. rewrite run_try_catch.
  change (mbind ?f ?m) with (bind m f). rewrite run_bind.
  destruct (run w (generateText _ _ _)); reflexivity.
Qed.

Lemma insights_of_array text insights :
  parse text = Some (JArr insights) -> insights_of text = insights.
Proof. unfold insights_of. now intros ->. Qed.

Lemma insights_of_other text :
  (forall insights, parse text <> Some (JArr insights)) ->
  insights_of text = [JStr text].
Proof.
  unfold insights_of. intros H.
  destruct (parse text) as [[| | | |l|]|]; try reflexivity.
  exfalso. exact (H l eq_refl).
Qed.

Example insights_two_strings : insights_of Sample.two_strings = [JStr "a"; JStr "b"].
Proof. vm_compute. reflexivity. Qed.

Example insights_not_json : insights_of "not json" = [JStr "not json"].
Proof. vm_compute. reflexivity. Qed.

(** C7, evaluated on the code where it breaks the claim: when the provider
    answers with the text of a JSON array of numbers, insight extraction
    returns that array of numbers, not a sequence of strings. *)
Theorem insights_array_of_numbers :
  insights_of "[1, 2]" = [JNum 1 0; JNum 2 0]
  /\ run (Sample.world "[1, 2]")
       (analyzeAuditLogs [Sample.log "org.user.add" 0 "a@example.com"] (Some Sample.llm))
     = Fulfilled [JNum 1 0; JNum 2 0].
Proof. split; vm_compute; reflexivity. Qed.

Lemma filter_none {A} (p : A -> bool) (l : list A) :
  (forall x, In x l -> p x = false) -> List.filter p l = [].
Proof.
  induction l as [|a l IH]; simpl; intros H; [reflexivity|].
  rewrite (H a) by auto. apply IH. auto.
Qed.

Lemma is_recent_spec now log :
  is_recent now log = true <-> Spec.not_older_than_24_hours now log.
Proof.
  unfold is_recent, Spec.not_older_than_24_hours, Spec.DAY.
  destruct (created log) as [t|]; split.
  - intros H. exists t. split; [reflexivity | lia].
  - intros (t' & [= <-] & H). lia.
  - discriminate.
  - intros (t' & [=] & _).
Qed.

Lemma filter_nil_iff {A} (p : A -> bool) (l : list A) :
  List.filter p l = [] <-> forall x, In x l -> p x = false.
Proof.
  split; [|apply filter_none].
  induction l as [|a l IH]; simpl; [tauto|].
  destruct (p a) eqn:E; [discriminate|].
  intros H x [<-|Hx]; auto.
Qed.

Lemma none_recent_iff now auditLogs :
  List.filter (is_recent now) auditLogs = []
  <-> forall log, In log auditLogs -> ~ Spec.not_older_than_24_hours now log.
Proof.
  rewrite filter_nil_iff. split; intros H log Hin.
  - rewrite <- is_recent_spec. rewrite (H log Hin). discriminate.
  - specialize (H log Hin). rewrite <- is_recent_spec in H.
    destruct (is_recent now log); [contradiction H; reflexivity | reflexivity].
Qed.

(** The summary as a function of the first 200 recent records. *)
Lemma generateExecutiveSummary_slice now today auditLogs llmConfig :
  let logSummary := map summarize (slice0 200 (List.filter (is_recent now) auditLogs)) in
  generateExecutiveSummary now today auditLogs llmConfig
  = match logSummary with
    | [] => Ret NO_RECENT_LOGS
    | _ =>
        try_catch
          (text ← generateText (getProvider llmConfig)
                    [mkMessage user
                       (executive_prompt (JsDate.toLocaleDateString today)
                          (length logSummary) (uniqueUsers logSummary)
                          (topEvents (eventSummary logSummary)))]
                    (Some (mkGenerateOptions (Some 4096) (Some (1 # 10)%Q)
                             (Some (9 # 10)%Q) (Some 40)));
           Ret text)
          (fun error => Ret ("Summary generation error: " ++ Async.message error))
    end.
Proof.
  unfold generateExecutiveSummary, slice0.
  destruct (List.filter (is_recent now) auditLogs) as [|a r]; reflexivity.
Qed.

(** The fixed message is returned only by the short-circuit. *)
Lemma short_circuit_iff now today auditLogs llmConfig :
  generateExecutiveSummary now today auditLogs llmConfig = Ret NO_RECENT_LOGS
  <-> List.filter (is_recent now) auditLogs = [].
Proof.
  unfold generateExecutiveSummary.
  destruct (List.filter (is_recent now) auditLogs) as [|a r]; simpl.
  - tauto.
  - split; [|discriminate]. unfold getProvider.
    destruct (missing _ _ || _ || _); [discriminate|].
    destruct llmConfig as [c|]; [|discriminate].
    repeat (match goal with |- context [if ?b then _ else _] => destruct b end);
      discriminate.
Qed.

Lemma short_circuit_calls now today auditLogs llmConfig w :
  List.filter (is_recent now) auditLogs = [] ->
  calls w (generateExecutiveSummary now today auditLogs llmConfig) = O.
Proof. intros H. unfold generateExecutiveSummary. now rewrite H. Qed.

(** C8 (as amended): the executive summary is the fixed informational
    message exactly when no record of the input was created 24 hours before
    now or later, and then it is returned at once: no provider is selected
    and no external call is made. The filter has no upper bound: a record
    dated after now counts as recent, as does one within the last 24
    hours, and with any such record in the input the function goes on to
    the provider. *)
Theorem no_recent_logs now today auditLogs llmConfig :
  ((forall log, In log auditLogs -> ~ Spec.not_older_than_24_hours now log)
   <-> generateExecutiveSummary now today auditLogs llmConfig = Ret NO_RECENT_LOGS)
  /\ ((forall log, In log auditLogs -> ~ Spec.not_older_than_24_hours now log) ->
      forall w, calls w (generateExecutiveSummary now today auditLogs llmConfig) = O)
  /\ (forall log, In log auditLogs -> Spec.within_last_24_hours now log ->
      generateExecutiveSummary now today auditLogs llmConfig <> Ret NO_RECENT_LOGS)
  /\ (forall log t, In log auditLogs -> created log = Some t -> now < t ->
      generateExecutiveSummary now today auditLogs llmConfig <> Ret NO_RECENT_LOGS).
Proof.
  assert (Hiff : (forall log, In log auditLogs ->
                    ~ Spec.not_older_than_24_hours now log)
                 <-> generateExecutiveSummary now today auditLogs llmConfig
                     = Ret NO_RECENT_LOGS)
    by (rewrite short_circuit_iff, none_recent_iff; tauto).
  split; [exact Hiff|]. split.
  - intros H w. apply short_circuit_calls. now apply none_recent_iff.
  - split.
    + intros log Hin (t & Ht & Hlo & _) Hnone. pose proof (proj2 Hiff Hnone) as Hall. clear Hnone. rename Hall into Hnone.
      apply (Hnone log Hin). exists t. split; [exact Ht | exact Hlo].
    + intros log t Hin Ht Hfuture Hnone. pose proof (proj2 Hiff Hnone) as Hall. clear Hnone. rename Hall into Hnone.
      apply (Hnone log Hin). exists t. split; [exact Ht | unfold Spec.DAY; lia].
Qed.

Lemma no_recent_logs_witness :
  generateExecutiveSummary (3 * Sample.day) (3 * Sample.day)
    [Sample.log "org.user.add" 0 "a@example.com";
     Sample.log "org.project.remove" Sample.day "b@example.com"]
    (Some Sample.llm)
  = Ret NO_RECENT_LOGS.
Proof.
  apply (proj1 (no_recent_logs (3 * Sample.day) (3 * Sample.day) _ (Some Sample.llm))).
  intros log [<-|[<-|[]]] (t & [= <-] & H); vm_compute in H; apply H; reflexivity.
Defined.

(** C8, the claim as worded, fails on a record dated after now: it was not
    created within the last 24 hours, yet it passes the filter, and the
    provider is called. *)
Lemma future_record_counterexample :
  let now := 3 * Sample.day in
  let log := Sample.log "org.user.add" (13 * Sample.day) "a@example.com" in
  (forall l, In l [log] -> ~ Spec.within_last_24_hours now l)
  /\ generateExecutiveSummary now now [log] (Some Sample.llm) <> Ret NO_RECENT_LOGS
  /\ calls (Sample.world "ok") (generateExecutiveSummary now now [log] (Some Sample.llm))
     = 1%nat.
Proof.
  cbv zeta. split; [|split].
  - intros l [<-|[]] (t & [= <-] & _ & H). vm_compute in H. apply H. reflexivity.
  - rewrite short_circuit_iff. discriminate.
  - vm_compute. reflexivity.
Qed.

Lemma firstn_nil_iff {A} (n : nat) (l : list A) :
  firstn (S n) l = [] <-> l = [].
Proof. destruct l; simpl; split; congruence. Qed.

(** Records after the first 200 recent ones change nothing. *)
Lemma summary_ignores_later_records now today logs extra llmConfig :
  (200 <= length (List.filter (is_recent now) logs))%nat ->
  generateExecutiveSummary now today (logs ++ extra) llmConfig
  = generateExecutiveSummary now today logs llmConfig.
Proof.
  intros H. rewrite !generateExecutiveSummary_slice. cbv zeta.
  rewrite List.filter_app. unfold slice0.
  rewrite firstn_app.
  replace (200 - length (List.filter (is_recent now) logs))%nat with O by lia.
  simpl firstn at 2. rewrite app_nil_r. reflexivity.
Qed.

End ServiceClaims.

(** ** Redaction commutes with the store *)

Module RedactionFacts.
Import Store Secrecy.

Lemma redact_set_lastAccessed t s :
  redact (set_lastAccessed t s) = set_lastAccessed t (redact s).
Proof. reflexivity. Qed.

Lemma lookup_redact (st : gmap string CookieSession) sid :
  (redact <$> st) !! sid = redact <$> (st !! sid).
Proof. apply lookup_fmap. Qed.

Lemma getOrCreateSessionId_redact st now req :
  let o := getOrCreateSessionId st now req in
  getOrCreateSessionId (redact <$> st) now req
  = mkOutcome (result o) (redact <$> sessions o) (cookies o).
Proof.
  unfold getOrCreateSessionId, createSession.
  destruct (cookie req) as [sid|]; simpl.
  2:{ now rewrite fmap_insert. }
  destruct (JsString.truthy sid); simpl.
  2:{ now rewrite fmap_insert. }
  rewrite lookup_redact. destruct (st !! sid) as [s|]; simpl.
  2:{ now rewrite fmap_insert. }
  destruct (now - lastAccessed s >? SESSION_TIMEOUT); simpl.
  - now rewrite fmap_insert, fmap_delete.
  - now rewrite fmap_insert.
Qed.

Lemma getApiConfiguration_redact st now req :
  let o := getApiConfiguration st now req in
  getApiConfiguration (redact <$> st) now req
  = mkOutcome (redact_found redact_snyk (result o)) (redact <$> sessions o) (cookies o).
Proof.
  unfold getApiConfiguration. rewrite getOrCreateSessionId_redact. simpl.
  rewrite lookup_redact.
  destruct (sessions (getOrCreateSessionId st now req) !! _) as [s|]; simpl;
    [|reflexivity].
  destruct (snykConfig s) as [c|]; simpl; [|reflexivity].
  destruct (now >? expiresAt c); simpl; [|reflexivity].
  now rewrite fmap_insert.
Qed.

Lemma getLlmConfiguration_redact st now req :
  let o := getLlmConfiguration st now req in
  getLlmConfiguration (redact <$> st) now req
  = mkOutcome (redact_found redact_llm (result o)) (redact <$> sessions o) (cookies o).
Proof.
  unfold getLlmConfiguration. rewrite getOrCreateSessionId_redact. simpl.
  rewrite lookup_redact.
  destruct (sessions (getOrCreateSessionId st now req) !! _) as [s|]; simpl;
    [|reflexivity].
  destruct (llmConfig s) as [c|]; simpl; [|reflexivity].
  destruct (now >? expiresAt c); simpl; [|reflexivity].
  now rewrite fmap_insert.
Qed.

Lemma getTimeUntilExpiration_redact st now req :
  let o := getTimeUntilExpiration st now req in
  getTimeUntilExpiration (redact <$> st) now req
  = mkOutcome (result o) (redact <$> sessions o) (cookies o).
Proof.
  unfold getTimeUntilExpiration. rewrite getOrCreateSessionId_redact. simpl.
  rewrite lookup_redact.
  destruct (sessions (getOrCreateSessionId st now req) !! _) as [s|]; simpl;
    [|reflexivity].
  destruct (snykConfig s) as [c|]; reflexivity.
Qed.

Lemma setApiConfiguration_redact st now req cfg T :
  let o := setApiConfiguration st now req cfg T in
  setApiConfiguration (redact <$> st) now req (redact_snyk cfg) T
  = mkOutcome (result o) (redact <$> sessions o) (cookies o).
Proof.
  unfold setApiConfiguration, update_session.
  rewrite getOrCreateSessionId_redact. simpl. rewrite lookup_redact.
  destruct (sessions (getOrCreateSessionId st now req) !! _) as [s|]; simpl;
    [|reflexivity].
  now rewrite fmap_insert.
Qed.

Lemma setLlmConfiguration_redact st now req cfg T :
  let o := setLlmConfiguration st now req cfg T in
  setLlmConfiguration (redact <$> st) now req (redact_llm cfg) T
  = mkOutcome (result o) (redact <$> sessions o) (cookies o).
Proof.
  unfold setLlmConfiguration, update_session.
  rewrite getOrCreateSessionId_redact. simpl. rewrite lookup_redact.
  destruct (sessions (getOrCreateSessionId st now req) !! _) as [s|]; simpl;
    [|reflexivity].
  now rewrite fmap_insert.
Qed.

(** Redaction is blind to the secret a record is written with. *)
Lemma redact_set_snyk cfg e s :
  redact (set_snykConfig (Some (mkStored cfg e)) s)
  = redact (set_snykConfig (Some (mkStored (redact_snyk cfg) e)) s).
Proof. reflexivity. Qed.

End RedactionFacts.

(** ** The store on two states that differ only in their secrets *)

Module SecrecyFacts.
Import Store Secrecy RedactionFacts.

Lemma getApiConfiguration_related st1 st2 now req :
  same_but_secrets st1 st2 ->
  let o1 := getApiConfiguration st1 now req in
  let o2 := getApiConfiguration st2 now req in
  redact_found redact_snyk (result o1) = redact_found redact_snyk (result o2)
  /\ same_but_secrets (sessions o1) (sessions o2) /\ cookies o1 = cookies o2.
Proof.
  intros H o1 o2.
  pose proof (f_equal (fun st => getApiConfiguration st now req) H) as E.
  cbv beta in E. rewrite !getApiConfiguration_redact in E.
  injection E as E1 E2 E3. auto.
Qed.

Lemma getLlmConfiguration_related st1 st2 now req :
  same_but_secrets st1 st2 ->
  let o1 := getLlmConfiguration st1 now req in
  let o2 := getLlmConfiguration st2 now req in
  redact_found redact_llm (result o1) = redact_found redact_llm (result o2)
  /\ same_but_secrets (sessions o1) (sessions o2) /\ cookies o1 = cookies o2.
Proof.
  intros H o1 o2.
  pose proof (f_equal (fun st => getLlmConfiguration st now req) H) as E.
  cbv beta in E. rewrite !getLlmConfiguration_redact in E.
  injection E as E1 E2 E3. auto.
Qed.

Lemma getTimeUntilExpiration_related st1 st2 now req :
  same_but_secrets st1 st2 ->
  let o1 := getTimeUntilExpiration st1 now req in
  let o2 := getTimeUntilExpiration st2 now req in
  result o1 = result o2
  /\ same_but_secrets (sessions o1) (sessions o2) /\ cookies o1 = cookies o2.
Proof.
  intros H o1 o2.
  pose proof (f_equal (fun st => getTimeUntilExpiration st now req) H) as E.
  cbv beta in E. rewrite !getTimeUntilExpiration_redact in E.
  injection E as E1 E2 E3. auto.
Qed.

Lemma setApiConfiguration_related st1 st2 now req cfg T :
  same_but_secrets st1 st2 ->
  let o1 := setApiConfiguration st1 now req cfg T in
  let o2 := setApiConfiguration st2 now req cfg T in
  result o1 = result o2
  /\ same_but_secrets (sessions o1) (sessions o2) /\ cookies o1 = cookies o2.
Proof.
  intros H o1 o2.
  pose proof (f_equal (fun st => setApiConfiguration st now req (redact_snyk cfg) T) H) as E.
  cbv beta in E. rewrite !setApiConfiguration_redact in E.
  injection E as E1 E2 E3. auto.
Qed.

Lemma setLlmConfiguration_related st1 st2 now req cfg T :
  same_but_secrets st1 st2 ->
  let o1 := setLlmConfiguration st1 now req cfg T in
  let o2 := setLlmConfiguration st2 now req cfg T in
  result o1 = result o2
  /\ same_but_secrets (sessions o1) (sessions o2) /\ cookies o1 = cookies o2.
Proof.
  intros H o1 o2.
  pose proof (f_equal (fun st => setLlmConfiguration st now req (redact_llm cfg) T) H) as E.
  cbv beta in E. rewrite !setLlmConfiguration_redact in E.
  injection E as E1 E2 E3. auto.
Qed.

End SecrecyFacts.

(** ** The configuration endpoints *)

Module ConfigEndpoints.
Import JSON Async Routes Secrecy SecrecyFacts Views.

Ltac handler_steps :=
  unfold handle;
  cbn [runH mbind mret h_bind h_ret store_call json throw lift zod_parse bind
       try_catch await await_settled fst snd st_sessions st_cookies].

Lemma handle_get_config (clock : Clock) req s :
  let o1 := Store.getApiConfiguration (st_sessions s) (clock 0%nat)
              (session_request req 0) in
  let o2 := Store.getTimeUntilExpiration (Store.sessions o1) (clock 1%nat)
              (session_request req 1) in
  handle (get_config clock req) s
  = match Store.result o1 with
    | None =>
        Ret (mkResponse 200 JNull,
             mkServerState (Store.sessions o1) (st_cookies s ++ Store.cookies o1)%list)
    | Some (config, sessionId) =>
        Ret (mkResponse 200 (config_view config (Store.result o2) sessionId),
             mkServerState (Store.sessions o2)
               ((st_cookies s ++ Store.cookies o1) ++ Store.cookies o2)%list)
    end.
Proof.
  intros o1 o2. subst o1 o2. unfold get_config. handler_steps.
  destruct (Store.result (Store.getApiConfiguration _ _ _))
    as [[config sessionId]|]; reflexivity.
Qed.

Lemma handle_get_llm_config now req s :
  let o := Store.getLlmConfiguration (st_sessions s) now (session_request req 0) in
  handle (get_llm_config now req) s
  = Ret (mkResponse 200
           match Store.result o with
           | None => JNull
           | Some (config, _) => llm_view (Store.provider config) (Store.model config)
           end,
         mkServerState (Store.sessions o) (st_cookies s ++ Store.cookies o)%list).
Proof.
  intros o. subst o. unfold get_llm_config. handler_steps.
  destruct (Store.result (Store.getLlmConfiguration _ _ _))
    as [[config sessionId]|]; reflexivity.
Qed.

Lemma handle_post_llm_config now req s :
  let field k := prop k (Some (req_body req)) in
  handle (post_llm_config now req) s
  = match required_string (field "provider"), required_string (field "model"),
          required_string (field "apiKey") with
    | Some provider, Some model, Some apiKey =>
        let o := Store.setLlmConfiguration (st_sessions s) now (session_request req 0)
                   (Store.mkLlmConfig (JsString.trim provider) (JsString.trim model)
                      (JsString.trim apiKey) (optional_url (field "baseUrl"))) 30 in
        Ret (mkResponse 200 (llm_view (JsString.trim provider) (JsString.trim model)),
             mkServerState (Store.sessions o) (st_cookies s ++ Store.cookies o)%list)
    | _, _, _ =>
        Ret (mkResponse 400 (error_body "provider, model, and apiKey are required"), s)
    end.
Proof.
  intros field. subst field. unfold post_llm_config.
  destruct (required_string (prop "provider" _)); [|reflexivity].
  destruct (required_string (prop "model" _)); [|reflexivity].
  destruct (required_string (prop "apiKey" _)); reflexivity.
Qed.

Lemma run_post_config w (clock : Clock) req s :
  let field k := prop k (Some (req_body req)) in
  run w (handle (post_config clock req) s)
  = match field "snykApiToken" with
    | None => Fulfilled (mkResponse 400 (error_body "Snyk API token is required"), s)
    | Some token =>
        if negb (truthy token)
        then Fulfilled (mkResponse 400 (error_body "Snyk API token is required"), s)
        else
          let test := w _ (TestConnection token (field "apiVersion")) in
          if negb (success test)
          then Fulfilled (mkResponse 400 (error_body (test_message test)), s)
          else
            let version := or_else (field "apiVersion") (Some (JStr DEFAULT_API_VERSION)) in
            let o1 := Store.setApiConfiguration (st_sessions s) (clock 0%nat)
                        (session_request req 0)
                        (Store.mkSnykConfig token (field "groupId") (field "orgId") version)
                        30 in
            let o2 := Store.getTimeUntilExpiration (Store.sessions o1) (clock 1%nat)
                        (session_request req 1) in
            Fulfilled
              (mkResponse 200
                 (stored_view (field "groupId") (field "orgId") version
                    (Store.result o2) (Store.result o1)),
               mkServerState (Store.sessions o2)
                 ((st_cookies s ++ Store.cookies o1) ++ Store.cookies o2)%list)
    end.
Proof.
  intros field. subst field. unfold post_config.
  destruct (prop "snykApiToken" _) as [token|]; [|reflexivity].
  destruct (negb (truthy token)); [reflexivity|].
  handler_steps. cbn [run].
  destruct (negb (success _)); reflexivity.
Qed.

(** The token shown is the mask, whatever the stored configuration. *)
Lemma config_view_token config timeRemaining sessionId :
  prop "snykApiToken" (Some (config_view config timeRemaining sessionId))
  = Some (JStr "***").
Proof.
  destruct config as [token [g|] [o|] [v|]]; reflexivity.
Qed.

Lemma stored_view_token groupId orgId version timeRemaining sessionId :
  prop "snykApiToken"
    (Some (stored_view groupId orgId version timeRemaining sessionId))
  = Some (JStr "***").
Proof.
  destruct groupId, orgId, version; reflexivity.
Qed.

Lemma llm_view_no_key provider model :
  prop "apiKey" (Some (llm_view provider model)) = None.
Proof. reflexivity. Qed.

Lemma error_body_fields message k :
  prop k (Some (error_body message))
  = if String.eqb k "error" then Some (JStr message) else None.
Proof. reflexivity. Qed.

(** The view of a configuration does not depend on its token. *)
Lemma config_view_redact c1 c2 timeRemaining sessionId :
  redact_snyk c1 = redact_snyk c2 ->
  config_view c1 timeRemaining sessionId = config_view c2 timeRemaining sessionId.
Proof.
  destruct c1, c2. unfold redact_snyk. simpl. intros [= -> -> ->]. reflexivity.
Qed.

Lemma get_config_related w (clock : Clock) req s1 s2 :
  differ_in_secrets_only s1 s2 ->
  reply w (get_config clock req) s1 = reply w (get_config clock req) s2.
Proof.
  intros [HR Hc]. unfold reply. rewrite !handle_get_config. cbv zeta.
  destruct (getApiConfiguration_related _ _ (clock 0%nat) (session_request req 0) HR)
    as (E1 & R1 & C1).
  destruct (getTimeUntilExpiration_related _ _ (clock 1%nat) (session_request req 1) R1)
    as (E2 & _ & _).
  destruct (Store.result (Store.getApiConfiguration (st_sessions s1) _ _))
    as [[c1 sid1]|];
    destruct (Store.result (Store.getApiConfiguration (st_sessions s2) _ _))
      as [[c2 sid2]|]; cbn [redact_found] in E1; try discriminate; [|reflexivity].
  assert (Ec : redact_snyk c1 = redact_snyk c2) by congruence.
  assert (Es : sid1 = sid2) by congruence. subst sid2. simpl. rewrite E2.
  now rewrite (config_view_redact c1 c2 _ _ Ec).
Qed.

Lemma get_llm_config_related w now req s1 s2 :
  differ_in_secrets_only s1 s2 ->
  reply w (get_llm_config now req) s1 = reply w (get_llm_config now req) s2.
Proof.
  intros [HR Hc]. unfold reply. rewrite !handle_get_llm_config. cbv zeta.
  destruct (getLlmConfiguration_related _ _ now (session_request req 0) HR)
    as (E1 & _ & _).
  destruct (Store.result (Store.getLlmConfiguration (st_sessions s1) _ _))
    as [[c1 sid1]|];
    destruct (Store.result (Store.getLlmConfiguration (st_sessions s2) _ _))
      as [[c2 sid2]|]; cbn [redact_found] in E1; try discriminate; [|reflexivity].
  assert (Ec : redact_llm c1 = redact_llm c2) by congruence.
  destruct c1, c2. unfold redact_llm in Ec. simpl in Ec.
  injection Ec as -> -> _. reflexivity.
Qed.

Lemma post_llm_config_related w now req s1 s2 :
  differ_in_secrets_only s1 s2 ->
  reply w (post_llm_config now req) s1 = reply w (post_llm_config now req) s2.
Proof.
  intros _. unfold reply. rewrite !handle_post_llm_config. cbv zeta.
  destruct (required_string _); [|reflexivity].
  destruct (required_string _); [|reflexivity].
  destruct (required_string _); reflexivity.
Qed.

Lemma post_config_related w (clock : Clock) req s1 s2 :
  differ_in_secrets_only s1 s2 ->
  reply w (post_config clock req) s1 = reply w (post_config clock req) s2.
Proof.
  intros [HR Hc]. unfold reply. rewrite !run_post_config. cbv zeta.
  destruct (prop "snykApiToken" _) as [token|]; [|reflexivity].
  destruct (negb (truthy token)); [reflexivity|].
  destruct (negb (success _)); [reflexivity|].
  match goal with
  | |- context [Store.setApiConfiguration (st_sessions s1) ?n ?r ?c ?t] =>
      destruct (setApiConfiguration_related _ _ n r c t HR) as (E1 & R1 & _)
  end.
  destruct (getTimeUntilExpiration_related _ _ (clock 1%nat) (session_request req 1) R1)
    as (E2 & _ & _).
  cbv zeta in E1, E2. cbn [fst]. rewrite E1, E2. reflexivity.
Qed.

(** C3: no response of a configuration endpoint carries a stored secret.
    Whatever the state, a response of GET or POST [/api/config] that shows a
    configuration shows the literal mask in the place of the Snyk API token
    (the other responses are [null] or an error object), and no response of
    GET or POST [/api/llm-config] has an [apiKey] field. Hence two states
    that differ only in the values of their secrets get identical responses
    from all four endpoints. *)
Theorem secrets_not_returned (w : World) (clock : Clock) now req :
  (forall s, exists r s',
     handle (get_config clock req) s = Ret (r, s')
     /\ (body r = JNull \/ prop "snykApiToken" (Some (body r)) = Some (JStr "***")))
  /\ (forall s, exists r s',
        run w (handle (post_config clock req) s) = Fulfilled (r, s')
        /\ ((status r = 200 /\ prop "snykApiToken" (Some (body r)) = Some (JStr "***"))
            \/ (status r = 400 /\ exists message, body r = error_body message)))
  /\ (forall s, exists r s',
        handle (get_llm_config now req) s = Ret (r, s')
        /\ prop "apiKey" (Some (body r)) = None)
  /\ (forall s, exists r s',
        handle (post_llm_config now req) s = Ret (r, s')
        /\ prop "apiKey" (Some (body r)) = None)
  /\ (forall s1 s2, differ_in_secrets_only s1 s2 ->
        reply w (get_config clock req) s1 = reply w (get_config clock req) s2
        /\ reply w (post_config clock req) s1 = reply w (post_config clock req) s2
        /\ reply w (get_llm_config now req) s1 = reply w (get_llm_config now req) s2
        /\ reply w (post_llm_config now req) s1 = reply w (post_llm_config now req) s2).
Proof.
  repeat split.
  - intros s. rewrite handle_get_config. cbv zeta.
    destruct (Store.result (Store.getApiConfiguration _ _ _))
      as [[config sessionId]|]; eexists _, _;
      (split; [reflexivity|]); simpl.
    + right. apply config_view_token.
    + left. reflexivity.
  - intros s. rewrite run_post_config. cbv zeta.
    destruct (prop "snykApiToken" _) as [token|].
    2:{ eexists _, _. split; [reflexivity|]. right. simpl. eauto. }
    destruct (negb (truthy token)).
    { eexists _, _. split; [reflexivity|]. right. simpl. eauto. }
    destruct (negb (success _)).
    { eexists _, _. split; [reflexivity|]. right. simpl. eauto. }
    eexists _, _. split; [reflexivity|]. left. simpl.
    split; [reflexivity | apply stored_view_token].
  - intros s. rewrite handle_get_llm_config. cbv zeta.
    eexists _, _. split; [reflexivity|]. simpl.
    destruct (Store.result (Store.getLlmConfiguration _ _ _))
      as [[config sessionId]|]; reflexivity.
  - intros s. rewrite handle_post_llm_config. cbv zeta.
    destruct (required_string _);
      [|eexists _, _; split; [reflexivity|reflexivity]].
    destruct (required_string _);
      [|eexists _, _; split; [reflexivity|reflexivity]].
    destruct (required_string _); eexists _, _; split; reflexivity.
  - now apply get_config_related.
  - now apply post_config_related.
  - now apply get_llm_config_related.
  - now apply post_llm_config_related.
Qed.

(** The theorem on two states that hold the same records with different
    secrets. *)
Lemma secrets_not_returned_witness :
  let session token key :=
    Store.mkSession "s1"
      (Some (Store.mkStored
               (Store.mkSnykConfig (JStr token) None (Some (JStr "org-1"))
                  (Some (JStr "2024-10-15"))) 1800000))
      (Some (Store.mkStored (Store.mkLlmConfig "openai" "gpt-4o-mini" key None) 1800000))
      0 0 in
  let state token key := mkServerState {[ "s1" := session token key ]} [] in
  let req := mkHttpRequest (Some "s1") (JObj []) [] (fun _ => []) in
  let w := Sample.world "ok" in
  reply w (get_config (fun _ => 1000) req) (state "token-A" "key-A")
  = reply w (get_config (fun _ => 1000) req) (state "token-B" "key-B")
  /\ reply w (get_llm_config 1000 req) (state "token-A" "key-A")
     = reply w (get_llm_config 1000 req) (state "token-B" "key-B").
Proof.
  intros session state req w.
  destruct (secrets_not_returned w (fun _ => 1000) 1000 req) as (_ & _ & _ & _ & H).
  destruct (H (state "token-A" "key-A") (state "token-B" "key-B")) as (H1 & _ & H3 & _).
  - split; [|reflexivity]. unfold same_but_secrets, state. cbn [st_sessions].
    rewrite !map_fmap_singleton. reflexivity.
  - exact (conj H1 H3).
Defined.

End ConfigEndpoints.

(** ** Request validation *)

Module ValidationClaims.
Import JSON Async Schema Routes ConfigEndpoints.

Lemma post_chat_invalid (clock : Clock) req s issues :
  chatMessageSchema (req_body req) = inl issues ->
  handle (post_chat clock req) s
  = Ret (mkResponse 500 (error_body (stringify (JArr issues))), s).
Proof. intros H. unfold handle, post_chat. rewrite H. reflexivity. Qed.

Lemma get_audit_logs_invalid Date_parse now req s issues :
  auditLogFilterSchema (queryParams req) = inl issues ->
  handle (get_audit_logs Date_parse now req) s
  = Ret (mkResponse 500 (error_body (stringify (JArr issues))), s).
Proof. intros H. unfold handle, get_audit_logs. rewrite H. reflexivity. Qed.

Lemma chat_empty_message_issue (body : Json) :
  prop "message" (Some body) = Some (JStr EmptyString) ->
  exists rest,
    chatMessageSchema body = inl (too_small_string 1 [JStr "message"] :: rest).
Proof.
  intros H. destruct body; try discriminate H.
  unfold chatMessageSchema. rewrite H. simpl string_min.
  destruct (optional_string _ _); eexists; reflexivity.
Qed.

Lemma size_out_of_range_issue (q : QueryParams) (n : Z) :
  q_size q = Some n -> n < 1 \/ 100 < n ->
  exists issues, auditLogFilterSchema q = inl issues /\ In (Spec.size_issue n) issues.
Proof.
  intros Hq Hn. unfold auditLogFilterSchema. rewrite Hq.
  assert (Hs : number_range 1 100 [JStr "size"] (Some n) = inl [Spec.size_issue n]).
  { unfold number_range, Spec.size_issue.
    destruct (n <? 1) eqn:E1; [reflexivity|].
    destruct (100 <? n) eqn:E2; [reflexivity | lia]. }
  rewrite Hs.
  destruct (optional_string [JStr "from"] _);
    destruct (optional_string [JStr "to"] _);
    destruct (optional_string_array [JStr "events"] _);
    destruct (optional_string_array [JStr "excludeEvents"] _);
    (eexists; split; [reflexivity|]);
    rewrite ?in_app_iff; simpl; tauto.
Qed.

Lemma post_config_no_token w (clock : Clock) req s :
  prop "snykApiToken" (Some (req_body req)) = None ->
  run w (handle (post_config clock req) s)
  = Fulfilled (mkResponse 400 (error_body "Snyk API token is required"), s).
Proof. intros H. rewrite run_post_config. cbv zeta. now rewrite H. Qed.

Lemma post_llm_config_no_provider now req s :
  prop "provider" (Some (req_body req)) = None ->
  handle (post_llm_config now req) s
  = Ret (mkResponse 400 (error_body "provider, model, and apiKey are required"), s).
Proof. intros H. rewrite handle_post_llm_config. cbv zeta. now rewrite H. Qed.

(** C5: a request that reaches [POST /api/chat] or [GET /api/audit-logs]
    with parameters its schema refuses is answered before any I/O, with no
    external call made and the session store untouched, but with status
    500, not a 400-class status: the schema's error is caught by the
    handler's catch-all, and the error text is the list of the violated
    constraints. So it is for a chat request with an empty message and for
    an audit-log query with a size outside 1..100. The checks the other
    handlers of the same server write by hand do answer 400: a
    configuration request without a token, an LLM configuration request
    without a provider. *)
Theorem validation_rejected Date_parse (clock : Clock) now req s :
  body_parsed (req_body req) = true ->
  (forall issues, chatMessageSchema (req_body req) = inl issues ->
     handle (post_chat clock req) s
     = Ret (mkResponse 500 (error_body (stringify (JArr issues))), s))
  /\ (forall issues, auditLogFilterSchema (queryParams req) = inl issues ->
        handle (get_audit_logs Date_parse now req) s
        = Ret (mkResponse 500 (error_body (stringify (JArr issues))), s))
  /\ (prop "message" (Some (req_body req)) = Some (JStr EmptyString) ->
        exists rest,
          handle (post_chat clock req) s
          = Ret (mkResponse 500
                   (error_body (stringify
                      (JArr (too_small_string 1 [JStr "message"] :: rest)))), s))
  /\ (forall n, q_size (queryParams req) = Some n -> n < 1 \/ 100 < n ->
        exists issues,
          In (Spec.size_issue n) issues
          /\ handle (get_audit_logs Date_parse now req) s
             = Ret (mkResponse 500 (error_body (stringify (JArr issues))), s))
  /\ (prop "snykApiToken" (Some (req_body req)) = None ->
        forall w,
          run w (handle (post_config clock req) s)
          = Fulfilled (mkResponse 400 (error_body "Snyk API token is required"), s))
  /\ (prop "provider" (Some (req_body req)) = None ->
        handle (post_llm_config now req) s
        = Ret (mkResponse 400
                 (error_body "provider, model, and apiKey are required"), s)).
Proof.
  intros _. split; [|split; [|split; [|split; [|split]]]].
  - intros issues. apply post_chat_invalid.
  - intros issues. apply get_audit_logs_invalid.
  - intros H. destruct (chat_empty_message_issue _ H) as [rest Hr].
    exists rest. now apply post_chat_invalid.
  - intros n Hq Hn. destruct (size_out_of_range_issue _ n Hq Hn) as (issues & Hi & Hin).
    exists issues. split; [exact Hin|]. now apply get_audit_logs_invalid.
  - intros H w. now apply post_config_no_token.
  - intros H. now apply post_llm_config_no_provider.
Qed.

Lemma validation_rejected_witness :
  exists rest,
    handle (post_chat (fun _ => 0) Sample.empty_chat) Sample.empty_state
    = Ret (mkResponse 500
             (error_body (stringify
                (JArr (too_small_string 1 [JStr "message"] :: rest)))),
           Sample.empty_state).
Proof.
  apply (proj1 (proj2 (proj2
    (validation_rejected (fun _ => None) (fun _ => 0) 0 Sample.empty_chat
       Sample.empty_state eq_refl)))).
  reflexivity.
Defined.

(** A chat request with an empty message is answered with status 500,
    which is not a 400-class status, and the state is as before. *)
Lemma chat_empty_message_500 :
  body_parsed (req_body Sample.empty_chat) = true
  /\ exists r,
       handle (post_chat (fun _ => 0) Sample.empty_chat) Sample.empty_state
       = Ret (r, Sample.empty_state)
       /\ status r = 500 /\ ~ (400 <= status r < 500).
Proof.
  split; [reflexivity|].
  eexists. split; [reflexivity|]. simpl. split; [reflexivity | lia].
Qed.

(** The same for an audit-log query asking for 500 items. *)
Lemma audit_logs_size_500 :
  exists r,
    handle (get_audit_logs (fun _ => None) 0
              (Sample.request (JObj []) [("size", JStr "500")]))
      Sample.empty_state
    = Ret (r, Sample.empty_state)
    /\ status r = 500.
Proof. eexists. split; reflexivity. Qed.

End ValidationClaims.

(** ** White-space-only LLM configuration *)

Module BlankConfigClaims.
Import JSON Async Llm Schema LlmService Routes Views ConfigEndpoints.

Lemma required_string_unusable (v : option Json) :
  required_string v = None <-> Spec.unusable v.
Proof.
  unfold required_string, Spec.unusable. split.
  - destruct v as [[| | |s| |]|]; intros H;
      try (right; left; eexists; split; [reflexivity | discriminate]);
      try (left; reflexivity).
    destruct s; [right; right; reflexivity | discriminate].
  - intros [ -> | [ (x & -> & Hx) | -> ] ]; try reflexivity.
    destruct x; try reflexivity. exfalso. exact (Hx s eq_refl).
Qed.

Lemma required_string_text (s : string) :
  JsString.truthy s = true -> required_string (Some (JStr s)) = Some s.
Proof. intros H. simpl. now rewrite H. Qed.

Lemma insights_of_unconfigured :
  insights_of UNCONFIGURED_MESSAGE = [JStr UNCONFIGURED_MESSAGE].
Proof. vm_compute. reflexivity. Qed.

(** With the no-op adapter selected, every orchestration ends without an
    external call. *)
Lemma analyzeAuditLogs_noop auditLogs llmConfig :
  getProvider llmConfig = createNoOpProvider ->
  analyzeAuditLogs auditLogs llmConfig = Ret [JStr UNCONFIGURED_MESSAGE].
Proof.
  intros H. unfold analyzeAuditLogs. rewrite H.
  cbn [generateText createNoOpProvider mbind io_bind bind try_catch].
  now rewrite insights_of_unconfigured.
Qed.

Lemma chatWithAI_noop message auditLogs previousMessages lines llmConfig :
  getProvider llmConfig = createNoOpProvider ->
  transcript previousMessages = inr lines ->
  chatWithAI message auditLogs previousMessages llmConfig = Ret UNCONFIGURED_MESSAGE.
Proof.
  intros H Ht. unfold chatWithAI. rewrite H, Ht. reflexivity.
Qed.

Lemma chatWithAI_noop_calls w message auditLogs previousMessages llmConfig :
  getProvider llmConfig = createNoOpProvider ->
  calls w (chatWithAI message auditLogs previousMessages llmConfig) = O.
Proof.
  intros H. unfold chatWithAI. rewrite H.
  destruct (transcript previousMessages); reflexivity.
Qed.

Lemma generateExecutiveSummary_noop now today auditLogs llmConfig :
  getProvider llmConfig = createNoOpProvider ->
  List.filter (is_recent now) auditLogs <> [] ->
  generateExecutiveSummary now today auditLogs llmConfig = Ret UNCONFIGURED_MESSAGE.
Proof.
  intros H Hr. unfold generateExecutiveSummary. rewrite H.
  destruct (List.filter (is_recent now) auditLogs); [congruence | reflexivity].
Qed.

Lemma generateExecutiveSummary_noop_calls w now today auditLogs llmConfig :
  getProvider llmConfig = createNoOpProvider ->
  calls w (generateExecutiveSummary now today auditLogs llmConfig) = O.
Proof.
  intros H. unfold generateExecutiveSummary. rewrite H.
  destruct (List.filter (is_recent now) auditLogs); reflexivity.
Qed.

(** A configuration with a blank field is never routed to a backend,
    neither as stored nor as a later read returns it. *)
Lemma stored_blank_routes_noop st sid sess (c : Store.Stored LLMConfig) now rnd :
  JsString.truthy sid = true ->
  st !! sid = Some sess ->
  Store.llmConfig sess = Some c ->
  getProvider (Some (Store.payload c)) = createNoOpProvider ->
  getProvider (llm_config_of
    (Store.result (Store.getLlmConfiguration st now (Store.follow_up sid rnd))))
  = createNoOpProvider.
Proof.
  intros Ht Hs Hc Hn.
  rewrite (StoreFacts.getLlmConfiguration_read st now sid rnd sess c Ht Hs Hc).
  destruct (_ || _); [reflexivity | exact Hn].
Qed.

Lemma trim_whitespace_only (s : string) :
  JsString.whitespace_only s = true -> JsString.trim s = EmptyString.
Proof.
  intros H. apply JsStringFacts.trim_empty. now apply JsStringFacts.whitespace_only_blank.
Qed.

Lemma blank_empty : JsString.blank EmptyString = true.
Proof. reflexivity. Qed.

(** C10 (as amended): [POST /api/llm-config] answers 400 exactly when one of
    provider, model and apiKey is absent, not a string, or the empty string,
    and 200 otherwise. So a request whose three fields are strings that are
    not empty, one of them made of white space only, is accepted with a 200
    response; the values are stored trimmed, the white-space-only one as the
    empty string; and from then on the stored configuration, as stored and
    as any later read returns it, routes to the no-op adapter: every
    generation call that reaches the provider gets the fixed message from
    it, and none makes an external call. *)
Theorem blank_llm_config_accepted now req s :
  let field k := prop k (Some (req_body req)) in
  (exists r s',
     handle (post_llm_config now req) s = Ret (r, s')
     /\ (status r = 400 \/ status r = 200)
     /\ (status r = 400 <->
         Spec.unusable (field "provider") \/ Spec.unusable (field "model")
         \/ Spec.unusable (field "apiKey")))
  /\ (forall p m k,
        field "provider" = Some (JStr p) -> field "model" = Some (JStr m) ->
        field "apiKey" = Some (JStr k) ->
        JsString.truthy p = true -> JsString.truthy m = true ->
        JsString.truthy k = true ->
        JsString.whitespace_only p = true \/ JsString.whitespace_only m = true
        \/ JsString.whitespace_only k = true ->
        let stored :=
          Store.mkLlmConfig (JsString.trim p) (JsString.trim m) (JsString.trim k)
            (optional_url (field "baseUrl")) in
        exists s' sid sess,
          handle (post_llm_config now req) s
          = Ret (mkResponse 200 (llm_view (JsString.trim p) (JsString.trim m)), s')
          /\ st_sessions s' !! sid = Some sess
          /\ Store.llmConfig sess = Some (Store.mkStored stored (now + 30 * 60 * 1000))
          /\ (JsString.whitespace_only p = true -> Store.provider stored = EmptyString)
          /\ (JsString.whitespace_only m = true -> Store.model stored = EmptyString)
          /\ (JsString.whitespace_only k = true -> Store.apiKey stored = EmptyString)
          /\ getProvider (Some stored) = createNoOpProvider
          /\ (forall now' rnd,
                getProvider (llm_config_of (Store.result
                  (Store.getLlmConfiguration (st_sessions s') now'
                     (Store.follow_up sid rnd))))
                = createNoOpProvider)
          /\ (forall logs,
                analyzeAuditLogs logs (Some stored) = Ret [JStr UNCONFIGURED_MESSAGE])
          /\ (forall text logs previous lines,
                transcript previous = inr lines ->
                chatWithAI text logs previous (Some stored) = Ret UNCONFIGURED_MESSAGE)
          /\ (forall now' today' logs,
                List.filter (is_recent now') logs <> [] ->
                generateExecutiveSummary now' today' logs (Some stored)
                = Ret UNCONFIGURED_MESSAGE)
          /\ (forall w now' today' text logs previous,
                calls w (analyzeAuditLogs logs (Some stored)) = O
                /\ calls w (chatWithAI text logs previous (Some stored)) = O
                /\ calls w (generateExecutiveSummary now' today' logs (Some stored)) = O)).
Proof.
  intros field. subst field. cbv beta. split.
  - rewrite handle_post_llm_config. cbv zeta.
    destruct (required_string (prop "provider" _)) as [p|] eqn:Ep.
    2:{ eexists _, _. split; [reflexivity|]. simpl. split; [auto|].
        split; [|reflexivity]. intros _. left. now apply required_string_unusable. }
    destruct (required_string (prop "model" _)) as [m|] eqn:Em.
    2:{ eexists _, _. split; [reflexivity|]. simpl. split; [auto|].
        split; [|reflexivity]. intros _. right. left.
        now apply required_string_unusable. }
    destruct (required_string (prop "apiKey" _)) as [k|] eqn:Ek.
    2:{ eexists _, _. split; [reflexivity|]. simpl. split; [auto|].
        split; [|reflexivity]. intros _. right. right.
        now apply required_string_unusable. }
    eexists _, _. split; [reflexivity|]. cbn [status fst]. split; [auto|].
    split; [discriminate|].
    intros [H|[H|H]]; apply required_string_unusable in H; congruence.
  - intros p m k Hp Hm Hk Tp Tm Tk Hblank stored.
    rewrite handle_post_llm_config. cbv zeta.
    rewrite Hp, Hm, Hk, !required_string_text by assumption.
    fold stored.
    destruct (StoreFacts.setLlmConfiguration_stored (st_sessions s) now
                (session_request req 0) stored 30) as (Ht & sess & Hs & _ & Hc).
    assert (Hnoop : getProvider (Some stored) = createNoOpProvider).
    { apply RouterClaims.getProvider_blank. subst stored. simpl.
      destruct Hblank as [H|[H|H]]; rewrite (trim_whitespace_only _ H);
        auto using blank_empty. }
    eexists _, _, sess. split; [reflexivity|].
    cbn [st_sessions]. split; [exact Hs|]. split; [exact Hc|].
    split; [apply trim_whitespace_only|]. split; [apply trim_whitespace_only|].
    split; [apply trim_whitespace_only|].
    split; [exact Hnoop|].
    split.
    { intros now' rnd.
      apply (stored_blank_routes_noop _ _ sess _ now' rnd Ht Hs Hc). exact Hnoop. }
    split; [intros; now apply analyzeAuditLogs_noop|].
    split; [intros; now apply (chatWithAI_noop _ _ _ lines)|].
    split; [intros; now apply generateExecutiveSummary_noop|].
    intros w now' today' text logs previous. split; [|split].
    + now rewrite (analyzeAuditLogs_noop logs (Some stored) Hnoop).
    + now apply chatWithAI_noop_calls.
    + now apply generateExecutiveSummary_noop_calls.
Qed.

Lemma blank_llm_config_accepted_witness :
  exists s' sid sess,
    handle (post_llm_config 0 Sample.blank_provider) Sample.empty_state
    = Ret (mkResponse 200 (llm_view EmptyString "gpt-4o-mini"), s')
    /\ st_sessions s' !! sid = Some sess
    /\ Store.llmConfig sess
       = Some (Store.mkStored
                 (Store.mkLlmConfig EmptyString "gpt-4o-mini" "sk-test" None)
                 (0 + 30 * 60 * 1000)).
Proof.
  destruct (proj2 (blank_llm_config_accepted 0 Sample.blank_provider Sample.empty_state)
              "  " "gpt-4o-mini" "sk-test" eq_refl eq_refl eq_refl eq_refl eq_refl
              eq_refl (or_introl eq_refl))
    as (s' & sid & sess & H1 & H2 & H3 & _).
  exists s', sid, sess. split; [exact H1 | split; [exact H2 | exact H3]].
Defined.

(** C10, the claim as worded, fails on what is rejected: a request whose
    three fields are all present and all strings, the provider being the
    empty string, is answered with 400. *)
Lemma empty_provider_counterexample :
  let body := req_body Sample.empty_provider in
  prop "provider" (Some body) = Some (JStr EmptyString)
  /\ prop "model" (Some body) = Some (JStr "gpt-4o-mini")
  /\ prop "apiKey" (Some body) = Some (JStr "sk-test")
  /\ handle (post_llm_config 0 Sample.empty_provider) Sample.empty_state
     = Ret (mkResponse 400 (error_body "provider, model, and apiKey are required"),
            Sample.empty_state).
Proof. repeat split. Qed.

End BlankConfigClaims.

(** ** More about the session store: sweep, isolation, extension *)

Module StoreSweep.
Import Store StoreFacts.

(** The sweep keeps exactly the sessions that are not idle beyond the
    timeout, as they are. *)
Lemma lookup_cleanup st now sid s :
  cleanupExpiredSessions st now !! sid = Some s
  <-> st !! sid = Some s /\ now - lastAccessed s <= SESSION_TIMEOUT.
Proof.
  unfold cleanupExpiredSessions. rewrite map_lookup_filter_Some. simpl.
  destruct (now - lastAccessed s >? SESSION_TIMEOUT) eqn:E; simpl;
    split; intros [H1 H2]; split; auto; try discriminate; lia.
Qed.

Lemma cleanup_insert_touched st now sid s :
  lastAccessed s = now ->
  cleanupExpiredSessions (<[sid := s]> st) now
  = <[sid := s]> (cleanupExpiredSessions st now).
Proof.
  intros H. unfold cleanupExpiredSessions. apply map_filter_insert_True.
  simpl. rewrite H. replace (now - now) with 0 by lia. reflexivity.
Qed.

Lemma cleanup_delete st now sid :
  cleanupExpiredSessions (delete sid st) now
  = delete sid (cleanupExpiredSessions st now).
Proof. apply map_filter_delete. Qed.

Lemma cleanup_lookup_idle st now sid s :
  st !! sid = Some s -> now - lastAccessed s > SESSION_TIMEOUT ->
  cleanupExpiredSessions st now !! sid = None.
Proof.
  intros Hs Hi. destruct (cleanupExpiredSessions st now !! sid) as [s'|] eqn:E;
    [|reflexivity].
  apply lookup_cleanup in E as [E1 E2]. assert (s' = s) by congruence. subst. lia.
Qed.

Lemma cleanup_lookup_live st now sid s :
  st !! sid = Some s -> now - lastAccessed s <= SESSION_TIMEOUT ->
  cleanupExpiredSessions st now !! sid = Some s.
Proof. intros. apply lookup_cleanup. auto. Qed.

Lemma cleanup_lookup_none st now sid :
  st !! sid = None -> cleanupExpiredSessions st now !! sid = None.
Proof.
  intros Hs. destruct (cleanupExpiredSessions st now !! sid) as [s'|] eqn:E;
    [|reflexivity].
  apply lookup_cleanup in E as [E1 E2]. congruence.
Qed.

Lemma getOrCreateSessionId_sweep st now req :
  let o := getOrCreateSessionId st now req in
  getOrCreateSessionId (cleanupExpiredSessions st now) now req
  = mkOutcome (result o) (cleanupExpiredSessions (sessions o) now) (cookies o).
Proof.
  unfold getOrCreateSessionId, createSession.
  destruct (cookie req) as [sid|]; simpl.
  2:{ now rewrite cleanup_insert_touched. }
  destruct (JsString.truthy sid); simpl.
  2:{ now rewrite cleanup_insert_touched. }
  destruct (st !! sid) as [s|] eqn:Hs.
  2:{ rewrite (cleanup_lookup_none _ _ _ Hs). simpl.
      now rewrite cleanup_insert_touched. }
  destruct (now - lastAccessed s >? SESSION_TIMEOUT) eqn:E.
  - rewrite (cleanup_lookup_idle _ _ _ _ Hs) by lia. simpl.
    rewrite cleanup_insert_touched by reflexivity.
    rewrite cleanup_delete.
    rewrite (delete_id (cleanupExpiredSessions st now) sid)
      by (apply (cleanup_lookup_idle _ _ _ _ Hs); lia).
    reflexivity.
  - rewrite (cleanup_lookup_live _ _ _ _ Hs) by lia. rewrite E. simpl.
    now rewrite cleanup_insert_touched.
Qed.

(** The session a call resolves survives a sweep made at the same time. *)
Lemma resolved_survives st now req :
  let o := getOrCreateSessionId st now req in
  exists s, sessions o !! result o = Some s /\ lastAccessed s = now
            /\ cleanupExpiredSessions (sessions o) now !! result o = Some s.
Proof.
  intros o. destruct (getOrCreateSessionId_resolved st now req) as (_ & s & Hs & Hl & _).
  exists s. repeat split; auto. apply cleanup_lookup_live; [exact Hs|].
  rewrite Hl. unfold SESSION_TIMEOUT. lia.
Qed.

Lemma update_session_sweep st now req f :
  (forall s, lastAccessed (f s) = lastAccessed s) ->
  let o := getOrCreateSessionId st now req in
  update_session f (result o) (cleanupExpiredSessions (sessions o) now)
  = cleanupExpiredSessions (update_session f (result o) (sessions o)) now.
Proof.
  intros Hf o. destruct (resolved_survives st now req) as (s & Hs & Hl & Hc).
  fold o in Hs, Hc. unfold update_session. rewrite Hs, Hc.
  rewrite cleanup_insert_touched by (rewrite Hf; exact Hl). reflexivity.
Qed.

Ltac sweep_step st now req :=
  let s := fresh "s" in
  let Hs := fresh "Hs" in
  let Hl := fresh "Hl" in
  let Hc := fresh "Hc" in
  destruct (resolved_survives st now req) as (s & Hs & Hl & Hc);
  cbv zeta in Hs, Hc;
  rewrite getOrCreateSessionId_sweep; cbn [result sessions cookies];
  rewrite ?Hs, ?Hc.

(** X1: the periodic sweep is invisible to the callers of the store. Every
    operation made on the swept store gives the answer it gives on the
    store as it was, writes the same cookies, and leaves the store it would
    have left, swept: lazy expiry on access already treats idle sessions as
    gone. *)
Theorem sweep_commutes st now req cfgS cfgL T :
  let clean := cleanupExpiredSessions st now in
  getApiConfiguration clean now req = Notions.swept now (getApiConfiguration st now req)
  /\ getLlmConfiguration clean now req
     = Notions.swept now (getLlmConfiguration st now req)
  /\ getTimeUntilExpiration clean now req
     = Notions.swept now (getTimeUntilExpiration st now req)
  /\ setApiConfiguration clean now req cfgS T
     = Notions.swept now (setApiConfiguration st now req cfgS T)
  /\ setLlmConfiguration clean now req cfgL T
     = Notions.swept now (setLlmConfiguration st now req cfgL T)
  /\ extendConfiguration clean now req T
     = Notions.swept now (extendConfiguration st now req T)
  /\ clearConfiguration clean now req
     = Notions.swept now (clearConfiguration st now req)
  /\ clearLlmConfiguration clean now req
     = Notions.swept now (clearLlmConfiguration st now req).
Proof.
  intros clean. subst clean. unfold Notions.swept.
  repeat split.
  - unfold getApiConfiguration. sweep_step st now req.
    destruct (snykConfig s) as [c|]; [|reflexivity].
    destruct (now >? expiresAt c); [|reflexivity].
    cbn [result sessions cookies]. now rewrite cleanup_insert_touched.
  - unfold getLlmConfiguration. sweep_step st now req.
    destruct (llmConfig s) as [c|]; [|reflexivity].
    destruct (now >? expiresAt c); [|reflexivity].
    cbn [result sessions cookies]. now rewrite cleanup_insert_touched.
  - unfold getTimeUntilExpiration. sweep_step st now req.
    destruct (snykConfig s) as [c|]; reflexivity.
  - unfold setApiConfiguration. rewrite getOrCreateSessionId_sweep.
    cbn [result sessions cookies]. now rewrite update_session_sweep.
  - unfold setLlmConfiguration. rewrite getOrCreateSessionId_sweep.
    cbn [result sessions cookies]. now rewrite update_session_sweep.
  - unfold extendConfiguration. sweep_step st now req.
    destruct (snykConfig s) as [c|]; [|reflexivity].
    destruct (now >? expiresAt c); [reflexivity|].
    cbn [result sessions cookies]. now rewrite cleanup_insert_touched.
  - unfold clearConfiguration. rewrite getOrCreateSessionId_sweep.
    cbn [result sessions cookies].
    rewrite update_session_sweep by reflexivity. now rewrite cleanup_delete.
  - unfold clearLlmConfiguration. rewrite getOrCreateSessionId_sweep.
    cbn [result sessions cookies]. now rewrite update_session_sweep.
Qed.

(** X2: after the sweep a session is in the store exactly when it was there
    and has not been idle for more than 30 minutes, with the records it
    had; sweeping twice, or sweeping again later, removes nothing a single
    sweep at the later time would keep. *)
Theorem sweep_keeps_live st now now' :
  (forall sid s,
     cleanupExpiredSessions st now !! sid = Some s
     <-> st !! sid = Some s /\ now - lastAccessed s <= SESSION_TIMEOUT)
  /\ cleanupExpiredSessions (cleanupExpiredSessions st now) now
     = cleanupExpiredSessions st now
  /\ (now <= now' ->
      cleanupExpiredSessions (cleanupExpiredSessions st now) now'
      = cleanupExpiredSessions st now').
Proof.
  split; [intros; apply lookup_cleanup|]. split.
  - apply map_eq. intros sid. apply option_eq. intros s.
    rewrite !lookup_cleanup. tauto.
  - intros H. apply map_eq. intros sid. apply option_eq. intros s.
    rewrite !lookup_cleanup. split; [tauto|]. intros [H1 H2].
    repeat split; auto. lia.
Qed.

Lemma sweep_keeps_live_witness :
  let st : gmap string CookieSession :=
    {[ "old" := mkSession "old" None None 0 0 ]} in
  cleanupExpiredSessions (cleanupExpiredSessions st 1000) 2000
  = cleanupExpiredSessions st 2000.
Proof.
  intros st. apply (sweep_keeps_live st 1000 2000). lia.
Defined.

End StoreSweep.

Module StoreMore.
Import Store StoreFacts.

Lemma getOrCreateSessionId_other st now req sid' :
  cookie req <> Some sid' ->
  sid' <> result (getOrCreateSessionId st now req) ->
  sessions (getOrCreateSessionId st now req) !! sid' = st !! sid'.
Proof.
  unfold getOrCreateSessionId, createSession.
  destruct (cookie req) as [sid|]; simpl.
  2:{ intros _ H. now rewrite lookup_insert_ne. }
  intros Hc. assert (sid <> sid') by congruence.
  destruct (JsString.truthy sid); simpl.
  2:{ intros H'. now rewrite lookup_insert_ne. }
  destruct (st !! sid) as [s|]; simpl.
  2:{ intros H'. now rewrite lookup_insert_ne. }
  destruct (now - lastAccessed s >? SESSION_TIMEOUT); simpl; intros H'.
  - rewrite lookup_insert_ne by auto. now rewrite lookup_delete_ne.
  - now rewrite lookup_insert_ne.
Qed.

Lemma update_session_other f sid sid' (st : gmap string CookieSession) :
  sid' <> sid -> update_session f sid st !! sid' = st !! sid'.
Proof.
  intros H. unfold update_session. destruct (st !! sid); [|reflexivity].
  now rewrite lookup_insert_ne.
Qed.

(** X3: sessions are isolated from one another. Whatever the operation, a
    session other than the one the request names and the one the call
    resolves to is left exactly as it was. *)
Theorem other_sessions_untouched st now req sid' cfgS cfgL T :
  cookie req <> Some sid' ->
  sid' <> result (getOrCreateSessionId st now req) ->
  sessions (getApiConfiguration st now req) !! sid' = st !! sid'
  /\ sessions (getLlmConfiguration st now req) !! sid' = st !! sid'
  /\ sessions (getTimeUntilExpiration st now req) !! sid' = st !! sid'
  /\ sessions (setApiConfiguration st now req cfgS T) !! sid' = st !! sid'
  /\ sessions (setLlmConfiguration st now req cfgL T) !! sid' = st !! sid'
  /\ sessions (extendConfiguration st now req T) !! sid' = st !! sid'
  /\ sessions (clearConfiguration st now req) !! sid' = st !! sid'
  /\ sessions (clearLlmConfiguration st now req) !! sid' = st !! sid'.
Proof.
  intros Hc Hr.
  pose proof (getOrCreateSessionId_other st now req sid' Hc Hr) as Ho.
  repeat split.
  - unfold getApiConfiguration.
    destruct (sessions _ !! result _) as [s|]; [|exact Ho].
    destruct (snykConfig s) as [c|]; [|exact Ho].
    destruct (now >? expiresAt c); [|exact Ho].
    cbn [sessions]. now rewrite lookup_insert_ne.
  - unfold getLlmConfiguration.
    destruct (sessions _ !! result _) as [s|]; [|exact Ho].
    destruct (llmConfig s) as [c|]; [|exact Ho].
    destruct (now >? expiresAt c); [|exact Ho].
    cbn [sessions]. now rewrite lookup_insert_ne.
  - unfold getTimeUntilExpiration.
    destruct (sessions _ !! result _) as [s|]; [|exact Ho].
    destruct (snykConfig s) as [c|]; exact Ho.
  - unfold setApiConfiguration. cbn [sessions].
    now rewrite update_session_other.
  - unfold setLlmConfiguration. cbn [sessions].
    now rewrite update_session_other.
  - unfold extendConfiguration.
    destruct (sessions _ !! result _) as [s|]; [|exact Ho].
    destruct (snykConfig s) as [c|]; [|exact Ho].
    destruct (now >? expiresAt c); [exact Ho|].
    cbn [sessions]. now rewrite lookup_insert_ne.
  - unfold clearConfiguration. cbn [sessions].
    rewrite lookup_delete_ne by auto. now rewrite update_session_other.
  - unfold clearLlmConfiguration. cbn [sessions].
    now rewrite update_session_other.
Qed.

Lemma other_sessions_untouched_witness :
  let mine := mkSession "mine" None None 0 0 in
  let other := mkSession "other" (Some (mkStored Sample.snyk 1800000)) None 0 0 in
  let st : gmap string CookieSession := <["mine" := mine]> {[ "other" := other ]} in
  sessions (clearConfiguration st 1000 (follow_up "mine" [])) !! "other" = Some other
  /\ sessions (setApiConfiguration st 1000 (follow_up "mine" []) Sample.snyk 30) !! "other"
     = Some other.
Proof.
  intros mine other st.
  destruct (other_sessions_untouched st 1000 (follow_up "mine" []) "other"
              Sample.snyk Sample.llm 30)
    as (_ & _ & _ & H4 & _ & _ & H7 & _).
  - discriminate.
  - vm_compute. discriminate.
  - split; [rewrite H7 | rewrite H4]; reflexivity.
Defined.

(** Reading a session that holds no upstream record. *)
Lemma getApiConfiguration_read_none st now sid rnd s :
  JsString.truthy sid = true ->
  st !! sid = Some s ->
  snykConfig s = None ->
  result (getApiConfiguration st now (follow_up sid rnd)) = None.
Proof.
  intros Ht Hs Hc. unfold getApiConfiguration.
  destruct (now - lastAccessed s >? SESSION_TIMEOUT) eqn:E.
  - rewrite (getOrCreateSessionId_idle st now sid rnd s) by (auto; lia).
    unfold createSession. simpl. rewrite lookup_insert_eq. reflexivity.
  - rewrite (getOrCreateSessionId_live st now sid rnd s) by (auto; lia).
    simpl. rewrite lookup_insert_eq. simpl. rewrite Hc. reflexivity.
Qed.

(** X4: an extension is refused exactly when the session holds no upstream
    record or holds one that has expired, and a refused extension does not
    bring the record back: from then on every read of the session returns
    absent. *)
Theorem extend_refused st now req minutes :
  let o0 := getOrCreateSessionId st now req in
  let o := extendConfiguration st now req minutes in
  (result o = false <->
     forall s c, sessions o0 !! result o0 = Some s -> snykConfig s = Some c ->
                 now > expiresAt c)
  /\ (result o = false ->
      forall now' rnd, now <= now' ->
        result (getApiConfiguration (sessions o) now' (follow_up (result o0) rnd))
        = None).
Proof.
  intros o0 o.
  destruct (getOrCreateSessionId_resolved st now req) as (Ht & s & Hs & Hl & _).
  fold o0 in Ht, Hs. subst o. unfold extendConfiguration. fold o0. rewrite Hs.
  destruct (snykConfig s) as [c|] eqn:Hc.
  - destruct (now >? expiresAt c) eqn:E; cbn [result sessions].
    + split.
      * split; [|reflexivity]. intros _ s' c' Hs' Hc'.
        assert (s' = s) by congruence. subst. assert (c' = c) by congruence.
        subst. lia.
      * intros _ now' rnd Hn.
        rewrite (getApiConfiguration_read _ now' _ rnd s c Ht Hs Hc).
        destruct (now' - lastAccessed s >? SESSION_TIMEOUT); [reflexivity|].
        destruct (now' >? expiresAt c) eqn:E'; [reflexivity | lia].
    + split; [|discriminate]. split; [discriminate|].
      intros H. specialize (H s c eq_refl Hc). lia.
  - cbn [result sessions]. split.
    + split; [|reflexivity]. intros _ s' c' Hs' Hc'.
      assert (s' = s) by congruence. subst. congruence.
    + intros _ now' rnd _.
      apply (getApiConfiguration_read_none _ now' _ rnd s Ht Hs Hc).
Qed.

Lemma extend_refused_witness :
  let st : gmap string CookieSession :=
    {[ "s1" := mkSession "s1" (Some (mkStored Sample.snyk 500)) None 0 0 ]} in
  result (extendConfiguration st 1000 (follow_up "s1" []) 30) = false
  /\ result (getApiConfiguration
               (sessions (extendConfiguration st 1000 (follow_up "s1" []) 30))
               2000 (follow_up "s1" []))
     = None.
Proof.
  intros st. split; [reflexivity|].
  apply (proj2 (extend_refused st 1000 (follow_up "s1" []) 30) eq_refl 2000 []).
  lia.
Defined.

(** X5: a granted extension measures the new expiry from the time of the
    call, not from the old expiry: right after it the record has exactly
    the requested minutes left (none for a negative request), whatever it
    had before, so an extension can also shorten a record's life; the
    payload is unchanged. *)
Theorem extend_granted st now req minutes :
  let o0 := getOrCreateSessionId st now req in
  let o := extendConfiguration st now req minutes in
  result o = true ->
  exists s c,
    sessions o0 !! result o0 = Some s /\ snykConfig s = Some c
    /\ now <= expiresAt c
    /\ (forall rnd,
          result (getTimeUntilExpiration (sessions o) now (follow_up (result o0) rnd))
          = Some (Z.max 0 minutes))
    /\ (forall now' rnd,
          result (getApiConfiguration (sessions o) now' (follow_up (result o0) rnd))
          = if (now' - now >? SESSION_TIMEOUT) || (now' >? now + minutes * 60 * 1000)
            then None else Some (payload c, result o0)).
Proof.
  intros o0 o.
  destruct (getOrCreateSessionId_resolved st now req) as (Ht & s & Hs & Hl & _).
  fold o0 in Ht, Hs. subst o. unfold extendConfiguration. fold o0. rewrite Hs.
  destruct (snykConfig s) as [c|] eqn:Hc; [|discriminate].
  destruct (now >? expiresAt c) eqn:E; [discriminate|].
  cbn [result sessions]. intros _. exists s, c.
  split; [reflexivity|]. split; [exact Hc|]. split; [lia|]. split.
  - intros rnd. unfold getTimeUntilExpiration.
    rewrite (getOrCreateSessionId_live _ now (result o0) rnd
               (set_snykConfig (Some (mkStored (payload c) (now + minutes * 60 * 1000))) s)
               Ht (lookup_insert_eq _ _ _))
      by (simpl; rewrite Hl; unfold SESSION_TIMEOUT; lia).
    cbn [result sessions]. rewrite lookup_insert_eq. simpl.
    replace (now + minutes * 60 * 1000 - now) with (minutes * (60 * 1000)) by lia.
    now rewrite Z.div_mul.
  - intros now' rnd.
    erewrite getApiConfiguration_read;
      [ | exact Ht | apply lookup_insert_eq | reflexivity ].
    simpl. now rewrite Hl.
Qed.

Lemma extend_granted_witness :
  let st : gmap string CookieSession :=
    {[ "s1" := mkSession "s1" (Some (mkStored Sample.snyk 1800000)) None 0 0 ]} in
  let o := extendConfiguration st 1000 (follow_up "s1" []) 5 in
  result (getTimeUntilExpiration (sessions o) 1000 (follow_up "s1" [])) = Some 5.
Proof.
  intros st o.
  destruct (extend_granted st 1000 (follow_up "s1" []) 5 eq_refl)
    as (s & c & _ & _ & _ & H & _).
  exact (H []).
Defined.

(** X6: the minutes left of a record are never negative and are rounded
    down: a live record with [r] minutes left expires between [r] and
    [r + 1] minutes from now. A record that has already expired still
    reports zero minutes (not absent), and asking does not remove it. *)
Theorem remaining_minutes st now sid rnd s c :
  JsString.truthy sid = true ->
  st !! sid = Some s ->
  now - lastAccessed s <= SESSION_TIMEOUT ->
  snykConfig s = Some c ->
  let o := getTimeUntilExpiration st now (follow_up sid rnd) in
  exists r,
    result o = Some r /\ 0 <= r
    /\ (now <= expiresAt c ->
        r * (60 * 1000) <= expiresAt c - now < (r + 1) * (60 * 1000))
    /\ (expiresAt c < now -> r = 0)
    /\ exists s', sessions o !! sid = Some s' /\ snykConfig s' = Some c.
Proof.
  intros Ht Hs Hl Hc o. subst o. unfold getTimeUntilExpiration.
  rewrite (getOrCreateSessionId_live st now sid rnd s Ht Hs Hl).
  cbn [result sessions]. rewrite lookup_insert_eq. simpl. rewrite Hc.
  cbn [result sessions].
  exists (Z.max 0 ((expiresAt c - now) / (60 * 1000))).
  split; [reflexivity|]. split; [lia|].
  pose proof (Z.div_mod (expiresAt c - now) (60 * 1000) ltac:(lia)) as Hd.
  pose proof (Z.mod_pos_bound (expiresAt c - now) (60 * 1000) ltac:(lia)) as Hm.
  split; [|split].
  - intros Hle.
    assert (0 <= (expiresAt c - now) / (60 * 1000))
      by (apply Z.div_pos; lia).
    rewrite Z.max_r by lia. lia.
  - intros Hlt.
    assert ((expiresAt c - now) / (60 * 1000) < 0)
      by (apply Z.div_lt_upper_bound; lia).
    lia.
  - eexists. split; [apply lookup_insert_eq | exact Hc].
Qed.

Lemma remaining_minutes_witness :
  let s := mkSession "s1" (Some (mkStored Sample.snyk 500)) None 0 0 in
  let st : gmap string CookieSession := {[ "s1" := s ]} in
  let o := getTimeUntilExpiration st 1000 (follow_up "s1" []) in
  result o = Some 0
  /\ exists s', sessions o !! "s1" = Some s'
                /\ snykConfig s' = Some (mkStored Sample.snyk 500).
Proof.
  intros s st o.
  destruct (remaining_minutes st 1000 "s1" [] s (mkStored Sample.snyk 500)
              eq_refl (lookup_singleton_eq _ _) ltac:(vm_compute; discriminate) eq_refl)
    as (r & H1 & _ & _ & H4 & H5).
  split; [|exact H5].
  fold o in H1. rewrite H1. f_equal. apply H4. simpl. lia.
Defined.

End StoreMore.

(** ** More about the adapters *)

Module AdapterMore.
Import JSON Async Llm AsyncFacts.

Lemma calls_gemini_text w response : calls w (gemini_text response) = O.
Proof.
  unfold gemini_text.
  destruct (g_text response) as [t|]; [destruct (JsString.truthy t); [reflexivity|]|];
    destruct (candidate_text response) as [v|]; try reflexivity;
    destruct (truthy v); reflexivity.
Qed.

Lemma calls_anthropic_text w data : calls w (anthropic_text data) = O.
Proof.
  unfold anthropic_text.
  destruct (match prop "content" (Some data) with
            | Some JNull => _ | Some (JArr blocks) => _ | Some _ => _ | None => _
            end) as [e|block]; [reflexivity|].
  destruct (prop "text" block) as [[]|]; reflexivity.
Qed.

Lemma gemini_single_call w config messages options :
  calls w (generateText (createGeminiProvider config) messages options) = 1%nat.
Proof.
  cbn [generateText createGeminiProvider mbind io_bind bind await_settled calls].
  destruct (w _ _) as [response|e]; cbn [bind calls]; [|reflexivity].
  now rewrite calls_gemini_text.
Qed.

Lemma openai_single_call w config messages options :
  calls w (generateText (createOpenAIProvider config) messages options) = 1%nat.
Proof.
  cbn [generateText createOpenAIProvider mbind io_bind bind await_settled calls].
  destruct (w _ _) as [res|e]; cbn [bind calls]; [|reflexivity].
  destruct (negb (ok res)); [reflexivity|].
  destruct (json res) as [data|e]; [|reflexivity].
  destruct data; try reflexivity;
    destruct (prop "content" _) as [[]|]; reflexivity.
Qed.

Lemma anthropic_single_call w config messages options :
  calls w (generateText (createAnthropicProvider config) messages options) = 1%nat.
Proof.
  cbn [generateText createAnthropicProvider mbind io_bind bind await_settled calls].
  destruct (w _ _) as [res|e]; cbn [bind calls]; [|reflexivity].
  destruct (negb (ok res)); [reflexivity|].
  destruct (json res) as [data|e]; [|reflexivity].
  destruct data; try reflexivity; now rewrite calls_anthropic_text.
Qed.

(** X7: an adapter makes a single attempt. Whatever the configuration, the
    messages and the answer of the backend (a success, a failure status, a
    network error), [generateText] makes exactly one external call: nothing
    is retried. *)
Theorem adapters_single_attempt (w : World) config messages options :
  calls w (generateText (createGeminiProvider config) messages options) = 1%nat
  /\ calls w (generateText (createOpenAIProvider config) messages options) = 1%nat
  /\ calls w (generateText (createAnthropicProvider config) messages options) = 1%nat.
Proof.
  split; [apply gemini_single_call|].
  split; [apply openai_single_call | apply anthropic_single_call].
Qed.

Lemma getProvider_calls w config messages options :
  (calls w (generateText (getProvider config) messages options) <= 1)%nat.
Proof.
  rewrite RouterClaims.getProvider_spec. unfold Spec.router.
  destruct config as [c|]; [|simpl; lia].
  destruct (_ || _); [simpl; lia|].
  destruct (Spec.family_of _) as [[]|]; [| | |simpl; lia]; unfold Spec.adapter.
  - rewrite gemini_single_call. lia.
  - rewrite openai_single_call. lia.
  - rewrite anthropic_single_call. lia.
Qed.

(** X8: the error contract of the two adapters that speak HTTP. When the
    request cannot be made the network error is thrown as it is. On a
    status that is not a success the adapter throws an [Error] and never
    returns a text, and its message is this one: the [error.message] of the
    response body, as a string, when the body is JSON and has one that is
    truthy; the provider's name with the status in every other case (a body
    that is not JSON, one without [error.message], one whose
    [error.message] is empty, zero, [false] or [null]). *)
Theorem http_failure_is_thrown (w : World) config messages options :
  let openai := openai_request config messages options in
  let anthropic := anthropic_request config messages options in
  let thrown res fallback :=
    Error
      match prop "message"
              (prop "error"
                 (Some (match json res with
                        | Fulfilled v => v
                        | Rejected _ => JObj []
                        end))) with
      | Some v => if truthy v then toString v else fallback
      | None => fallback
      end in
  (forall e, w _ (Fetch openai) = Rejected e ->
     run w (generateText (createOpenAIProvider config) messages options) = Rejected e)
  /\ (forall e, w _ (Fetch anthropic) = Rejected e ->
        run w (generateText (createAnthropicProvider config) messages options)
        = Rejected e)
  /\ (forall res, w _ (Fetch openai) = Fulfilled res -> ok res = false ->
        run w (generateText (createOpenAIProvider config) messages options)
        = Rejected (thrown res ("OpenAI API error: " ++ JsString.of_Z (status res))))
  /\ (forall res, w _ (Fetch anthropic) = Fulfilled res -> ok res = false ->
        run w (generateText (createAnthropicProvider config) messages options)
        = Rejected
            (thrown res ("Anthropic API error: " ++ JsString.of_Z (status res)))).
Proof.
  intros openai anthropic thrown.
  assert (Hthrown : forall res fallback, api_error res fallback = thrown res fallback).
  { intros res fallback. unfold api_error, thrown.
    destruct (prop "message" _) as [v|]; [|reflexivity].
    destruct (truthy v); reflexivity. }
  repeat split.
  - intros e H.
    cbn [generateText createOpenAIProvider mbind io_bind bind await_settled run].
    fold openai. now rewrite H.
  - intros e H.
    cbn [generateText createAnthropicProvider mbind io_bind bind await_settled run].
    fold anthropic. now rewrite H.
  - intros res H Hok.
    cbn [generateText createOpenAIProvider mbind io_bind bind await_settled run].
    fold openai. rewrite H. cbn [bind]. rewrite Hok. cbn [negb run].
    now rewrite Hthrown.
  - intros res H Hok.
    cbn [generateText createAnthropicProvider mbind io_bind bind await_settled run].
    fold anthropic. rewrite H. cbn [bind]. rewrite Hok. cbn [negb run].
    now rewrite Hthrown.
Qed.

(** A 429 whose body names the failure, and a 503 whose body is not JSON. *)
Lemma http_failure_is_thrown_witness :
  let answering (res : FetchResponse) : World := fun X ev =>
    match ev in Event T return T with
    | Fetch _ => Fulfilled res
    | other => Sample.world "unused" _ other
    end in
  let limited :=
    mkFetchResponse false 429
      (Fulfilled (JObj [("error", JObj [("message", JStr "Rate limited")])])) in
  let down :=
    mkFetchResponse false 503
      (Rejected (mkError "SyntaxError" "Unexpected token < in JSON")) in
  run (answering limited) (generateText (createOpenAIProvider Sample.llm) [] None)
  = Rejected (Error "Rate limited")
  /\ run (answering down) (generateText (createAnthropicProvider Sample.llm) [] None)
     = Rejected (Error "Anthropic API error: 503").
Proof.
  intros answering limited down. split.
  - exact (proj1 (proj2 (proj2
             (http_failure_is_thrown (answering limited) Sample.llm [] None)))
             limited eq_refl eq_refl).
  - exact (proj2 (proj2 (proj2
             (http_failure_is_thrown (answering down) Sample.llm [] None)))
             down eq_refl eq_refl).
Defined.

Lemma last_cons_default {A} (a : A) (l : list A) (d : A) :
  List.last (a :: l) d = List.last l a.
Proof.
  revert a d. induction l as [|b l IH]; intros a d; [reflexivity|].
  change (List.last (a :: b :: l) d) with (List.last (b :: l) d).
  rewrite IH. symmetry. apply IH.
Qed.

Lemma anthropic_split_spec messages system_ acc :
  anthropic_split messages system_ acc
  = (List.last (map (fun m => Some (content m)) (List.filter Notions.is_system messages))
       system_,
     (acc ++ map Notions.anthropic_turn
               (List.filter (fun m => negb (Notions.is_system m)) messages))%list).
Proof.
  revert system_ acc. induction messages as [|m r IH]; intros system_ acc.
  - simpl. now rewrite app_nil_r.
  - cbn [anthropic_split List.filter].
    assert (Hsys : Notions.is_system m
                   = match role m with system => true | _ => false end)
      by reflexivity.
    assert (Hturn : Notions.anthropic_turn m
                    = mkApiMessage
                        (match role m with assistant => "assistant" | _ => "user" end)
                        (content m))
      by reflexivity.
    rewrite Hsys.
    destruct (role m) eqn:Hr; rewrite IH; cbn [negb map].
    + rewrite Hturn, <- app_assoc. reflexivity.
    + rewrite Hturn, <- app_assoc. reflexivity.
    + now rewrite last_cons_default.
Qed.

(** X9: how the Anthropic adapter splits a conversation. The messages it
    sends are the messages that are not system messages, in their order,
    an assistant message as assistant and any other as user; of the system
    messages only the last one is sent, in the [system] field, and not even
    that one when its content is empty: earlier system messages are
    dropped. *)
Theorem anthropic_conversation config messages options :
  body (anthropic_request config messages options)
  = AnthropicBody (Store.model config) (option_or options maxOutputTokens 4096)
      (map Notions.anthropic_turn
         (List.filter (fun m => negb (Notions.is_system m)) messages))
      (match Notions.last_system messages with
       | Some s => if JsString.truthy s then Some s else None
       | None => None
       end).
Proof.
  unfold anthropic_request. rewrite anthropic_split_spec. reflexivity.
Qed.

(** X10: an empty text from the backend. The Gemini adapter treats an
    empty text as no text at all: when [response.text] is absent or empty
    and the text of the first part of the first candidate is absent or
    falsy (the empty string among them), it throws. The OpenAI adapter
    returns an empty content as it is, so only there the chat fallback
    sentence is what the user reads. *)
Theorem empty_text_from_backend (w : World) config messages options :
  (forall response,
     w _ (GenerateContent
            (mkGeminiCall (Store.apiKey config) (Store.model config)
               (gemini_contents messages)
               (option_or options maxOutputTokens 4096)
               (option_or options temperature (1 # 10)%Q)
               (option_or options topP (9 # 10)%Q)
               (option_or options topK 40)))
     = Fulfilled response ->
     g_text response = None \/ g_text response = Some EmptyString ->
     match candidate_text response with
     | Some v => truthy v
     | None => false
     end = false ->
     run w (generateText (createGeminiProvider config) messages options)
     = Rejected (Error "No text in Gemini response"))
  /\ (forall res data,
        w _ (Fetch (openai_request config messages options)) = Fulfilled res ->
        ok res = true -> json res = Fulfilled data ->
        prop "content" (prop "message" (first (prop "choices" (Some data))))
        = Some (JStr EmptyString) ->
        run w (generateText (createOpenAIProvider config) messages options)
        = Fulfilled EmptyString).
Proof.
  split.
  - intros response H Ht Hc.
    cbn [generateText createGeminiProvider mbind io_bind bind await_settled run].
    rewrite H. cbn [bind]. unfold gemini_text.
    destruct Ht as [-> | ->]; cbn [JsString.truthy];
      destruct (candidate_text response) as [v|]; try reflexivity;
      rewrite Hc; reflexivity.
  - intros res data H Hok Hj Hp.
    cbn [generateText createOpenAIProvider mbind io_bind bind await_settled run].
    rewrite H. cbn [bind]. rewrite Hok, Hj.
    destruct data; try discriminate Hp; rewrite Hp; reflexivity.
Qed.

(** A Gemini response whose text and whose first part are both empty, and
    an OpenAI response whose content is empty. *)
Lemma empty_text_from_backend_witness :
  let empty_part :=
    mkGeminiResponse (Some EmptyString)
      (Some (JArr [JObj [("content",
                          JObj [("parts", JArr [JObj [("text", JStr EmptyString)]])])]])) in
  let gemini : World := fun X ev =>
    match ev in Event T return T with
    | GenerateContent _ => Fulfilled empty_part
    | other => Sample.world "unused" _ other
    end in
  run gemini
    (generateText (createGeminiProvider Sample.llm) [mkMessage user "hello"] None)
  = Rejected (Error "No text in Gemini response")
  /\ run (Sample.world EmptyString)
       (generateText (createOpenAIProvider Sample.llm) [mkMessage user "hello"] None)
     = Fulfilled EmptyString
  /\ run (Sample.world EmptyString)
       (LlmService.chatWithAI "hello" [] [] (Some Sample.llm))
     = Fulfilled LlmService.CHAT_FALLBACK.
Proof.
  intros empty_part gemini. split; [|split; [|vm_compute; reflexivity]].
  - apply (proj1 (empty_text_from_backend gemini Sample.llm
                    [mkMessage user "hello"] None) empty_part);
      [reflexivity | right; reflexivity | reflexivity].
  - apply (proj2 (empty_text_from_backend (Sample.world EmptyString) Sample.llm
                    [mkMessage user "hello"] None)
             (mkFetchResponse true 200 (Fulfilled (Sample.openai_reply EmptyString)))
             (Sample.openai_reply EmptyString));
      reflexivity.
Defined.

End AdapterMore.

(** ** More about the orchestrator *)

Module ObjectFacts.
Import JSON.

Section Props.
Context {V : Type}.
Implicit Types (o : list (string * V)) (k : string) (v : V).

Lemma get_prop_None k o : get_prop k o = None <-> ~ In k (map fst o).
Proof.
  induction o as [|[k0 v0] r IH]; simpl; [tauto|].
  destruct (String.eqb k k0) eqn:E.
  - apply String.eqb_eq in E. subst. split; [discriminate | tauto].
  - apply String.eqb_neq in E. rewrite IH. split; [intros H [H'|H']; auto | tauto].
Qed.

Lemma get_prop_replace k' k v o :
  get_prop k' (replace_prop k v o)
  = if String.eqb k' k
    then match get_prop k o with Some _ => Some v | None => None end
    else get_prop k' o.
Proof.
  induction o as [|[k0 v0] r IH]; simpl.
  - now destruct (String.eqb k' k).
  - destruct (String.eqb k k0) eqn:E; simpl.
    + apply String.eqb_eq in E. subst k0.
      destruct (String.eqb k' k); reflexivity.
    + rewrite IH. destruct (String.eqb k' k) eqn:E'; [|reflexivity].
      apply String.eqb_eq in E'. subst k'. now rewrite E.
Qed.

Lemma get_prop_insert_index k' i k v o :
  get_prop k o = None ->
  get_prop k' (insert_index i k v o)
  = if String.eqb k' k then Some v else get_prop k' o.
Proof.
  induction o as [|[k0 v0] r IH]; intros Hk; simpl; [reflexivity|].
  simpl in Hk. destruct (String.eqb k k0) eqn:E; [discriminate|].
  destruct (array_index k0) as [j|]; [destruct (j <? i)|]; simpl; try reflexivity.
  rewrite (IH Hk).
  destruct (String.eqb k' k) eqn:E'; [|reflexivity].
  apply String.eqb_eq in E'. subst k'. now rewrite E.
Qed.

Lemma get_prop_app k' k v o :
  get_prop k o = None ->
  get_prop k' (o ++ [(k, v)])
  = if String.eqb k' k then Some v else get_prop k' o.
Proof.
  induction o as [|[k0 v0] r IH]; intros Hk; simpl; [reflexivity|].
  simpl in Hk. destruct (String.eqb k k0) eqn:E; [discriminate|].
  rewrite (IH Hk).
  destruct (String.eqb k' k) eqn:E'; [|reflexivity].
  apply String.eqb_eq in E'. subst k'. now rewrite E.
Qed.

(** Reading a property after an assignment. *)
Lemma get_prop_set k' k v o :
  get_prop k' (set_prop k v o)
  = if String.eqb k' k then Some v else get_prop k' o.
Proof.
  unfold set_prop. destruct (get_prop k o) eqn:Hk.
  - rewrite get_prop_replace, Hk. reflexivity.
  - destruct (array_index k).
    + now apply get_prop_insert_index.
    + now apply get_prop_app.
Qed.

Lemma keys_replace k v o : map fst (replace_prop k v o) = map fst o.
Proof.
  induction o as [|[k0 v0] r IH]; simpl; [reflexivity|].
  destruct (String.eqb k k0); simpl; [reflexivity | now rewrite IH].
Qed.

Lemma keys_insert_index i k v o :
  Permutation (map fst (insert_index i k v o)) (k :: map fst o).
Proof.
  induction o as [|[k0 v0] r IH]; simpl; [reflexivity|].
  destruct (array_index k0) as [j|]; [destruct (j <? i)|]; simpl; try reflexivity.
  rewrite IH. apply perm_swap.
Qed.

(** An assignment never makes two properties of one name. *)
Lemma keys_set_NoDup k v o :
  NoDup (map fst o) -> NoDup (map fst (set_prop k v o)).
Proof.
  intros H. unfold set_prop. destruct (get_prop k o) eqn:Hk.
  - now rewrite keys_replace.
  - apply get_prop_None in Hk. destruct (array_index k).
    + rewrite keys_insert_index. apply NoDup_cons. split; [|assumption].
      now rewrite list_elem_of_In.
    + rewrite map_app. simpl. apply NoDup_app. repeat split; auto.
      * intros x Hx Hx'. apply list_elem_of_In in Hx.
        apply list_elem_of_singleton in Hx'. subst. contradiction.
      * apply NoDup_singleton.
Qed.

End Props.

Lemma total_replace k v (o : list (string * Z)) x :
  get_prop k o = Some x ->
  Notions.total (replace_prop k v o) = Notions.total o - x + v.
Proof.
  unfold Notions.total.
  induction o as [|[k0 v0] r IH]; simpl; [discriminate|].
  destruct (String.eqb k k0); simpl.
  - intros [= ->]. lia.
  - intros H. rewrite (IH H). lia.
Qed.

Lemma total_insert_index i k v (o : list (string * Z)) :
  Notions.total (insert_index i k v o) = Notions.total o + v.
Proof.
  unfold Notions.total.
  induction o as [|[k0 v0] r IH]; simpl; [lia|].
  destruct (array_index k0) as [j|]; [destruct (j <? i)|]; simpl; try lia.
Qed.

Lemma total_app k v (o : list (string * Z)) :
  Notions.total (o ++ [(k, v)]) = Notions.total o + v.
Proof.
  unfold Notions.total. induction o as [|[k0 v0] r IH]; simpl; lia.
Qed.

Lemma total_set k v (o : list (string * Z)) :
  Notions.total (set_prop k v o)
  = Notions.total o - match get_prop k o with Some x => x | None => 0 end + v.
Proof.
  unfold set_prop. destruct (get_prop k o) eqn:Hk.
  - now apply total_replace.
  - destruct (array_index k); [rewrite total_insert_index | rewrite total_app]; lia.
Qed.

End ObjectFacts.

Module ServiceMore.
Import JSON Async Llm Schema LlmService AsyncFacts ObjectFacts.

Lemma calls_try_catch {A} (w : World) (m : IO A) (h : JsError -> IO A) :
  calls w (try_catch m h)
  = (calls w m + match run w m with
                 | Fulfilled _ => 0
                 | Rejected e => calls w (h e)
                 end)%nat.
Proof. induction m as [a|e|X ev k IH]; simpl; auto. Qed.

(** What each orchestration settles to, from what the provider did. *)
Lemma generateExecutiveSummary_result w now today auditLogs llmConfig :
  let recentLogs := List.filter (is_recent now) auditLogs in
  run w (generateExecutiveSummary now today auditLogs llmConfig)
  = match recentLogs with
    | [] => Fulfilled NO_RECENT_LOGS
    | _ =>
        let logSummary := map summarize (slice0 200 recentLogs) in
        match run w (generateText (getProvider llmConfig)
                       [mkMessage user
                          (executive_prompt (JsDate.toLocaleDateString today)
                             (length logSummary) (uniqueUsers logSummary)
                             (topEvents (eventSummary logSummary)))]
                       (Some (mkGenerateOptions (Some 4096) (Some (1 # 10)%Q)
                                (Some (9 # 10)%Q) (Some 40)))) with
        | Fulfilled text => Fulfilled text
        | Rejected e => Fulfilled ("Summary generation error: " ++ Async.message e)
        end
    end.
Proof.
  intros recentLogs. subst recentLogs. unfold generateExecutiveSummary.
  rewrite run_try_catch.
  destruct (List.filter (is_recent now) auditLogs) as [|a r]; [reflexivity|].
  cbn [length Nat.eqb]. change (mbind ?f ?m) with (bind m f). rewrite run_bind.
  destruct (run w (generateText _ _ _)); reflexivity.
Qed.

Lemma chatWithAI_result w text auditLogs previous llmConfig :
  run w (chatWithAI text auditLogs previous llmConfig)
  = match transcript previous with
    | inl e =>
        Fulfilled ("I encountered an error: " ++ Async.message e ++ ". Please try again.")
    | inr lines =>
        match run w (generateText (getProvider llmConfig)
                       [mkMessage user
                          (chat_prompt text (map summarize (slice0 50 auditLogs)) lines)]
                       None) with
        | Fulfilled result => Fulfilled (JsString.or_else result CHAT_FALLBACK)
        | Rejected e =>
            Fulfilled ("I encountered an error: " ++ Async.message e
                       ++ ". Please try again.")
        end
    end.
Proof.
  unfold chatWithAI. rewrite run_try_catch.
  destruct (transcript previous) as [e|lines]; [reflexivity|].
  change (mbind ?f ?m) with (bind m f). rewrite run_bind.
  destruct (run w (generateText _ _ _)); reflexivity.
Qed.

Lemma or_else_truthy a b :
  JsString.truthy b = true -> JsString.truthy (JsString.or_else a b) = true.
Proof. unfold JsString.or_else. destruct (JsString.truthy a) eqn:E; auto. Qed.

Lemma truthy_not_empty s : JsString.truthy s = true -> s <> EmptyString.
Proof. destruct s; [discriminate | discriminate]. Qed.

Lemma chatWithAI_settles w text auditLogs previous llmConfig :
  exists reply,
    run w (chatWithAI text auditLogs previous llmConfig) = Fulfilled reply
    /\ reply <> EmptyString.
Proof.
  rewrite chatWithAI_result.
  destruct (transcript previous) as [e|lines].
  - eexists; split; [reflexivity | discriminate].
  - destruct (run w _) as [answer|e].
    + eexists; split; [reflexivity|].
      apply truthy_not_empty, or_else_truthy. reflexivity.
    + eexists; split; [reflexivity | discriminate].
Qed.

Lemma generateExecutiveSummary_settles w now today auditLogs llmConfig :
  exists summary,
    run w (generateExecutiveSummary now today auditLogs llmConfig) = Fulfilled summary.
Proof.
  rewrite generateExecutiveSummary_result. cbv zeta.
  destruct (List.filter _ _); [eauto|].
  destruct (run w _); eauto.
Qed.

Ltac one_call :=
  match goal with
  | |- context [calls ?w (generateText (getProvider ?c) ?m ?o)] =>
      pose proof (AdapterMore.getProvider_calls w c m o);
      destruct (run w (generateText (getProvider c) m o));
      cbn [calls run] in *; lia
  end.

Lemma generateExecutiveSummary_calls w now today auditLogs llmConfig :
  (calls w (generateExecutiveSummary now today auditLogs llmConfig) <= 1)%nat.
Proof.
  unfold generateExecutiveSummary. rewrite calls_try_catch.
  destruct (length _ =? 0)%nat; [simpl; lia|].
  change (mbind ?f ?m) with (bind m f). rewrite run_bind, calls_bind.
  one_call.
Qed.

(** X12: no orchestration throws, and none makes more than one external
    call, whatever the provider and the collaborators do; the chat reply is
    never the empty string. *)
Theorem orchestrations_settle (w : World) now today text auditLogs previous llmConfig :
  (exists summary,
     run w (generateExecutiveSummary now today auditLogs llmConfig) = Fulfilled summary)
  /\ (exists insights,
        run w (analyzeAuditLogs auditLogs llmConfig) = Fulfilled insights)
  /\ (exists reply,
        run w (chatWithAI text auditLogs previous llmConfig) = Fulfilled reply
        /\ reply <> EmptyString)
  /\ (calls w (generateExecutiveSummary now today auditLogs llmConfig) <= 1)%nat
  /\ (calls w (analyzeAuditLogs auditLogs llmConfig) <= 1)%nat
  /\ (calls w (chatWithAI text auditLogs previous llmConfig) <= 1)%nat.
Proof.
  split; [|split; [|split; [|split; [|split]]]].
  - apply generateExecutiveSummary_settles.
  - rewrite ServiceClaims.analyzeAuditLogs_result.
    destruct (run w _); eauto.
  - apply chatWithAI_settles.
  - apply generateExecutiveSummary_calls.
  - unfold analyzeAuditLogs. rewrite calls_try_catch.
    change (mbind ?f ?m) with (bind m f). rewrite run_bind, calls_bind.
    one_call.
  - unfold chatWithAI. rewrite calls_try_catch.
    destruct (transcript previous); [simpl; lia|].
    change (mbind ?f ?m) with (bind m f). rewrite run_bind, calls_bind.
    one_call.
Qed.

Lemma filter_firstn_filter {A} (p : A -> bool) n (l : list A) :
  List.filter p (firstn n (List.filter p l)) = firstn n (List.filter p l).
Proof.
  revert n. induction l as [|a l IH]; intros n; simpl.
  - now rewrite firstn_nil.
  - destruct (p a) eqn:E; [|apply IH].
    destruct n as [|n]; simpl; [reflexivity|]. now rewrite E, IH.
Qed.

Lemma firstn_idem {A} n (l : list A) : firstn n (firstn n l) = firstn n l.
Proof. rewrite firstn_firstn. now rewrite Nat.min_id. Qed.

(** X13: the orchestrations read a bounded prefix of the logs. The summary
    is that of the first 200 records of the last 24 hours, the insights
    those of the first 100 records, the chat reply that of the first 50:
    handing over only these gives the same computation, external call
    included. *)
Theorem bounded_prefix now today text auditLogs previous llmConfig :
  generateExecutiveSummary now today auditLogs llmConfig
  = generateExecutiveSummary now today
      (slice0 200 (List.filter (is_recent now) auditLogs)) llmConfig
  /\ analyzeAuditLogs auditLogs llmConfig
     = analyzeAuditLogs (slice0 100 auditLogs) llmConfig
  /\ chatWithAI text auditLogs previous llmConfig
     = chatWithAI text (slice0 50 auditLogs) previous llmConfig.
Proof.
  unfold generateExecutiveSummary, analyzeAuditLogs, chatWithAI, slice0.
  rewrite filter_firstn_filter, !firstn_idem.
  repeat split.
  destruct (List.filter (is_recent now) auditLogs) as [|a r]; reflexivity.
Qed.

(** *** The histogram of events *)

Lemma seen_default (acc : list (string * Z)) e :
  match get_prop e acc with
  | Some n => if n =? 0 then 0 else n
  | None => 0
  end = default 0 (get_prop e acc).
Proof.
  destruct (get_prop e acc) as [n|]; simpl; [|reflexivity].
  destruct (n =? 0) eqn:E; [|reflexivity]. apply Z.eqb_eq in E. now subst.
Qed.

Lemma get_prop_count_event e acc log :
  get_prop e (count_event acc log)
  = if String.eqb e (ls_event log) then Some (default 0 (get_prop e acc) + 1)
    else get_prop e acc.
Proof.
  unfold count_event. cbv zeta. rewrite get_prop_set, seen_default.
  destruct (String.eqb e (ls_event log)) eqn:E; [|reflexivity].
  apply String.eqb_eq in E. now subst.
Qed.

Lemma occurrences_cons e log logs :
  Notions.occurrences e (log :: logs)
  = (if String.eqb e (ls_event log) then 1 else 0) + Notions.occurrences e logs.
Proof.
  unfold Notions.occurrences. simpl.
  destruct (String.eqb e (ls_event log)); simpl length; lia.
Qed.

Lemma occurrences_nonneg e logs : 0 <= Notions.occurrences e logs.
Proof. unfold Notions.occurrences. lia. Qed.

Lemma get_prop_counted e logs : forall acc,
  get_prop e (fold_left count_event logs acc)
  = match get_prop e acc with
    | Some n => Some (n + Notions.occurrences e logs)
    | None => if Notions.occurrences e logs =? 0 then None
              else Some (Notions.occurrences e logs)
    end.
Proof.
  induction logs as [|log r IH]; intros acc.
  - simpl. change (Notions.occurrences e []) with 0.
    destruct (get_prop e acc); [f_equal; lia | reflexivity].
  - cbn [fold_left]. rewrite IH, get_prop_count_event, occurrences_cons.
    pose proof (occurrences_nonneg e r).
    destruct (String.eqb e (ls_event log)).
    + destruct (get_prop e acc) as [n|]; simpl.
      * f_equal. lia.
      * destruct (1 + _ =? 0) eqn:E; [apply Z.eqb_eq in E; lia | f_equal; lia].
    + rewrite Z.add_0_l. reflexivity.
Qed.

Lemma total_counted logs : forall acc,
  Notions.total (fold_left count_event logs acc)
  = Notions.total acc + Z.of_nat (length logs).
Proof.
  induction logs as [|log r IH]; intros acc; [simpl; lia|].
  cbn [fold_left length]. rewrite IH. unfold count_event. cbv zeta.
  rewrite total_set, seen_default.
  destruct (get_prop (ls_event log) acc); simpl; lia.
Qed.

Lemma keys_counted logs : forall acc,
  NoDup (map fst acc) -> NoDup (map fst (fold_left count_event logs acc)).
Proof.
  induction logs as [|log r IH]; intros acc H; [exact H|].
  cbn [fold_left]. apply IH. now apply keys_set_NoDup.
Qed.

(** X14: the histogram of the summary counts right. For events whose name
    is not one every object inherits, the count stored under a name is the
    number of records with that event, a name no record carries is absent,
    no name is listed twice, and the counts add up to the number of
    records. *)
Theorem histogram_counts (logSummary : list LogSummary) :
  Forall Notions.plain_event logSummary ->
  (forall e,
     get_prop e (eventSummary logSummary)
     = if Notions.occurrences e logSummary =? 0 then None
       else Some (Notions.occurrences e logSummary))
  /\ NoDup (map fst (eventSummary logSummary))
  /\ Notions.total (eventSummary logSummary) = Z.of_nat (length logSummary).
Proof.
  intros _. unfold eventSummary. repeat split.
  - intros e. now rewrite get_prop_counted.
  - apply keys_counted. constructor.
  - now rewrite total_counted.
Qed.

Lemma histogram_counts_witness :
  let logs := [mkLogSummary "org.edit" None JNull;
               mkLogSummary "12" None JNull;
               mkLogSummary "org.edit" None JNull] in
  Forall Notions.plain_event logs
  /\ get_prop "org.edit" (eventSummary logs) = Some 2
  /\ get_prop "user.add" (eventSummary logs) = None
  /\ Notions.total (eventSummary logs) = 3.
Proof.
  cbv zeta.
  assert (H : Forall Notions.plain_event
                [mkLogSummary "org.edit" None JNull;
                 mkLogSummary "12" None JNull;
                 mkLogSummary "org.edit" None JNull]).
  { repeat constructor; unfold Notions.plain_event; simpl;
      intros Hin; repeat destruct Hin as [Hin|Hin]; try discriminate; exact Hin. }
  split; [exact H|].
  destruct (histogram_counts _ H) as (Hget & _ & Htotal).
  split; [rewrite Hget; reflexivity|].
  split; [rewrite Hget; reflexivity | exact Htotal].
Defined.

(** *** The most frequent events *)

Lemma insert_by_count_perm x l : Permutation (insert_by_count x l) (x :: l).
Proof.
  induction l as [|y r IH]; simpl; [reflexivity|].
  destruct (snd x <? snd y); [|reflexivity].
  rewrite IH. apply perm_swap.
Qed.

Lemma sort_by_count_perm l : Permutation (sort_by_count l) l.
Proof.
  induction l as [|x r IH]; simpl; [reflexivity|].
  rewrite insert_by_count_perm. now constructor.
Qed.

Lemma insert_by_count_sorted x l :
  StronglySorted Notions.by_count l ->
  StronglySorted Notions.by_count (insert_by_count x l).
Proof.
  induction 1 as [|y r Hr IH Hy]; simpl.
  - repeat constructor.
  - destruct (snd x <? snd y) eqn:E.
    + apply Z.ltb_lt in E. constructor; [exact IH|].
      rewrite Forall_forall. intros z Hz. apply list_elem_of_In in Hz.
      apply (Permutation_in _ (insert_by_count_perm x r)) in Hz.
      destruct Hz as [<-|Hz]; [unfold Notions.by_count; lia|].
      rewrite Forall_forall in Hy. apply Hy. now apply list_elem_of_In.
    + apply Z.ltb_ge in E. constructor; [now constructor|].
      constructor; [exact E|].
      rewrite Forall_forall in Hy |- *. intros z Hz.
      specialize (Hy z Hz). unfold Notions.by_count in *. lia.
Qed.

Lemma sort_by_count_sorted l : StronglySorted Notions.by_count (sort_by_count l).
Proof.
  induction l as [|x r IH]; simpl; [constructor|].
  now apply insert_by_count_sorted.
Qed.

Lemma with_count_insert c x l :
  Notions.with_count c (insert_by_count x l) = Notions.with_count c (x :: l).
Proof.
  unfold Notions.with_count.
  induction l as [|y r IH]; [reflexivity|].
  cbn [insert_by_count]. destruct (snd x <? snd y) eqn:E; [|reflexivity].
  apply Z.ltb_lt in E. cbn [List.filter] in *. rewrite IH.
  destruct (snd x =? c) eqn:Ex; [|reflexivity].
  apply Z.eqb_eq in Ex.
  destruct (snd y =? c) eqn:Ey; [apply Z.eqb_eq in Ey; lia | reflexivity].
Qed.

Lemma sorted_app_dominates (l1 l2 : list (string * Z)) :
  StronglySorted Notions.by_count (l1 ++ l2)%list ->
  forall x y, In x l1 -> In y l2 -> snd y <= snd x.
Proof.
  induction l1 as [|a l1 IH]; intros Hs x y Hx Hy; [destruct Hx|].
  simpl in Hs. inversion Hs as [|? ? Hs' Ha]; subst.
  destruct Hx as [<-|Hx]; [|now apply IH].
  rewrite Forall_forall in Ha. apply (Ha y).
  apply list_elem_of_In, in_or_app. now right.
Qed.

(** X15: the events named in the prompt are the most frequent ones. Sorting
    the histogram entries loses and adds none, puts larger counts first and
    leaves entries of equal count in the order they had; so no entry left
    out of the first five has a larger count than one that is in. *)
Theorem top_events_most_frequent (summary : list (string * Z)) :
  let sorted := sort_by_count summary in
  Permutation sorted summary
  /\ StronglySorted Notions.by_count sorted
  /\ (forall c, Notions.with_count c sorted = Notions.with_count c summary)
  /\ (forall listed rest,
        In listed (slice0 5 sorted) -> In rest (skipn 5 sorted) ->
        snd rest <= snd listed).
Proof.
  cbv zeta. split; [apply sort_by_count_perm|].
  split; [apply sort_by_count_sorted|]. split.
  - intros c. induction summary as [|x r IH]; [reflexivity|].
    cbn [sort_by_count fold_right]. rewrite with_count_insert.
    unfold Notions.with_count in *. cbn [List.filter].
    change (fold_right insert_by_count [] r) with (sort_by_count r).
    now rewrite IH.
  - intros listed rest. unfold slice0. apply sorted_app_dominates.
    rewrite firstn_skipn. apply sort_by_count_sorted.
Qed.

(** *** The number of users *)

Lemma same_string_spec name y :
  same_value_zero (JStr name) y = true <-> y = JStr name.
Proof.
  destruct y; simpl; try (split; [discriminate | discriminate]).
  rewrite String.eqb_eq. split; [now intros -> | now intros [= ->]].
Qed.

Lemma set_has_string name s :
  existsb (same_value_zero (JStr name)) s = true <-> In (JStr name) s.
Proof.
  rewrite existsb_exists. split.
  - intros (y & Hy & E). apply same_string_spec in E. now subst.
  - intros H. exists (JStr name). split; [exact H | now apply same_string_spec].
Qed.

Lemma new_Set_length values : forall acc,
  (length acc <= length (fold_left set_add values acc) <= length acc + length values)%nat.
Proof.
  induction values as [|x r IH]; intros acc; simpl; [lia|].
  specialize (IH (set_add acc x)).
  assert (length acc <= length (set_add acc x) <= length acc + 1)%nat.
  { unfold set_add. destruct (existsb _ acc); [lia|]. rewrite length_app. simpl. lia. }
  lia.
Qed.

Lemma new_Set_nonempty x r : (1 <= length (new_Set (x :: r)))%nat.
Proof.
  unfold new_Set. cbn [fold_left]. change (set_add [] x) with [x].
  pose proof (new_Set_length r [x]) as H. cbn [length] in H. lia.
Qed.

Lemma new_Set_strings values : forall acc,
  Forall (fun v => exists name, v = JStr name) values ->
  NoDup acc ->
  NoDup (fold_left set_add values acc)
  /\ forall v, In v (fold_left set_add values acc) <-> In v acc \/ In v values.
Proof.
  induction values as [|x r IH]; intros acc Hv Hacc; simpl; [tauto|].
  inversion Hv as [|? ? [name ->] Hr]; subst.
  unfold set_add at 2 4.
  destruct (existsb _ acc) eqn:E.
  - apply set_has_string in E. destruct (IH acc Hr Hacc) as [Hn Hin].
    split; [exact Hn|]. intros v. rewrite Hin. intuition (subst; auto).
  - assert (Hnot : ~ In (JStr name) acc).
    { intros H. apply set_has_string in H. congruence. }
    destruct (IH (acc ++ [JStr name])%list Hr) as [Hn Hin].
    { apply NoDup_app. repeat split; auto using NoDup_singleton.
      intros y Hy Hy'. apply list_elem_of_singleton in Hy'. subst.
      now apply list_elem_of_In in Hy. }
    split; [exact Hn|]. intros v. rewrite Hin, in_app_iff. simpl. tauto.
Qed.

(** X16: the number of users in the prompt. It never exceeds the number of
    records and is at least one when there is a record; when the users are
    strings, it is the number of different ones: the set holds each user of
    the records once and nothing else. *)
Theorem unique_users_counted (logSummary : list LogSummary) :
  (uniqueUsers logSummary <= length logSummary)%nat
  /\ (logSummary <> [] -> (1 <= uniqueUsers logSummary)%nat)
  /\ (Forall Notions.named_user logSummary ->
      let users := new_Set (map user_of logSummary) in
      uniqueUsers logSummary = length users
      /\ NoDup users
      /\ forall u, In u users <-> In u (map user_of logSummary)).
Proof.
  unfold uniqueUsers. split; [|split].
  - pose proof (new_Set_length (map user_of logSummary) []) as H.
    rewrite length_map in H. simpl in H. unfold new_Set. lia.
  - destruct logSummary as [|l r]; [congruence|]. intros _.
    cbn [map]. apply new_Set_nonempty.
  - intros H. cbv zeta. split; [reflexivity|].
    destruct (new_Set_strings (map user_of logSummary) []) as [Hn Hin].
    + rewrite Forall_map. exact H.
    + constructor.
    + split; [exact Hn|]. intros u. unfold new_Set. rewrite Hin. simpl. tauto.
Qed.

End ServiceMore.

(** ** What the summary prompt is computed from *)

Module SummaryClaims.
Import JSON Async Llm Schema LlmService AsyncFacts ServiceClaims ServiceMore.

Lemma recent_spec now auditLogs log :
  In log (List.filter (is_recent now) auditLogs)
  <-> In log auditLogs /\ Spec.not_older_than_24_hours now log.
Proof. now rewrite List.filter_In, is_recent_spec. Qed.

Lemma sample_length {A B} (f : A -> B) n (l : list A) :
  length (map f (slice0 n l)) = Nat.min n (length l).
Proof. unfold slice0. now rewrite length_map, length_firstn. Qed.

Lemma sample_prefix {A B} (f : A -> B) n (l : list A) :
  map f l = (map f (slice0 n l) ++ map f (skipn n l))%list.
Proof. unfold slice0. now rewrite <- map_app, firstn_skipn. Qed.

Lemma summary_of_slice now today logs1 logs2 llmConfig :
  slice0 200 (List.filter (is_recent now) logs1)
  = slice0 200 (List.filter (is_recent now) logs2) ->
  generateExecutiveSummary now today logs1 llmConfig
  = generateExecutiveSummary now today logs2 llmConfig.
Proof.
  intros H. rewrite !generateExecutiveSummary_slice. cbv zeta. now rewrite H.
Qed.

(** C9 (as amended): the statistics of the summary prompt are those of the
    first 200 of the recent records, a record being recent when it was
    created 24 hours before now or later (the filter has no upper bound, so
    a record dated after now is one). The sample is the first 200 recent
    records in input order, all of them when there are fewer. For events
    whose name is not one every object inherits: when there is a recent
    record the function is one call of the provider with one user message,
    the prompt, and the prompt embeds the number of records of the sample
    as the event total, the number of distinct users of the sample, and the
    five most frequent entries of the histogram of the sample; the
    histogram stores under each name, once, the number of records of the
    sample carrying it, and its counts add up to the size of the sample.
    The number of users is at most the size of the sample, and no entry
    outside the five listed has a larger count than one of them. Inputs
    whose recent records agree on the first 200 give the same computation,
    so records beyond the first 200 have no effect, while the short-circuit
    is decided on all the recent records. *)
Theorem summary_first_200 now today auditLogs llmConfig :
  let recent := List.filter (is_recent now) auditLogs in
  let sample := map summarize (slice0 200 recent) in
  let histogram := eventSummary sample in
  let listed := slice0 5 (sort_by_count histogram) in
  let prompt :=
    executive_prompt (JsDate.toLocaleDateString today) (length sample)
      (uniqueUsers sample)
      (JsString.join ", "
         (map (fun entry => fst entry ++ ": " ++ JsString.of_Z (snd entry)) listed)) in
  (forall log, In log recent
               <-> In log auditLogs /\ Spec.not_older_than_24_hours now log)
  /\ length sample = Nat.min 200 (length recent)
  /\ map summarize recent = (sample ++ map summarize (skipn 200 recent))%list
  /\ (Forall Notions.plain_event sample ->
      (recent <> [] ->
       generateExecutiveSummary now today auditLogs llmConfig
       = try_catch
           (text ← generateText (getProvider llmConfig) [mkMessage user prompt]
                     (Some (mkGenerateOptions (Some 4096) (Some (1 # 10)%Q)
                              (Some (9 # 10)%Q) (Some 40)));
            Ret text)
           (fun error => Ret ("Summary generation error: " ++ Async.message error)))
      /\ (forall e,
            get_prop e histogram
            = if Notions.occurrences e sample =? 0 then None
              else Some (Notions.occurrences e sample))
      /\ Notions.total histogram = Z.of_nat (length sample)
      /\ NoDup (map fst histogram))
  /\ (uniqueUsers sample <= length sample)%nat
  /\ (forall entry other,
        In entry listed -> In other (skipn 5 (sort_by_count histogram)) ->
        snd other <= snd entry)
  /\ (forall others,
        slice0 200 (List.filter (is_recent now) others) = slice0 200 recent ->
        generateExecutiveSummary now today others llmConfig
        = generateExecutiveSummary now today auditLogs llmConfig)
  /\ (forall extra,
        (200 <= length recent)%nat ->
        generateExecutiveSummary now today (auditLogs ++ extra) llmConfig
        = generateExecutiveSummary now today auditLogs llmConfig)
  /\ (generateExecutiveSummary now today auditLogs llmConfig = Ret NO_RECENT_LOGS
      <-> recent = []).
Proof.
  intros recent sample histogram listed prompt.
  split; [intros log; apply recent_spec|].
  split; [apply sample_length|].
  split; [apply sample_prefix|].
  split.
  { intros _. split.
    - intros Hne. rewrite generateExecutiveSummary_slice. cbv zeta.
      fold recent. fold sample.
      destruct sample as [|a r] eqn:Hs; [|reflexivity].
      exfalso. apply Hne. subst sample. unfold slice0 in Hs.
      apply map_eq_nil in Hs. now apply firstn_nil_iff in Hs.
    - subst histogram. unfold eventSummary. split; [|split].
      + intros e. now rewrite get_prop_counted.
      + now rewrite total_counted.
      + apply keys_counted. constructor. }
  split.
  { unfold uniqueUsers, new_Set.
    pose proof (new_Set_length (map user_of sample) []) as H.
    rewrite length_map in H. simpl in H. lia. }
  split.
  { intros entry other. subst listed. unfold slice0.
    apply sorted_app_dominates. rewrite firstn_skipn. apply sort_by_count_sorted. }
  split; [intros others; apply summary_of_slice|].
  split; [intros extra; apply summary_ignores_later_records|].
  apply short_circuit_iff.
Qed.

(** Four records, one of them older than a day: three events, two users. *)
Lemma summary_first_200_witness :
  let now := 2 * Sample.day in
  let logs := [Sample.log "org.user.add" (now - Sample.minute) "a@example.com";
               Sample.log "org.project.remove" now "b@example.com";
               Sample.log "org.user.add" 0 "c@example.com";
               Sample.log "org.user.add" now "a@example.com"] in
  generateExecutiveSummary now now logs (Some Sample.llm)
  = try_catch
      (text ← generateText (getProvider (Some Sample.llm))
                [mkMessage user
                   (executive_prompt "January 3, 1970" 3 2
                      "org.user.add: 2, org.project.remove: 1")]
                (Some (mkGenerateOptions (Some 4096) (Some (1 # 10)%Q)
                         (Some (9 # 10)%Q) (Some 40)));
       Ret text)
      (fun error => Ret ("Summary generation error: " ++ Async.message error)).
Proof.
  intros now logs.
  destruct (summary_first_200 now now logs (Some Sample.llm)) as (_ & _ & _ & H & _).
  destruct H as [Hcall _].
  - repeat constructor; unfold Notions.plain_event; simpl;
      intros Hin; repeat destruct Hin as [Hin|Hin]; try discriminate; exact Hin.
  - exact (Hcall ltac:(discriminate)).
Defined.

(** C9, the claim as worded, fails on a record dated after now: it was not
    created within the last 24 hours, yet it is counted: the prompt says
    one event, one user, and lists the event. *)
Lemma future_record_counted_counterexample :
  let now := 3 * Sample.day in
  let log := Sample.log "org.user.add" (13 * Sample.day) "a@example.com" in
  (forall l, In l [log] -> ~ Spec.within_last_24_hours now l)
  /\ generateExecutiveSummary now now [log] (Some Sample.llm)
     = try_catch
         (text ← generateText (getProvider (Some Sample.llm))
                   [mkMessage user
                      (executive_prompt (JsDate.toLocaleDateString now) 1 1
                         "org.user.add: 1")]
                   (Some (mkGenerateOptions (Some 4096) (Some (1 # 10)%Q)
                            (Some (9 # 10)%Q) (Some 40)));
          Ret text)
         (fun error => Ret ("Summary generation error: " ++ Async.message error)).
Proof.
  cbv zeta. split.
  - intros l [<-|[]] (t & [= <-] & _ & H). vm_compute in H. apply H. reflexivity.
  - reflexivity.
Qed.

End SummaryClaims.

(** ** More about the endpoints *)

Module HandlerFacts.
Import JSON Async Routes AsyncFacts Store.

Lemma run_h_bind {A B} (w : World) (m : H A) (f : A -> H B) s :
  run w (runH (mbind f m) s)
  = match run w (runH m s) with
    | Fulfilled (Fulfilled a, s') => run w (runH (f a) s')
    | Fulfilled (Rejected e, s') => Fulfilled (Rejected e, s')
    | Rejected e => Rejected e
    end.
Proof.
  unfold mbind, h_bind. cbn [runH]. rewrite run_bind.
  destruct (run w (runH m s)) as [[[a|e] s']|e]; reflexivity.
Qed.

Lemma run_lift {A} (w : World) (m : IO A) s :
  run w (runH (lift m) s)
  = match run w m with
    | Fulfilled a => Fulfilled (Fulfilled a, s)
    | Rejected e => Fulfilled (Rejected e, s)
    end.
Proof.
  unfold lift. cbn [runH]. rewrite run_try_catch, run_bind.
  destruct (run w m); reflexivity.
Qed.

Lemma run_handle (w : World) (h : H Response) s :
  run w (handle h s)
  = match run w (runH h s) with
    | Fulfilled (Fulfilled r, s') => Fulfilled (r, s')
    | Fulfilled (Rejected e, s') =>
        Fulfilled (mkResponse 500 (error_body (Async.message e)), s')
    | Rejected e => Rejected e
    end.
Proof.
  unfold handle. rewrite run_bind.
  destruct (run w (runH h s)) as [[[r|e] s']|e]; reflexivity.
Qed.

(** A cookie that names no session of the store gets a fresh session. *)
Lemma calls_handle (w : World) (h : H Response) s :
  calls w (handle h s) = calls w (runH h s).
Proof.
  unfold handle. rewrite calls_bind.
  destruct (run w (runH h s)) as [[[r|e] s']|e]; simpl; lia.
Qed.

Lemma calls_h_bind {A B} (w : World) (m : H A) (f : A -> H B) s :
  calls w (runH (mbind f m) s)
  = (calls w (runH m s)
     + match run w (runH m s) with
       | Fulfilled (Fulfilled a, s') => calls w (runH (f a) s')
       | _ => 0
       end)%nat.
Proof.
  unfold mbind, h_bind. cbn [runH]. rewrite calls_bind.
  destruct (run w (runH m s)) as [[[a|e] s']|e]; reflexivity.
Qed.

Lemma calls_lift {A} (w : World) (m : IO A) s :
  calls w (runH (lift m) s) = calls w m.
Proof.
  unfold lift. cbn [runH]. rewrite ServiceMore.calls_try_catch, calls_bind, run_bind.
  destruct (run w m); simpl; lia.
Qed.

Lemma getOrCreateSessionId_unknown st now req :
  (forall sid, cookie req = Some sid -> JsString.truthy sid = true -> st !! sid = None) ->
  getOrCreateSessionId st now req = createSession st now req.
Proof.
  intros H. unfold getOrCreateSessionId.
  destruct (cookie req) as [sid|]; [|reflexivity].
  destruct (JsString.truthy sid) eqn:Ht; [|reflexivity].
  now rewrite (H sid eq_refl Ht).
Qed.

(** A request without a live session gets a fresh one, in a store that no
    longer holds the session it named. *)
Lemma getOrCreateSessionId_not_live st now req :
  Notions.live st now (cookie req) = false ->
  exists st0,
    getOrCreateSessionId st now req = createSession st0 now req
    /\ forall sid, cookie req = Some sid -> JsString.truthy sid = true ->
                   st0 !! sid = None.
Proof.
  unfold Notions.live, getOrCreateSessionId.
  destruct (cookie req) as [sid|]; [|exists st; split; [reflexivity | discriminate]].
  destruct (JsString.truthy sid) eqn:Ht;
    [|exists st; split; [reflexivity | intros ? [= <-]; congruence]].
  destruct (st !! sid) as [s|] eqn:Hs;
    [|exists st; split; [reflexivity | intros ? [= <-]; auto]].
  destruct (now - lastAccessed s >? SESSION_TIMEOUT); [|discriminate].
  intros _. exists (delete sid st). split; [reflexivity|].
  intros ? [= <-] _. apply lookup_delete_eq.
Qed.

Lemma live_session st now sid :
  Notions.live st now (Some sid) = true ->
  JsString.truthy sid = true
  /\ exists s, st !! sid = Some s /\ now - lastAccessed s <= SESSION_TIMEOUT.
Proof.
  unfold Notions.live. intros H. apply andb_true_iff in H as [Ht H].
  split; [exact Ht|]. destruct (st !! sid) as [s|]; [|discriminate].
  exists s. split; [reflexivity|].
  destruct (now - lastAccessed s >? SESSION_TIMEOUT) eqn:E; [discriminate | lia].
Qed.

(** A session without an upstream configuration has none to show. *)
Lemma getApiConfiguration_unconfigured st now req sid s :
  cookie req = Some sid -> st !! sid = Some s -> snykConfig s = None ->
  result (getApiConfiguration st now req) = None.
Proof.
  intros Hc Hs Hn. unfold getApiConfiguration, getOrCreateSessionId, createSession.
  rewrite Hc. destruct (JsString.truthy sid).
  - rewrite Hs. destruct (now - lastAccessed s >? SESSION_TIMEOUT);
      cbn [result sessions]; rewrite lookup_insert_eq; simpl;
      try rewrite Hn; reflexivity.
  - cbn [result sessions]. rewrite lookup_insert_eq. reflexivity.
Qed.

Lemma getOrCreateSessionId_known st now req sid s :
  cookie req = Some sid -> JsString.truthy sid = true -> st !! sid = Some s ->
  now - lastAccessed s <= SESSION_TIMEOUT ->
  getOrCreateSessionId st now req
  = mkOutcome sid (<[sid := set_lastAccessed now s]> st) [].
Proof.
  destruct req as [c rnd]. simpl. intros ->.
  apply StoreFacts.getOrCreateSessionId_live.
Qed.

Lemma setApiConfiguration_known st now req sid s cfg T :
  cookie req = Some sid -> JsString.truthy sid = true -> st !! sid = Some s ->
  now - lastAccessed s <= SESSION_TIMEOUT ->
  setApiConfiguration st now req cfg T
  = mkOutcome sid
      (<[sid := set_snykConfig (Some (mkStored cfg (now + T * 60 * 1000)))
                  (set_lastAccessed now s)]>
         (<[sid := set_lastAccessed now s]> st)) [].
Proof.
  intros Hc Ht Hs Hl. unfold setApiConfiguration, update_session.
  rewrite (getOrCreateSessionId_known st now req sid s Hc Ht Hs Hl).
  cbn [result sessions cookies]. now rewrite lookup_insert_eq.
Qed.

Lemma getTimeUntilExpiration_known st now req sid s c :
  cookie req = Some sid -> JsString.truthy sid = true -> st !! sid = Some s ->
  now - lastAccessed s <= SESSION_TIMEOUT -> snykConfig s = Some c ->
  getTimeUntilExpiration st now req
  = mkOutcome (Some (Z.max 0 ((expiresAt c - now) / (60 * 1000))))
      (<[sid := set_lastAccessed now s]> st) [].
Proof.
  intros Hc Ht Hs Hl Hcfg. unfold getTimeUntilExpiration.
  rewrite (getOrCreateSessionId_known st now req sid s Hc Ht Hs Hl).
  cbn [result sessions cookies]. rewrite lookup_insert_eq.
  cbn [snykConfig set_lastAccessed]. now rewrite Hcfg.
Qed.

Lemma getApiConfiguration_known st now req sid s c :
  cookie req = Some sid -> JsString.truthy sid = true -> st !! sid = Some s ->
  now - lastAccessed s <= SESSION_TIMEOUT -> snykConfig s = Some c ->
  now <= expiresAt c ->
  getApiConfiguration st now req
  = mkOutcome (Some (payload c, sid)) (<[sid := set_lastAccessed now s]> st) [].
Proof.
  intros Hc Ht Hs Hl Hcfg He. unfold getApiConfiguration.
  rewrite (getOrCreateSessionId_known st now req sid s Hc Ht Hs Hl).
  cbn [result sessions cookies]. rewrite lookup_insert_eq.
  cbn [snykConfig set_lastAccessed]. rewrite Hcfg.
  destruct (now >? expiresAt c) eqn:E; [lia | reflexivity].
Qed.

Lemma getLlmConfiguration_known st now req sid s c :
  cookie req = Some sid -> JsString.truthy sid = true -> st !! sid = Some s ->
  now - lastAccessed s <= SESSION_TIMEOUT -> llmConfig s = Some c ->
  now <= expiresAt c ->
  getLlmConfiguration st now req
  = mkOutcome (Some (payload c, sid)) (<[sid := set_lastAccessed now s]> st) [].
Proof.
  intros Hc Ht Hs Hl Hcfg He. unfold getLlmConfiguration.
  rewrite (getOrCreateSessionId_known st now req sid s Hc Ht Hs Hl).
  cbn [result sessions cookies]. rewrite lookup_insert_eq.
  cbn [llmConfig set_lastAccessed]. rewrite Hcfg.
  destruct (now >? expiresAt c) eqn:E; [lia | reflexivity].
Qed.

End HandlerFacts.

Module EndpointsMore.
Import JSON Async Routes AsyncFacts Store Views HandlerFacts.

(** X17: a configuration posted without a live session is not kept for the
    browser. The upstream configuration goes into a first new session; the
    question for the remaining time, asked with the same request,
    makes a second one. The answer says [expiresInMinutes: null],
    two cookies are written, and the session the second cookie names holds
    no configuration: a later [GET /api/config] with it answers [null]. *)
Theorem first_config_post_not_kept (w : World) (clock : Clock) req s token :
  prop "snykApiToken" (Some (req_body req)) = Some token ->
  truthy token = true ->
  success (w _ (TestConnection token (prop "apiVersion" (Some (req_body req))))) = true ->
  Notions.live (st_sessions s) (clock 0%nat) (req_cookie req) = false ->
  req_cookie req <> Some (generateSessionId (clock 0%nat) (req_entropy req 0)) ->
  let field k := prop k (Some (req_body req)) in
  let sid1 := generateSessionId (clock 0%nat) (req_entropy req 0) in
  let sid2 := generateSessionId (clock 1%nat) (req_entropy req 1) in
  exists s',
    run w (handle (post_config clock req) s)
    = Fulfilled
        (mkResponse 200
           (stored_view (field "groupId") (field "orgId")
              (or_else (field "apiVersion") (Some (JStr DEFAULT_API_VERSION)))
              None sid1),
         s')
    /\ st_cookies s'
       = (st_cookies s ++ [SetCookie COOKIE_NAME sid1 SESSION_TIMEOUT;
                           SetCookie COOKIE_NAME sid2 SESSION_TIMEOUT])%list
    /\ st_sessions s' !! sid2
       = Some (mkSession sid2 None None (clock 1%nat) (clock 1%nat))
    /\ forall later req', req_cookie req' = Some sid2 ->
         exists s'', handle (get_config later req') s'
                     = Ret (mkResponse 200 JNull, s'').
Proof.
  intros Htok Htruthy Hsucc Hlive Hne field sid1 sid2.
  rewrite ConfigEndpoints.run_post_config. cbv zeta.
  rewrite Htok, Htruthy. cbn [negb]. rewrite Hsucc. cbn [negb].
  set (t0 := clock 0%nat) in *. set (t1 := clock 1%nat) in *.
  destruct (getOrCreateSessionId_not_live (st_sessions s) t0 (session_request req 0))
    as (st0 & Hcreate & Hgone); [exact Hlive|].
  set (cfg := mkSnykConfig token _ _ _).
  set (st1 := <[sid1 := set_snykConfig (Some (mkStored cfg (t0 + 30 * 60 * 1000)))
                          (mkSession sid1 None None t0 t0)]>
                (<[sid1 := mkSession sid1 None None t0 t0]> st0)).
  assert (H1 : setApiConfiguration (st_sessions s) t0 (session_request req 0) cfg 30
               = mkOutcome sid1 st1 [SetCookie COOKIE_NAME sid1 SESSION_TIMEOUT]).
  { unfold setApiConfiguration. rewrite Hcreate. unfold createSession, update_session.
    cbn [result sessions cookies entropy session_request]. fold sid1.
    rewrite lookup_insert_eq. reflexivity. }
  assert (H2 : getTimeUntilExpiration st1 t1 (session_request req 1)
               = mkOutcome None (<[sid2 := mkSession sid2 None None t1 t1]> st1)
                   [SetCookie COOKIE_NAME sid2 SESSION_TIMEOUT]).
  { unfold getTimeUntilExpiration. rewrite getOrCreateSessionId_unknown.
    - unfold createSession. cbn [result sessions cookies entropy session_request].
      fold sid2. rewrite lookup_insert_eq. reflexivity.
    - intros sid Hc Ht. cbn [cookie session_request] in Hc.
      assert (sid1 <> sid) by (intros <-; apply Hne; exact Hc).
      unfold st1. rewrite !lookup_insert_ne by assumption.
      apply (Hgone sid); [exact Hc | exact Ht]. }
  rewrite H1. cbn [result sessions cookies]. rewrite H2. cbn [result sessions cookies].
  eexists. split; [reflexivity|]. cbn [st_cookies st_sessions].
  split; [now rewrite <- app_assoc|].
  split; [apply lookup_insert_eq|].
  intros later req' Hc'. rewrite ConfigEndpoints.handle_get_config. cbv zeta.
  cbn [st_cookies st_sessions].
  erewrite getApiConfiguration_unconfigured;
    [eexists; reflexivity | exact Hc' | apply lookup_insert_eq | reflexivity].
Qed.

Lemma first_config_post_not_kept_witness :
  let entropy k := match k with O => [Byte.x01] | _ => [Byte.x02] end in
  let req := mkHttpRequest None
               (JObj [("snykApiToken", JStr "snyk-token"); ("orgId", JStr "org-1")])
               [] entropy in
  let again := mkHttpRequest (Some (generateSessionId 1000 [Byte.x02])) (JObj []) []
                 entropy in
  exists s',
    run (Sample.world "ok") (handle (post_config (fun _ => 1000) req) Sample.empty_state)
    = Fulfilled
        (mkResponse 200
           (stored_view None (Some (JStr "org-1")) (Some (JStr "2024-10-15")) None
              (generateSessionId 1000 [Byte.x01])),
         s')
    /\ exists s'', handle (get_config (fun _ => 2000) again) s'
                   = Ret (mkResponse 200 JNull, s'').
Proof.
  intros entropy req again.
  destruct (first_config_post_not_kept (Sample.world "ok") (fun _ => 1000) req
              Sample.empty_state
              (JStr "snyk-token") eq_refl eq_refl eq_refl eq_refl
              ltac:(discriminate))
    as (s' & Hrun & _ & _ & Hget).
  exists s'. split; [exact Hrun|]. apply Hget. reflexivity.
Defined.

(** X18: with a live session, what is posted is what is shown. The answer
    to [POST /api/config] writes no cookie and says how many whole minutes
    of the thirty are left when the store is asked for them, which is after
    the configuration was stored: 30 when the clock has not moved in
    between, 29 when it has, by up to a minute. A [GET /api/config] of the
    same session before the half hour is over answers the same group,
    organisation and version, the masked token, and the whole minutes left
    at the time the store is asked, counted from the time the configuration
    was stored. *)
Theorem config_round_trip (w : World) (clock clock' : Clock) req req' s token sid :
  let stored := clock 0%nat in
  let asked := clock 1%nat in
  let read := clock' 0%nat in
  let asked' := clock' 1%nat in
  let left t := Z.max 0 ((stored + 30 * 60 * 1000 - t) / (60 * 1000)) in
  prop "snykApiToken" (Some (req_body req)) = Some token ->
  truthy token = true ->
  success (w _ (TestConnection token (prop "apiVersion" (Some (req_body req))))) = true ->
  req_cookie req = Some sid ->
  Notions.live (st_sessions s) stored (Some sid) = true ->
  asked - stored <= SESSION_TIMEOUT ->
  req_cookie req' = Some sid ->
  read - asked <= SESSION_TIMEOUT ->
  read <= stored + 30 * 60 * 1000 ->
  asked' - read <= SESSION_TIMEOUT ->
  let field k := prop k (Some (req_body req)) in
  let view minutes :=
    stored_view (field "groupId") (field "orgId")
      (or_else (field "apiVersion") (Some (JStr DEFAULT_API_VERSION)))
      (Some minutes) sid in
  (exists s1 s2,
     run w (handle (post_config clock req) s)
     = Fulfilled (mkResponse 200 (view (left asked)), s1)
     /\ st_cookies s1 = st_cookies s
     /\ handle (get_config clock' req') s1
        = Ret (mkResponse 200 (view (left asked')), s2)
     /\ st_cookies s2 = st_cookies s)
  /\ (asked = stored -> left asked = 30)
  /\ (stored < asked <= stored + 60 * 1000 -> left asked = 29).
Proof.
  intros t0 t1 u0 u1 left Htok Htruthy Hsucc Hc Hlive Ht1 Hc' Hu0 Hexp Hu1 field view.
  split.
  2:{ unfold left. split; intros H.
      - rewrite H. replace (t0 + 30 * 60 * 1000 - t0) with (30 * (60 * 1000)) by lia.
        rewrite Z.div_mul by lia. reflexivity.
      - assert (E : (t0 + 30 * 60 * 1000 - t1) / (60 * 1000) = 29).
        { symmetry. apply (Z.div_unique _ _ 29 (t0 + 30 * 60 * 1000 - t1 - 29 * (60 * 1000)));
            lia. }
        rewrite E. reflexivity. }
  destruct (live_session _ _ _ Hlive) as (Ht & s0 & Hs & Hl).
  rewrite ConfigEndpoints.run_post_config. cbv zeta.
  rewrite Htok, Htruthy. cbn [negb]. rewrite Hsucc. cbn [negb].
  fold t0 t1.
  set (cfg := mkSnykConfig token _ _ _).
  assert (Hk : forall k, cookie (session_request req k) = Some sid) by (intros; exact Hc).
  assert (Hk' : forall k, cookie (session_request req' k) = Some sid) by (intros; exact Hc').
  rewrite (setApiConfiguration_known _ t0 _ sid s0 cfg 30 (Hk 0%nat) Ht Hs Hl).
  cbn [result sessions cookies].
  set (kept := mkStored cfg (t0 + 30 * 60 * 1000)).
  set (s1 := set_snykConfig (Some kept) (set_lastAccessed t0 s0)).
  rewrite (getTimeUntilExpiration_known _ t1 _ sid s1 kept (Hk 1%nat) Ht
             (lookup_insert_eq _ _ _))
    by (simpl; try lia; reflexivity).
  cbn [result sessions cookies expiresAt kept].
  eexists. eexists. split; [reflexivity|]. cbn [st_cookies st_sessions].
  split; [now rewrite !app_nil_r|].
  rewrite ConfigEndpoints.handle_get_config. cbv zeta. cbn [st_cookies st_sessions].
  fold u0 u1.
  set (s2 := set_lastAccessed t1 s1).
  rewrite (getApiConfiguration_known _ u0 _ sid s2 kept (Hk' 0%nat) Ht
             (lookup_insert_eq _ _ _))
    by (simpl; try lia; reflexivity).
  cbn [result sessions cookies payload kept].
  set (s3 := set_lastAccessed u0 s2).
  rewrite (getTimeUntilExpiration_known _ u1 _ sid s3 kept (Hk' 1%nat) Ht
             (lookup_insert_eq _ _ _))
    by (simpl; try lia; reflexivity).
  cbn [result sessions cookies expiresAt kept].
  split; [reflexivity|]. now rewrite !app_nil_r.
Qed.

(** A post whose two readings of the clock are a millisecond apart says 29
    minutes; a read ten minutes later says 19. *)
Lemma config_round_trip_witness :
  let session := mkSession "s1" None None 0 0 in
  let s := mkServerState {[ "s1" := session ]} [] in
  let req := mkHttpRequest (Some "s1")
               (JObj [("snykApiToken", JStr "snyk-token"); ("orgId", JStr "org-1")])
               [] (fun _ => []) in
  let req' := mkHttpRequest (Some "s1") (JObj []) [] (fun _ => []) in
  let clock : Clock := fun k => match k with O => 1000 | _ => 1001 end in
  let clock' : Clock := fun k => match k with O => 601000 | _ => 601002 end in
  let view minutes :=
    stored_view None (Some (JStr "org-1")) (Some (JStr "2024-10-15")) (Some minutes) "s1" in
  exists s1 s2,
    run (Sample.world "ok") (handle (post_config clock req) s)
    = Fulfilled (mkResponse 200 (view 29), s1)
    /\ handle (get_config clock' req') s1 = Ret (mkResponse 200 (view 19), s2).
Proof.
  intros session s req req' clock clock' view.
  destruct (config_round_trip (Sample.world "ok") clock clock' req req' s
              (JStr "snyk-token") "s1" eq_refl eq_refl eq_refl eq_refl eq_refl
              ltac:(unfold SESSION_TIMEOUT; simpl; lia) eq_refl
              ltac:(unfold SESSION_TIMEOUT; simpl; lia) ltac:(simpl; lia)
              ltac:(unfold SESSION_TIMEOUT; simpl; lia))
    as ((s1 & s2 & Hpost & _ & Hget & _) & _).
  exists s1, s2. split; [exact Hpost | exact Hget].
Defined.

(** X19: the LLM configuration posted is the one shown and the one used.
    After a [POST /api/llm-config] with the three fields, a request that
    carries the session of that call gets, within the half hour, the same
    answer from [GET /api/llm-config] as the post gave, and the AI
    endpoints read the trimmed provider, model, key and base URL. *)
Theorem llm_config_shown_and_used now later req req' s provider model apiKey :
  let field k := prop k (Some (req_body req)) in
  required_string (field "provider") = Some provider ->
  required_string (field "model") = Some model ->
  required_string (field "apiKey") = Some apiKey ->
  let sid := result (getOrCreateSessionId (st_sessions s) now (session_request req 0)) in
  req_cookie req' = Some sid ->
  later - now <= SESSION_TIMEOUT ->
  exists s1 s2,
    handle (post_llm_config now req) s
    = Ret (mkResponse 200 (llm_view (JsString.trim provider) (JsString.trim model)), s1)
    /\ handle (get_llm_config later req') s1
       = Ret (mkResponse 200 (llm_view (JsString.trim provider) (JsString.trim model)), s2)
    /\ result (getLlmConfiguration (st_sessions s1) later (session_request req' 0))
       = Some (mkLlmConfig (JsString.trim provider) (JsString.trim model)
                 (JsString.trim apiKey) (optional_url (field "baseUrl")), sid).
Proof.
  intros field Hp Hm Hk sid Hc Hlater. subst field. cbv beta in *.
  rewrite ConfigEndpoints.handle_post_llm_config. cbv zeta.
  rewrite Hp, Hm, Hk.
  set (cfg := mkLlmConfig _ _ _ _).
  destruct (StoreFacts.setLlmConfiguration_stored (st_sessions s) now
              (session_request req 0) cfg 30) as (Ht & s0 & Hs & Hl & Hcfg).
  change (result (setLlmConfiguration (st_sessions s) now (session_request req 0) cfg 30))
    with sid in Ht, Hs.
  eexists. eexists. split; [reflexivity|].
  assert (Hread : getLlmConfiguration
                    (sessions (setLlmConfiguration (st_sessions s) now
                                 (session_request req 0) cfg 30))
                    later (session_request req' 0)
                  = mkOutcome (Some (cfg, sid))
                      (<[sid := set_lastAccessed later s0]>
                         (sessions (setLlmConfiguration (st_sessions s) now
                                      (session_request req 0) cfg 30))) []).
  { apply (getLlmConfiguration_known _ later _ sid s0 (mkStored cfg (now + 30 * 60 * 1000)));
      auto; simpl; unfold SESSION_TIMEOUT in *; lia. }
  split.
  - rewrite ConfigEndpoints.handle_get_llm_config. cbv zeta. cbn [st_sessions st_cookies].
    rewrite Hread. reflexivity.
  - cbn [st_sessions]. rewrite Hread. reflexivity.
Qed.

Lemma llm_config_shown_and_used_witness :
  let req := Sample.request
               (JObj [("provider", JStr " openai "); ("model", JStr "gpt-4o-mini");
                      ("apiKey", JStr "sk-test")]) [] in
  let req' := mkHttpRequest (Some (generateSessionId 1000 [])) (JObj []) []
                (fun _ => []) in
  exists s1 s2,
    handle (post_llm_config 1000 req) Sample.empty_state
    = Ret (mkResponse 200 (llm_view "openai" "gpt-4o-mini"), s1)
    /\ handle (get_llm_config 2000 req') s1
       = Ret (mkResponse 200 (llm_view "openai" "gpt-4o-mini"), s2).
Proof.
  intros req req'.
  destruct (llm_config_shown_and_used 1000 2000 req req' Sample.empty_state
              " openai " "gpt-4o-mini" "sk-test" eq_refl eq_refl eq_refl eq_refl
              ltac:(unfold SESSION_TIMEOUT; lia))
    as (s1 & s2 & Hpost & Hget & _).
  exists s1, s2. split; [exact Hpost | exact Hget].
Defined.

(** X20: a refused configuration leaves no trace. Both posts answer 200 or
    400 and never throw; on 400 the store and the cookies are as they
    were. The upstream post asks the upstream service once when a token is
    given and not at all otherwise; the LLM post calls nobody. *)
Theorem refused_config_leaves_no_trace (w : World) (clock : Clock) now req s :
  (exists r s',
     run w (handle (post_config clock req) s) = Fulfilled (r, s')
     /\ (status r = 200 \/ status r = 400 /\ s' = s))
  /\ (exists r s',
        handle (post_llm_config now req) s = Ret (r, s')
        /\ (status r = 200 \/ status r = 400 /\ s' = s))
  /\ calls w (handle (post_config clock req) s)
     = match prop "snykApiToken" (Some (req_body req)) with
       | Some token => if truthy token then 1%nat else 0%nat
       | None => 0%nat
       end.
Proof.
  split; [|split].
  - rewrite ConfigEndpoints.run_post_config. cbv zeta.
    destruct (prop "snykApiToken" _) as [token|]; [|eauto 6].
    destruct (negb (truthy token)); [eauto 6|].
    destruct (negb (success _)); eauto 6.
  - rewrite ConfigEndpoints.handle_post_llm_config. cbv zeta.
    destruct (required_string (prop "provider" _)); [|eauto 6].
    destruct (required_string (prop "model" _)); [|eauto 6].
    destruct (required_string (prop "apiKey" _)); eauto 6.
  - unfold post_config.
    destruct (prop "snykApiToken" _) as [token|]; [|reflexivity].
    destruct (truthy token); [|reflexivity]. cbn [negb].
    ConfigEndpoints.handler_steps. cbn [calls].
    destruct (negb (success _)); reflexivity.
Qed.

(** *** Insights and chat *)

Lemma insights_body (insights : list Json) :
  sent (object_literal [("insights", Some (JArr insights))])
  = JObj [("insights", JArr insights)].
Proof. reflexivity. Qed.

(** X21: [GET /api/insights] always answers 200 with an [insights] array,
    whatever the LLM backend does: a failure of the backend comes back as
    an insight. With no stored audit logs the array is empty, and neither
    the session store nor the backend is touched. *)
Theorem insights_always_answered (w : World) now req s :
  exists insights s',
    run w (handle (get_insights now req) s)
    = Fulfilled (mkResponse 200 (JObj [("insights", JArr insights)]), s')
    /\ (w _ GetAllAuditLogs = [] ->
        insights = [] /\ s' = s
        /\ calls w (handle (get_insights now req) s) = 1%nat)
    /\ (w _ GetAllAuditLogs <> [] ->
        let o := getLlmConfiguration (st_sessions s) now (session_request req 0) in
        run w (LlmService.analyzeAuditLogs (w _ GetAllAuditLogs) (llm_config_of (result o)))
        = Fulfilled insights
        /\ s' = mkServerState (sessions o) (st_cookies s ++ cookies o)%list).
Proof.
  unfold get_insights. ConfigEndpoints.handler_steps. cbn [run calls].
  destruct (w _ GetAllAuditLogs) as [|l logs] eqn:Hlogs.
  - cbn [length Nat.eqb]. ConfigEndpoints.handler_steps. cbn [run calls].
    exists [], s. rewrite insights_body. repeat split; congruence.
  - cbn [length Nat.eqb]. ConfigEndpoints.handler_steps.
    destruct (ServiceClaims.analyzeAuditLogs_never_throws w (l :: logs)
                (llm_config_of (result (getLlmConfiguration (st_sessions s) now
                                          (session_request req 0)))))
      as [insights Hrun].
    rewrite !run_bind, run_try_catch, run_bind, Hrun. cbn [run fst snd].
    eexists. eexists. split; [rewrite insights_body; reflexivity|].
    split; [congruence|]. intros _. cbv zeta. split; reflexivity.
Qed.

Lemma chat_body id reply (updated : list Json) :
  sent (object_literal
          [("sessionId", Some (JStr id)); ("response", Some (JStr reply));
           ("messages", Some (JArr updated))])
  = JObj [("sessionId", JStr id); ("response", JStr reply); ("messages", JArr updated)].
Proof. reflexivity. Qed.

(** X22: a chat turn appends to the transcript. For a body that passes
    validation the transcript used is that of the session named in the
    body, or of a new session when none is named or found; a stored
    transcript that is not an array counts as empty. The reply is never
    empty. The transcript written back and answered is the old one followed
    by the user message and the reply, each stamped with the time read when
    it was made: the user message before the LLM configuration is read and
    the backend asked, the reply once the backend has answered; if writing
    the transcript back fails the answer is a 500 with the error's
    message. *)
Theorem chat_appends_turn (w : World) (clock : Clock) req s parsed :
  Schema.chatMessageSchema (req_body req) = inr parsed ->
  let logs := w _ GetAllAuditLogs in
  let found :=
    match Schema.sessionId parsed with
    | Some id => if JsString.truthy id then w _ (GetChatSession id) else None
    | None => None
    end in
  let session :=
    match found with
    | Some c => c
    | None => w _ (CreateChatSession "default" (JArr []))
    end in
  let previous := match Schema.messages session with JArr l => l | _ => [] end in
  let o := getLlmConfiguration (st_sessions s) (clock 1%nat) (session_request req 0) in
  let s' := mkServerState (sessions o) (st_cookies s ++ cookies o)%list in
  exists reply,
    reply <> EmptyString
    /\ run w (LlmService.chatWithAI (Schema.message parsed) logs previous
                (llm_config_of (result o)))
       = Fulfilled reply
    /\ let updated :=
         (previous
          ++ [chat_message_json "user" (Schema.message parsed)
                (JsDate.toISOString (clock 0%nat));
              chat_message_json "assistant" reply
                (JsDate.toISOString (clock 2%nat))])%list in
       run w (handle (post_chat clock req) s)
       = match w _ (UpdateChatSession (Schema.chat_id session) (JArr updated)) with
         | Fulfilled _ =>
             Fulfilled
               (mkResponse 200
                  (JObj [("sessionId", JStr (Schema.chat_id session));
                         ("response", JStr reply);
                         ("messages", JArr updated)]),
                s')
         | Rejected e => Fulfilled (mkResponse 500 (error_body (Async.message e)), s')
         end.
Proof.
  intros Hparsed logs found session previous o s'.
  destruct (ServiceMore.chatWithAI_settles w (Schema.message parsed) logs previous
              (llm_config_of (result o))) as (reply & Hrun & Hne).
  exists reply. split; [exact Hne|]. split; [exact Hrun|]. cbv zeta.
  rewrite run_handle. unfold post_chat. rewrite Hparsed. cbn [zod_parse].
  rewrite run_h_bind. cbn [mret h_ret runH run].
  rewrite run_h_bind, run_lift. cbn [await run]. fold logs.
  rewrite run_h_bind.
  assert (Hfound :
    run w (runH match Schema.sessionId parsed with
                | Some id => if JsString.truthy id then lift (await (GetChatSession id))
                             else mret None
                | None => mret None
                end s)
    = Fulfilled (Fulfilled found, s)).
  { subst found. destruct (Schema.sessionId parsed) as [id|]; [|reflexivity].
    destruct (JsString.truthy id); [|reflexivity]. now rewrite run_lift. }
  rewrite Hfound. rewrite run_h_bind.
  assert (Hsession :
    run w (runH match found with
                | Some c => mret c
                | None => lift (await (CreateChatSession "default" (JArr [])))
                end s)
    = Fulfilled (Fulfilled session, s)).
  { subst session. destruct found; [reflexivity|]. now rewrite run_lift. }
  rewrite Hsession. fold previous.
  rewrite run_h_bind. cbn [store_call runH run]. fold o. fold s'.
  rewrite run_h_bind, run_lift, Hrun.
  rewrite run_h_bind, run_lift. cbn [await_settled run].
  destruct (w _ (UpdateChatSession _ _)); [|reflexivity].
  cbn [json mret h_ret runH run]. now rewrite chat_body.
Qed.

(** A turn whose reply is stamped two seconds after the user message. *)
Lemma chat_appends_turn_witness :
  let req := Sample.request (JObj [("message", JStr "hello")]) [] in
  let clock : Clock := fun k => match k with O => 0 | 1%nat => 5 | _ => 2000 end in
  exists reply s',
    reply <> EmptyString
    /\ run (Sample.world "ok") (handle (post_chat clock req) Sample.empty_state)
       = Fulfilled
           (mkResponse 200
              (JObj [("sessionId", JStr "chat-1");
                     ("response", JStr reply);
                     ("messages",
                      JArr [chat_message_json "user" "hello" "1970-01-01T00:00:00.000Z";
                            chat_message_json "assistant" reply
                              "1970-01-01T00:00:02.000Z"])]),
            s').
Proof.
  intros req clock.
  destruct (chat_appends_turn (Sample.world "ok") clock req Sample.empty_state
              (Schema.mkChatMessage "hello" None) eq_refl)
    as (reply & Hne & _ & Hrun).
  exists reply. eexists. split; [exact Hne | exact Hrun].
Defined.

(** *** The audit-log endpoint *)

Section AuditLogs.
Variable Date_parse : string -> option Z.

(** Keeping the fetched items never fails the request: a rejected write is
    skipped. It takes one call per item. *)
Lemma store_items_settles (w : World) l :
  run w (store_items Date_parse l) = Fulfilled tt
  /\ calls w (store_items Date_parse l) = length l.
Proof.
  induction l as [|item r [IHrun IHcalls]]; [split; reflexivity|].
  cbn [store_items run calls length]. now rewrite IHrun, IHcalls.
Qed.

(** X23: an organisation comes before a group. With a stored token and a
    stored organisation, and dates that can be read, [GET /api/audit-logs]
    makes one upstream call, for the organisation's logs, with the stored
    token, the stored version or the default one, and the filters of the
    query; a stored group is not asked. The page it gets is answered as it
    is after one write per item, whether the writes succeed or not; an
    upstream failure is answered with a 500 carrying its message. *)
Theorem audit_logs_organisation_first (w : World) now req s filters config sid org
    from' to' :
  Schema.auditLogFilterSchema (queryParams req) = inr filters ->
  result (getApiConfiguration (st_sessions s) now (session_request req 0))
  = Some (config, sid) ->
  truthy (snykApiToken config) = true ->
  Store.orgId config = Some org ->
  truthy org = true ->
  formatDate Date_parse (Schema.from filters) = mret from' ->
  formatDate Date_parse (Schema.to filters) = mret to' ->
  let o := getApiConfiguration (st_sessions s) now (session_request req 0) in
  let s' := mkServerState (sessions o) (st_cookies s ++ cookies o)%list in
  let version :=
    match or_else (Store.apiVersion config) (Some (JStr DEFAULT_API_VERSION)) with
    | Some v => v
    | None => JStr DEFAULT_API_VERSION
    end in
  let call :=
    GetOrganizationAuditLogs (snykApiToken config) version org
      (mkSnykFilters from' to' (Schema.events filters) (Schema.excludeEvents filters)
         (Schema.size filters) (Schema.cursor filters) (Schema.search filters)) in
  run w (handle (get_audit_logs Date_parse now req) s)
  = match w _ call with
    | Fulfilled page =>
        Fulfilled
          (mkResponse 200
             (sent (object_literal
                [("items", Some (JArr (map item_json (items page))));
                 ("nextCursor", option_map JStr (nextCursor page));
                 ("total", Some (JNum (Async.total page) 0))])),
           s')
    | Rejected e => Fulfilled (mkResponse 500 (error_body (Async.message e)), s')
    end
  /\ calls w (handle (get_audit_logs Date_parse now req) s)
     = match w _ call with
       | Fulfilled page => S (length (items page))
       | Rejected _ => 1%nat
       end.
Proof.
  intros Hfilters Hres Htoken Horg Htruthy Hfrom Hto o s' version call.
  rewrite run_handle, calls_handle. unfold get_audit_logs.
  rewrite Hfilters. cbn [zod_parse].
  rewrite run_h_bind, calls_h_bind. cbn [mret h_ret runH run calls].
  rewrite run_h_bind, calls_h_bind. cbn [store_call runH run calls].
  fold o. fold s'. unfold o at 1 2. rewrite Hres. rewrite Htoken. cbn [negb].
  rewrite Hfrom, Hto.
  rewrite run_h_bind, calls_h_bind. cbn [mret h_ret runH run calls].
  rewrite run_h_bind, calls_h_bind. cbn [mret h_ret runH run calls].
  rewrite Horg, Htruthy. fold version. fold call.
  rewrite run_h_bind, calls_h_bind.
  rewrite run_h_bind, calls_h_bind, run_lift, calls_lift.
  cbn [await_settled run calls].
  destruct (w _ call) as [page|e]; cbn [run calls mret h_ret runH].
  - rewrite run_h_bind, calls_h_bind, run_lift, calls_lift.
    destruct (store_items_settles w (items page)) as [-> ->].
    cbn [json mret h_ret runH run calls]. split; [reflexivity | lia].
  - split; reflexivity.
Qed.

(** X24: without a usable configuration the upstream service is not asked.
    For a query that passes validation, [GET /api/audit-logs] answers 400
    without any external call when the session holds no upstream
    configuration, and also when the stored configuration names neither an
    organisation nor a group. *)
Theorem audit_logs_refused_unasked (w : World) now req s filters :
  Schema.auditLogFilterSchema (queryParams req) = inr filters ->
  let o := getApiConfiguration (st_sessions s) now (session_request req 0) in
  let s' := mkServerState (sessions o) (st_cookies s ++ cookies o)%list in
  (result o = None ->
   run w (handle (get_audit_logs Date_parse now req) s)
   = Fulfilled (mkResponse 400
                  (error_body "Snyk API not configured or session expired"), s')
   /\ calls w (handle (get_audit_logs Date_parse now req) s) = 0%nat)
  /\ (forall config sid from' to',
        result o = Some (config, sid) ->
        truthy (snykApiToken config) = true ->
        falsy (Store.orgId config) = true ->
        falsy (Store.groupId config) = true ->
        formatDate Date_parse (Schema.from filters) = mret from' ->
        formatDate Date_parse (Schema.to filters) = mret to' ->
        run w (handle (get_audit_logs Date_parse now req) s)
        = Fulfilled (mkResponse 400
                       (error_body "No organization or group ID configured"), s')
        /\ calls w (handle (get_audit_logs Date_parse now req) s) = 0%nat).
Proof.
  intros Hfilters o s'.
  assert (Hstart :
    forall k : option (SnykConfig * string) -> H Response,
      run w (runH (mbind k (store_call (fun st =>
               getApiConfiguration st now (session_request req 0)))) s)
      = run w (runH (k (result o)) s')
      /\ calls w (runH (mbind k (store_call (fun st =>
               getApiConfiguration st now (session_request req 0)))) s)
         = calls w (runH (k (result o)) s')).
  { intros k. rewrite run_h_bind, calls_h_bind. cbn [store_call runH run calls].
    split; reflexivity. }
  split.
  - intros Hres. rewrite run_handle, calls_handle. unfold get_audit_logs.
    rewrite Hfilters. cbn [zod_parse].
    rewrite run_h_bind, calls_h_bind. cbn [mret h_ret runH run calls].
    match goal with
    | |- context [mbind ?k (store_call _)] => destruct (Hstart k) as [-> ->]
    end.
    rewrite Hres. split; reflexivity.
  - intros config sid from' to' Hres Htoken Horg Hgroup Hfrom Hto.
    rewrite run_handle, calls_handle. unfold get_audit_logs.
    rewrite Hfilters. cbn [zod_parse].
    rewrite run_h_bind, calls_h_bind. cbn [mret h_ret runH run calls].
    match goal with
    | |- context [mbind ?k (store_call _)] => destruct (Hstart k) as [-> ->]
    end.
    rewrite Hres, Htoken. cbn [negb]. rewrite Hfrom, Hto.
    rewrite run_h_bind, calls_h_bind. cbn [mret h_ret runH run calls].
    rewrite run_h_bind, calls_h_bind. cbn [mret h_ret runH run calls].
    rewrite run_h_bind, calls_h_bind.
    unfold falsy in Horg, Hgroup.
    destruct (Store.orgId config) as [org|], (Store.groupId config) as [grp|];
      try (apply negb_true_iff in Horg; rewrite Horg);
      try (apply negb_true_iff in Hgroup; rewrite Hgroup);
      cbn [mret h_ret runH run calls]; split; reflexivity.
Qed.

End AuditLogs.

Lemma audit_logs_organisation_first_witness :
  let session := mkSession "s1" (Some (mkStored Sample.snyk 1800000)) None 0 0 in
  let s := mkServerState {[ "s1" := session ]} [] in
  let req := mkHttpRequest (Some "s1") (JObj []) [] (fun _ => []) in
  exists s',
    run (Sample.world "ok") (handle (get_audit_logs (fun _ => None) 1000 req) s)
    = Fulfilled (mkResponse 200 (JObj [("items", JArr []); ("total", JNum 0 0)]), s')
    /\ calls (Sample.world "ok") (handle (get_audit_logs (fun _ => None) 1000 req) s)
       = 1%nat.
Proof.
  intros session s req.
  destruct (audit_logs_organisation_first (fun _ => None) (Sample.world "ok") 1000 req s
              _ Sample.snyk "s1" (JStr "org-1") None None
              eq_refl eq_refl eq_refl eq_refl eq_refl eq_refl eq_refl)
    as [Hrun Hcalls].
  eexists. split; [exact Hrun | exact Hcalls].
Defined.

Lemma audit_logs_refused_unasked_witness :
  let req := Sample.request (JObj []) [] in
  exists s',
    run (Sample.world "ok")
      (handle (get_audit_logs (fun _ => None) 1000 req) Sample.empty_state)
    = Fulfilled (mkResponse 400
                   (error_body "Snyk API not configured or session expired"), s')
    /\ calls (Sample.world "ok")
         (handle (get_audit_logs (fun _ => None) 1000 req) Sample.empty_state)
       = 0%nat.
Proof.
  intros req.
  destruct (audit_logs_refused_unasked (fun _ => None) (Sample.world "ok") 1000 req
              Sample.empty_state _ eq_refl) as [H _].
  eexists. apply H. reflexivity.
Defined.

(** *** The executive-summary endpoint *)

Section ExecutiveSummary.
Variable Date_parse : string -> option Z.
Variable temp_id : nat -> string.

Lemma summary_body text :
  sent (object_literal [("summary", Some (JStr text))]) = JObj [("summary", JStr text)].
Proof. reflexivity. Qed.

Lemma fetch_page (w : World) (call : Event (Settled SnykPage)) s :
  run w (runH (mbind (fun page => mret (Some page)) (lift (await_settled call))) s)
  = match w _ call with
    | Fulfilled page => Fulfilled (Fulfilled (Some page), s)
    | Rejected e => Fulfilled (Rejected e, s)
    end
  /\ calls w (runH (mbind (fun page => mret (Some page)) (lift (await_settled call))) s)
     = 1%nat.
Proof.
  rewrite run_h_bind, calls_h_bind, run_lift, calls_lift.
  cbn [await_settled run calls].
  destruct (w _ call); split; reflexivity.
Qed.

(** What is done with the page once it is fetched. *)
Lemma summary_of_page (w : World) (clock : Clock) req s1 (page : SnykPage) :
  let k := fun fetched : option SnykPage =>
    match fetched with
    | None =>
        json 200 (sent (object_literal [("summary", Some (JStr RoutesMore.NO_TARGET))]))
    | Some snykResponse =>
        if (length (items snykResponse) =? 0)%nat
        then json 200 (sent (object_literal
               [("summary", Some (JStr RoutesMore.NO_LOGS))]))
        else
          let auditLogs :=
            imap (RoutesMore.audit_log_of Date_parse temp_id) (items snykResponse) in
          llmResult ← store_call (fun st =>
            Store.getLlmConfiguration st (clock 3%nat) (session_request req 1));
          let llmConfig := llm_config_of llmResult in
          summary ← lift (LlmService.generateExecutiveSummary (clock 4%nat) (clock 5%nat)
                            auditLogs llmConfig);
          json 200 (sent (object_literal [("summary", Some (JStr summary))]))
    end in
  exists text s',
    run w (runH (k (Some page)) s1)
    = Fulfilled (Fulfilled (mkResponse 200 (JObj [("summary", JStr text)])), s')
    /\ (calls w (runH (k (Some page)) s1) <= 1)%nat
    /\ (items page = [] ->
        text = RoutesMore.NO_LOGS /\ calls w (runH (k (Some page)) s1) = 0%nat).
Proof.
  intros k. subst k. cbv beta iota.
  destruct (items page) as [|item r] eqn:Hitems.
  - cbn [length Nat.eqb json mret h_ret runH run calls]. rewrite summary_body.
    eexists. eexists. split; [reflexivity|]. split; [lia|]. intros _. split; reflexivity.
  - cbn [length Nat.eqb]. cbv zeta.
    rewrite run_h_bind, calls_h_bind. cbn [store_call runH run calls].
    rewrite run_h_bind, calls_h_bind, run_lift, calls_lift.
    match goal with
    | |- context [run w (LlmService.generateExecutiveSummary ?n ?d ?l ?c)] =>
        destruct (ServiceMore.generateExecutiveSummary_settles w n d l c) as [text Hrun];
        pose proof (ServiceMore.generateExecutiveSummary_calls w n d l c) as Hcalls;
        rewrite Hrun
    end.
    cbn [json mret h_ret runH run calls]. rewrite summary_body.
    eexists. eexists. split; [reflexivity|]. split; [lia|]. intros [=].
Qed.

(** The choice of the upstream call: the organisation's logs, else the
    group's, else none. *)
Lemma fetch_outcome (w : World) config apiToken apiVersion snykFilters s1 :
  let fetch :=
    match Store.orgId config, Store.groupId config with
    | Some org, g =>
        if truthy org
        then page ← lift (await_settled
               (GetOrganizationAuditLogs apiToken apiVersion org snykFilters));
             mret (Some page)
        else
          match g with
          | Some grp =>
              if truthy grp
              then page ← lift (await_settled
                     (GetGroupAuditLogs apiToken apiVersion grp snykFilters));
                   mret (Some page)
              else mret None
          | None => mret None
          end
    | None, Some grp =>
        if truthy grp
        then page ← lift (await_settled
               (GetGroupAuditLogs apiToken apiVersion grp snykFilters));
             mret (Some page)
        else mret None
    | None, None => mret None
    end in
  (run w (runH fetch s1) = Fulfilled (Fulfilled None, s1)
   /\ calls w (runH fetch s1) = 0%nat)
  \/ exists call : Event (Settled SnykPage),
       run w (runH fetch s1)
       = match w _ call with
         | Fulfilled page => Fulfilled (Fulfilled (Some page), s1)
         | Rejected e => Fulfilled (Rejected e, s1)
         end
       /\ calls w (runH fetch s1) = 1%nat.
Proof.
  cbv zeta.
  destruct (Store.orgId config) as [org|]; [destruct (truthy org)|];
    try (right; eexists; apply fetch_page);
    (destruct (Store.groupId config) as [grp|]; [destruct (truthy grp)|]);
    try (right; eexists; apply fetch_page);
    left; split; reflexivity.
Qed.

(** X25: [GET /api/executive-summary] answers a summary unless the upstream
    service fails. The answer is a 200 carrying a [summary] string, or a
    500 carrying the message of the rejected upstream call; a failing LLM
    backend never gives a 500. At most two external calls are made, and
    none when the session holds no upstream configuration, where the
    summary is the fixed sentence saying so. *)
Theorem executive_summary_answers (w : World) (clock : Clock) req s :
  let o := getApiConfiguration (st_sessions s) (clock 0%nat) (session_request req 0) in
  let route := handle (RoutesMore.get_executive_summary Date_parse temp_id clock req) s in
  exists r s',
    run w route = Fulfilled (r, s')
    /\ (calls w route <= 2)%nat
    /\ ((exists text, r = mkResponse 200 (JObj [("summary", JStr text)]))
        \/ (exists (call : Event (Settled SnykPage)) e,
              w _ call = Rejected e
              /\ r = mkResponse 500 (error_body (Async.message e))))
    /\ (result o = None ->
        calls w route = 0%nat
        /\ r = mkResponse 200 (JObj [("summary", JStr RoutesMore.NO_CONFIGURATION)])).
Proof.
  intros o route. subst route.
  rewrite run_handle, calls_handle. unfold RoutesMore.get_executive_summary.
  rewrite run_h_bind, calls_h_bind. cbn [store_call runH run calls]. fold o.
  destruct (result o) as [[config sid]|] eqn:Hres.
  2:{ cbn [json mret h_ret runH run calls]. rewrite summary_body.
      eexists. eexists. split; [reflexivity|]. split; [lia|].
      split; [left; eauto|]. intros _. split; reflexivity. }
  destruct (truthy (snykApiToken config)); cbn [negb].
  2:{ cbn [json mret h_ret runH run calls]. rewrite summary_body.
      eexists. eexists. split; [reflexivity|]. split; [lia|].
      split; [left; eauto | discriminate]. }
  cbv zeta. rewrite run_h_bind, calls_h_bind.
  set (s1 := mkServerState _ _).
  match goal with
  | |- context [GetOrganizationAuditLogs ?t ?v _ ?f] =>
      destruct (fetch_outcome w config t v f s1) as [[Hrun Hcalls]|(call & Hrun & Hcalls)]
  end; cbv zeta in Hrun, Hcalls; rewrite Hrun, Hcalls.
  - cbn [json mret h_ret runH run calls]. rewrite summary_body.
    eexists. eexists. split; [reflexivity|]. split; [lia|].
    split; [left; eauto | discriminate].
  - destruct (w _ call) as [page|e] eqn:Hcall.
    + destruct (summary_of_page w clock req s1 page) as (text & s' & Hk & Hle & _).
      cbv zeta in Hk, Hle. rewrite Hk.
      eexists. eexists. split; [reflexivity|]. split; [lia|].
      split; [left; eauto | discriminate].
    + eexists. eexists. split; [reflexivity|]. split; [lia|].
      split; [right; eauto | discriminate].
Qed.

End ExecutiveSummary.

End EndpointsMore.

(** ** The endpoints on the transient storage *)

Module StorageFacts.
Import JSON Async Llm Routes AsyncFacts MemStorage.

Section Machine.
Variable uuid : nat -> string.
Variable w : World.

Lemma run_on_bind {A B} (m : IO A) (f : A -> IO B) mach :
  run_on uuid w (bind m f) mach
  = match run_on uuid w m mach with
    | (Fulfilled a, mach') => run_on uuid w (f a) mach'
    | (Rejected e, mach') => (Rejected e, mach')
    end.
Proof.
  revert mach. induction m as [a|e|X ev k IH]; intros mach; simpl; auto.
Qed.

Lemma run_on_try_catch {A} (m : IO A) (h : JsError -> IO A) mach :
  run_on uuid w (try_catch m h) mach
  = match run_on uuid w m mach with
    | (Fulfilled a, mach') => (Fulfilled a, mach')
    | (Rejected e, mach') => run_on uuid w (h e) mach'
    end.
Proof.
  revert mach. induction m as [a|e|X ev k IH]; intros mach; simpl; auto.
Qed.

Lemma run_on_h_bind {A B} (m : H A) (f : A -> H B) s mach :
  run_on uuid w (runH (mbind f m) s) mach
  = match run_on uuid w (runH m s) mach with
    | (Fulfilled (Fulfilled a, s'), mach') => run_on uuid w (runH (f a) s') mach'
    | (Fulfilled (Rejected e, s'), mach') => (Fulfilled (Rejected e, s'), mach')
    | (Rejected e, mach') => (Rejected e, mach')
    end.
Proof.
  unfold mbind, h_bind. cbn [runH]. rewrite run_on_bind.
  destruct (run_on uuid w (runH m s) mach) as [[[[a|e] s']|e] mach']; reflexivity.
Qed.

Lemma run_on_lift {A} (m : IO A) s mach :
  run_on uuid w (runH (lift m) s) mach
  = match run_on uuid w m mach with
    | (Fulfilled a, mach') => (Fulfilled (Fulfilled a, s), mach')
    | (Rejected e, mach') => (Fulfilled (Rejected e, s), mach')
    end.
Proof.
  unfold lift. cbn [runH]. rewrite run_on_try_catch, run_on_bind.
  destruct (run_on uuid w m mach) as [[a|e] mach']; reflexivity.
Qed.

Lemma run_on_handle (h : H Response) s mach :
  run_on uuid w (handle h s) mach
  = match run_on uuid w (runH h s) mach with
    | (Fulfilled (Fulfilled r, s'), mach') => (Fulfilled (r, s'), mach')
    | (Fulfilled (Rejected e, s'), mach') =>
        (Fulfilled (mkResponse 500 (error_body (Async.message e)), s'), mach')
    | (Rejected e, mach') => (Rejected e, mach')
    end.
Proof.
  unfold handle. rewrite run_on_bind.
  destruct (run_on uuid w (runH h s) mach) as [[[[r|e] s']|e] mach']; reflexivity.
Qed.

(** A computation that only calls LLM backends leaves the storage alone
    and settles as it does without it. *)
Lemma run_on_backend_only {A} (m : IO A) mach :
  backend_only m -> run_on uuid w m mach = (run w m, mach).
Proof.
  induction m as [a|e|X ev k IH]; simpl; auto.
  intros [Hev Hk]. destruct ev; try discriminate; simpl; apply IH, Hk.
Qed.

End Machine.

Lemma backend_only_bind {A B} (m : IO A) (f : A -> IO B) :
  backend_only m -> (forall a, backend_only (f a)) -> backend_only (bind m f).
Proof.
  intros Hm Hf. induction m as [a|e|X ev k IH]; simpl in *; auto.
  destruct Hm as [Hev Hk]. split; [exact Hev|]. intros x. apply IH, Hk.
Qed.

Lemma backend_only_try_catch {A} (m : IO A) (h : JsError -> IO A) :
  backend_only m -> (forall e, backend_only (h e)) -> backend_only (try_catch m h).
Proof.
  intros Hm Hh. induction m as [a|e|X ev k IH]; simpl in *; auto.
  destruct Hm as [Hev Hk]. split; [exact Hev|]. intros x. apply IH, Hk.
Qed.

Lemma backend_only_gemini_text response : backend_only (gemini_text response).
Proof.
  unfold gemini_text.
  destruct (g_text response) as [t|]; [destruct (JsString.truthy t); [exact I|]|];
    destruct (candidate_text response) as [v|]; try exact I;
    destruct (truthy v); exact I.
Qed.

Lemma backend_only_anthropic_text data : backend_only (anthropic_text data).
Proof.
  unfold anthropic_text.
  destruct (match prop "content" (Some data) with
            | Some JNull => _ | Some (JArr blocks) => _ | Some _ => _ | None => _
            end) as [e|block]; [exact I|].
  destruct (prop "text" block) as [[]|]; exact I.
Qed.

(** Whatever provider the router picks, it calls nothing but its backend. *)
Lemma backend_only_generateText config messages options :
  backend_only (generateText (getProvider config) messages options).
Proof.
  rewrite RouterClaims.getProvider_spec. unfold Spec.router.
  destruct config as [c|]; [|exact I].
  destruct (_ || _); [exact I|].
  destruct (Spec.family_of _) as [[]|]; [| | |exact I]; unfold Spec.adapter;
    cbn [generateText createGeminiProvider createOpenAIProvider
         createAnthropicProvider mbind io_bind bind await_settled backend_only
         is_backend];
    (split; [reflexivity|]); intros [res|e]; cbn [bind backend_only]; try exact I.
  - apply backend_only_gemini_text.
  - destruct (negb (Async.ok res)); [exact I|].
    destruct (Async.json res) as [data|e]; [|exact I].
    destruct data; try exact I; destruct (prop "content" _) as [[]|]; exact I.
  - destruct (negb (Async.ok res)); [exact I|].
    destruct (Async.json res) as [data|e]; [|exact I].
    destruct data; try exact I; apply backend_only_anthropic_text.
Qed.

Lemma backend_only_chatWithAI text auditLogs previous llmConfig :
  backend_only (LlmService.chatWithAI text auditLogs previous llmConfig).
Proof.
  unfold LlmService.chatWithAI. apply backend_only_try_catch; [|intros; exact I].
  cbv zeta. destruct (LlmService.transcript previous); [exact I|].
  change (mbind ?f ?m) with (bind m f).
  apply backend_only_bind; [apply backend_only_generateText | intros; exact I].
Qed.

Lemma backend_only_analyzeAuditLogs auditLogs llmConfig :
  backend_only (LlmService.analyzeAuditLogs auditLogs llmConfig).
Proof.
  unfold LlmService.analyzeAuditLogs. apply backend_only_try_catch; [|intros; exact I].
  cbv zeta. change (mbind ?f ?m) with (bind m f).
  apply backend_only_bind; [apply backend_only_generateText | intros; exact I].
Qed.

Lemma map_set_fresh {V} k (v : V) m :
  ~ In k (map fst m) -> map_set k v m = (m ++ [(k, v)])%list.
Proof.
  induction m as [|[k0 v0] r IH]; simpl; [reflexivity|].
  intros H. destruct (String.eqb k k0) eqn:E.
  - apply String.eqb_eq in E. subst. tauto.
  - rewrite IH by tauto. reflexivity.
Qed.

End StorageFacts.

Module StorageMore.
Import JSON Async Llm Routes AsyncFacts MemStorage StorageFacts.

Lemma well_keyed_insert st id c :
  well_keyed st -> Schema.chat_id c = id ->
  well_keyed (mkStorage (auditLogs st) (<[id := c]> (chatSessions st))).
Proof.
  intros Hwk Hid id' c'. cbn [chatSessions].
  destruct (decide (id = id')) as [<-|Hne].
  - rewrite lookup_insert_eq. now intros [= <-].
  - rewrite lookup_insert_ne by assumption. apply Hwk.
Qed.

(** X26: on the transient storage a chat turn cannot fail, and the
    conversation is kept. For a body that passes validation the answer is
    a 200: the session is the one the body names if the storage holds it,
    a new one otherwise, and writing the transcript back finds it. The
    storage then holds, under the identifier answered, the transcript
    answered (the old one, the user message stamped with the time read
    before the backend was asked, the reply stamped with the time read
    after it answered), which is what the next turn naming that identifier
    starts from; the stored audit logs are untouched. *)
Theorem chat_turn_is_kept uuid (w : World) (clock : Clock) req s parsed mach :
  Schema.chatMessageSchema (req_body req) = inr parsed ->
  well_keyed (storage mach) ->
  let found :=
    match Schema.sessionId parsed with
    | Some id => if JsString.truthy id then getChatSession id (storage mach) else None
    | None => None
    end in
  let id := match found with Some c => Schema.chat_id c | None => uuid (issued mach) end in
  let previous :=
    match found with
    | Some c => match Schema.messages c with JArr l => l | _ => [] end
    | None => []
    end in
  let o := Store.getLlmConfiguration (st_sessions s) (clock 1%nat)
             (session_request req 0) in
  let s' := mkServerState (Store.sessions o) (st_cookies s ++ Store.cookies o)%list in
  exists reply mach',
    reply <> EmptyString
    /\ let updated :=
         (previous
          ++ [chat_message_json "user" (Schema.message parsed)
                (JsDate.toISOString (clock 0%nat));
              chat_message_json "assistant" reply
                (JsDate.toISOString (clock 2%nat))])%list in
       run_on uuid w (handle (post_chat clock req) s) mach
       = (Fulfilled
            (mkResponse 200
               (JObj [("sessionId", JStr id); ("response", JStr reply);
                      ("messages", JArr updated)]),
             s'),
          mach')
       /\ (exists c, getChatSession id (storage mach') = Some c
                     /\ Schema.chat_id c = id /\ Schema.messages c = JArr updated)
       /\ well_keyed (storage mach')
       /\ auditLogs (storage mach') = auditLogs (storage mach).
Proof.
  intros Hparsed Hwk found id previous o s'.
  destruct (ServiceMore.chatWithAI_settles w (Schema.message parsed)
              (getAllAuditLogs (storage mach)) previous
              (llm_config_of (Store.result o))) as (reply & Hrun & Hne).
  exists reply.
  assert (Hkey : forall c, found = Some c ->
            chatSessions (storage mach) !! Schema.chat_id c = Some c).
  { subst found. intros c. destruct (Schema.sessionId parsed) as [i|]; [|discriminate].
    destruct (JsString.truthy i); [|discriminate]. unfold getChatSession.
    intros Hc. now rewrite (Hwk _ _ Hc). }
  rewrite run_on_handle. unfold post_chat. rewrite Hparsed. cbn [zod_parse].
  rewrite run_on_h_bind. cbn [mret h_ret runH run_on].
  rewrite run_on_h_bind, run_on_lift. cbn [await run_on answer fst snd].
  rewrite run_on_h_bind.
  assert (Hfound :
    run_on uuid w
      (runH match Schema.sessionId parsed with
            | Some id => if JsString.truthy id then lift (await (GetChatSession id))
                         else mret None
            | None => mret None
            end s) mach
    = (Fulfilled (Fulfilled found, s), mach)).
  { subst found. destruct (Schema.sessionId parsed) as [i|]; [|reflexivity].
    destruct (JsString.truthy i); [|reflexivity]. now rewrite run_on_lift. }
  rewrite Hfound. rewrite run_on_h_bind.
  destruct found as [c|] eqn:Hf.
  - cbn [mret h_ret runH run_on]. fold previous.
    rewrite run_on_h_bind. cbn [store_call runH run_on]. fold o. fold s'.
    rewrite run_on_h_bind, run_on_lift.
    rewrite (run_on_backend_only uuid w _ mach (backend_only_chatWithAI _ _ _ _)), Hrun.
    rewrite run_on_h_bind, run_on_lift.
    cbn [await_settled run_on answer fst snd updateChatSession].
    unfold updateChatSession. rewrite (Hkey c eq_refl).
    cbn [fst snd run_on json mret h_ret runH storage]. rewrite EndpointsMore.chat_body.
    eexists. split; [exact Hne|]. cbv zeta. split; [reflexivity|].
    cbn [storage]. split; [|split; [|reflexivity]].
    + eexists. unfold getChatSession. cbn [chatSessions].
      split; [apply lookup_insert_eq | split; reflexivity].
    + now apply well_keyed_insert.
  - rewrite run_on_lift. cbn [await run_on answer fst snd createChatSession truthy].
    cbn [Schema.messages]. fold previous.
    set (session := Schema.mkChatSession _ _ _).
    rewrite run_on_h_bind. cbn [store_call runH run_on]. fold o. fold s'.
    rewrite run_on_h_bind, run_on_lift.
    rewrite (run_on_backend_only uuid w _ _ (backend_only_chatWithAI _ _ _ _)), Hrun.
    rewrite run_on_h_bind, run_on_lift.
    cbn [await_settled run_on answer fst snd].
    unfold updateChatSession. cbn [storage chatSessions Schema.chat_id session].
    rewrite lookup_insert_eq.
    cbn [fst snd run_on json mret h_ret runH storage]. rewrite EndpointsMore.chat_body.
    eexists. split; [exact Hne|]. cbv zeta. split; [reflexivity|].
    cbn [storage]. split; [|split; [|reflexivity]].
    + eexists. unfold getChatSession. cbn [chatSessions].
      split; [apply lookup_insert_eq | split; reflexivity].
    + apply (well_keyed_insert (mkStorage _ _)); [|reflexivity].
      now apply well_keyed_insert.
Qed.

Lemma well_keyed_empty : well_keyed MemStorage.empty.
Proof. intros id c. cbn [chatSessions MemStorage.empty]. now rewrite lookup_empty. Qed.

(** A first turn, the reply stamped two seconds after the user message. *)
Lemma chat_turn_is_kept_witness :
  let req := Sample.request (JObj [("message", JStr "hello")]) [] in
  let mach := mkMachine MemStorage.empty 0 in
  let clock : Clock := fun k => match k with O => 0 | 1%nat => 5 | _ => 2000 end in
  exists reply s' mach' c,
    reply <> EmptyString
    /\ run_on (fun _ => "chat-1") (Sample.world "ok")
         (handle (post_chat clock req) Sample.empty_state) mach
       = (Fulfilled
            (mkResponse 200
               (JObj [("sessionId", JStr "chat-1"); ("response", JStr reply);
                      ("messages",
                       JArr [chat_message_json "user" "hello"
                               "1970-01-01T00:00:00.000Z";
                             chat_message_json "assistant" reply
                               "1970-01-01T00:00:02.000Z"])]),
             s'),
          mach')
    /\ getChatSession "chat-1" (storage mach') = Some c
    /\ Schema.messages c
       = JArr [chat_message_json "user" "hello" "1970-01-01T00:00:00.000Z";
               chat_message_json "assistant" reply "1970-01-01T00:00:02.000Z"].
Proof.
  intros req mach clock.
  destruct (chat_turn_is_kept (fun _ => "chat-1") (Sample.world "ok") clock req
              Sample.empty_state (Schema.mkChatMessage "hello" None) mach
              eq_refl well_keyed_empty)
    as (reply & mach' & Hne & Hrun & (c & Hc & _ & Hm) & _).
  exists reply. eexists. exists mach', c. split; [exact Hne|].
  split; [exact Hrun|]. split; [exact Hc | exact Hm].
Defined.

Lemma map_snd_imap {A B C} (l : list A) : forall f : nat -> A -> B * C,
  map snd (imap f l) = imap (fun k x => snd (f k x)) l.
Proof.
  induction l as [|x r IH]; intros f; [reflexivity|].
  cbn [imap map]. f_equal. apply IH.
Qed.

Section StoreItems.
Variable uuid : nat -> string.
Variable w : World.
Variable Date_parse : string -> option Z.

Lemma store_items_on_storage items : forall mach,
  NoDup (map fst (auditLogs (storage mach))
         ++ map (fun k => uuid (issued mach + k)) (seq 0 (length items)))%list ->
  run_on uuid w (store_items Date_parse items) mach
  = (Fulfilled tt,
     mkMachine
       (mkStorage
          (auditLogs (storage mach)
           ++ imap (fun k item =>
                      (uuid (issued mach + k),
                       stored_item Date_parse (uuid (issued mach + k)) item)) items)%list
          (chatSessions (storage mach)))
       (issued mach + length items)).
Proof.
  induction items as [|item r IH]; intros [[logs chats] n]; cbn [storage issued auditLogs
    chatSessions].
  - intros _. cbn [store_items run_on imap length]. now rewrite app_nil_r, Nat.add_0_r.
  - cbn [length seq map]. rewrite Nat.add_0_r. intros Hnd.
    cbn [store_items run_on answer fst snd createAuditLog storage issued auditLogs
         chatSessions].
    assert (Hfresh : ~ In (uuid n) (map fst logs)).
    { apply NoDup_app in Hnd as (_ & Hdisj & _). intros Hin.
      apply (Hdisj (uuid n)); [now apply list_elem_of_In | left]. }
    rewrite (map_set_fresh _ _ _ Hfresh). rewrite IH.
    + cbn [storage issued auditLogs chatSessions imap].
      rewrite Nat.add_0_r, <- app_assoc. cbn [app].
      f_equal. f_equal; [|lia]. f_equal. f_equal. f_equal.
      apply imap_ext. intros k x _. cbn. now rewrite Nat.add_succ_r.
    + cbn [storage issued auditLogs chatSessions].
      rewrite map_app. cbn [map fst]. rewrite <- app_assoc. cbn [app].
      rewrite <- seq_shift, map_map in Hnd.
      erewrite (map_ext (fun k => uuid (S n + k))); [exact Hnd|].
      intros k. cbn. now rewrite Nat.add_succ_r.
Qed.

(** X27: every fetch is kept in full. Run on the transient storage, the
    loop of the audit-log route that keeps the fetched items never fails;
    as long as the identifiers drawn are new, it appends one record per
    item, in the order of the page, after the records already there: items
    fetched twice are stored twice. The chat sessions are untouched. *)
Theorem fetched_items_accumulate items mach :
  NoDup (map fst (auditLogs (storage mach))
         ++ map (fun k => uuid (issued mach + k)) (seq 0 (length items)))%list ->
  exists mach',
    run_on uuid w (store_items Date_parse items) mach = (Fulfilled tt, mach')
    /\ getAllAuditLogs (storage mach')
       = (getAllAuditLogs (storage mach)
          ++ imap (fun k item => stored_item Date_parse (uuid (issued mach + k)) item)
               items)%list
    /\ chatSessions (storage mach') = chatSessions (storage mach)
    /\ issued mach' = (issued mach + length items)%nat.
Proof.
  intros Hnd. rewrite (store_items_on_storage items mach Hnd).
  eexists. split; [reflexivity|]. cbn [storage issued chatSessions].
  split; [|split; reflexivity].
  unfold getAllAuditLogs. cbn [auditLogs]. rewrite map_app. f_equal.
  apply map_snd_imap.
Qed.

End StoreItems.

Lemma fetched_items_accumulate_witness :
  let item := mkSnykItem "up-1" "org.edit" "2024-01-01T00:00:00Z" JNull None None None in
  let uuid := fun n => JsString.of_nat n in
  exists mach',
    run_on uuid (Sample.world "ok") (store_items (fun _ => None) [item; item])
      (mkMachine MemStorage.empty 0)
    = (Fulfilled tt, mach')
    /\ map Schema.id (getAllAuditLogs (storage mach')) = ["0"; "1"]
    /\ map Schema.event (getAllAuditLogs (storage mach')) = ["org.edit"; "org.edit"].
Proof.
  intros item uuid.
  destruct (fetched_items_accumulate uuid (Sample.world "ok") (fun _ => None)
              [item; item] (mkMachine MemStorage.empty 0))
    as (mach' & Hrun & Hall & _).
  - apply (bool_decide_unpack _). vm_compute. exact I.
  - exists mach'. split; [exact Hrun|]. rewrite Hall. split; reflexivity.
Defined.

End StorageMore.

(** ** The definitions on sample inputs *)

Module Evaluation.
Import JSON Async Llm Schema LlmService Routes.

Example trim_spaces : JsString.trim "  gpt 4  " = "gpt 4".
Proof. reflexivity. Qed.

Example trim_blank : JsString.trim "   " = EmptyString.
Proof. reflexivity. Qed.

Example trim_no_break_space :
  JsString.trim (Sample.nbsp ++ " openai" ++ Sample.nbsp) = "openai".
Proof. reflexivity. Qed.

Example no_break_space_is_blank :
  getProvider (Some (Store.mkLlmConfig "openai" Sample.nbsp "sk-test" None))
  = createNoOpProvider.
Proof. reflexivity. Qed.

Example lower_case : JsString.toLowerCase "Google GEMINI" = "google gemini".
Proof. reflexivity. Qed.

Example base_36 : JsString.toString_radix 36 1762149600000 = "mhiqdhc0".
Proof. reflexivity. Qed.

Example session_id_shape :
  Store.generateSessionId 1762149600000 [Byte.x0a; Byte.xff] = "mhiqdhc0-0aff".
Proof. reflexivity. Qed.

Example parse_two_strings : parse Sample.two_strings = Some (JArr [JStr "a"; JStr "b"]).
Proof. vm_compute. reflexivity. Qed.

Example parse_nested :
  parse "[1, 2.50, -3e2, true, null, {}, [ ] ]"
  = Some (JArr [JNum 1 0; JNum 250 (-2); JNum (-3) 2; JBool true; JNull; JObj []; JArr []]).
Proof. vm_compute. reflexivity. Qed.

Example parse_garbage : parse "not json" = None.
Proof. vm_compute. reflexivity. Qed.

Example parse_leading_zero : parse "01" = None.
Proof. vm_compute. reflexivity. Qed.

Example parse_surrogate_pair :
  parse (Sample.quoted "\uD83D\uDE00") = Some (JStr "😀").
Proof. vm_compute. reflexivity. Qed.

Example numbers_as_text :
  map toString [JNum 1 21; JNum 1 20; JNum 123 (-2); JNum 1 (-6); JNum 15 (-8);
                JNum (-25) 22; JNum 0 5]
  = ["1e+21"; "100000000000000000000"; "1.23"; "0.000001"; "1.5e-7";
     "-2.5e+23"; "0"].
Proof. vm_compute. reflexivity. Qed.

Example parseInt_cases :
  map parseInt ["500"; " 42px"; "0x1F"; "-7"; "abc"; "0"]
  = [Some 500; Some 42; Some 31; Some (-7); None; Some 0].
Proof. vm_compute. reflexivity. Qed.

Example iso_date : JsDate.toISOString 951782400000 = "2000-02-29T00:00:00.000Z".
Proof. vm_compute. reflexivity. Qed.

Example long_date : JsDate.toLocaleDateString 1762149600123 = "November 3, 2025".
Proof. vm_compute. reflexivity. Qed.

(** Integer-like keys come first in an object, in numeric order. *)
Example histogram_order :
  eventSummary
    (map summarize
       [Sample.log "org.edit" 0 "a"; Sample.log "10" 0 "a"; Sample.log "2" 0 "a";
        Sample.log "org.edit" 0 "b"])
  = [("2", 1); ("10", 1); ("org.edit", 2)].
Proof. vm_compute. reflexivity. Qed.

Example top_events :
  topEvents [("2", 1); ("10", 1); ("org.edit", 2)] = "org.edit: 2, 2: 1, 10: 1".
Proof. vm_compute. reflexivity. Qed.

Example distinct_users :
  uniqueUsers
    (map summarize
       [Sample.log "e" 0 "a@x"; Sample.log "e" 0 "b@x"; Sample.log "e" 0 "a@x";
        Sample.log "e" 0 EmptyString])
  = 3%nat.
Proof. vm_compute. reflexivity. Qed.

(** The scenario of the specification: store an LLM configuration, read it
    back, and the key is not in the answer. *)
Example llm_config_round_trip :
  let body := JObj [("provider", JStr "openai"); ("model", JStr "gpt-4o-mini");
                    ("apiKey", JStr "sk-test")] in
  let posted := handle (post_llm_config 0 (Sample.request body [])) Sample.empty_state in
  match posted with
  | Ret (r1, s1) =>
      r1 = mkResponse 200 (JObj [("provider", JStr "openai");
                                 ("model", JStr "gpt-4o-mini");
                                 ("configured", JBool true)])
      /\ match handle (get_llm_config 1000
                        (mkHttpRequest (Some (Store.generateSessionId 0 []))
                           (JObj []) [] (fun _ => []))) s1 with
         | Ret (r2, _) => r2 = r1
         | _ => False
         end
  | _ => False
  end.
Proof. vm_compute. split; reflexivity. Qed.

(** A model made of a NO-BREAK SPACE is stored as the empty string. *)
Example no_break_space_model_stored_empty :
  let body := JObj [("provider", JStr "openai"); ("model", JStr Sample.nbsp);
                    ("apiKey", JStr "sk-test")] in
  match handle (post_llm_config 0 (Sample.request body [])) Sample.empty_state with
  | Ret (r, s) =>
      r = mkResponse 200 (JObj [("provider", JStr "openai"); ("model", JStr EmptyString);
                                ("configured", JBool true)])
      /\ Store.result
           (Store.getLlmConfiguration (st_sessions s) 1000
              (Store.mkRequest (Some (Store.generateSessionId 0 [])) []))
         = Some (Store.mkLlmConfig "openai" EmptyString "sk-test" None,
                 Store.generateSessionId 0 [])
  | _ => False
  end.
Proof. vm_compute. split; reflexivity. Qed.

(** A success status with the body [null]: there is no [choices] to read. *)
Example openai_null_body :
  run (Sample.answering (mkFetchResponse true 200 (Fulfilled JNull)))
    (generateText (createOpenAIProvider Sample.llm) [mkMessage user "hello"] None)
  = Rejected (mkError "TypeError" "Cannot read properties of null (reading 'choices')").
Proof. reflexivity. Qed.

(** An insight request through the OpenAI adapter, the backend answering
    with a JSON array of two strings. *)
Example insights_through_openai :
  run (Sample.world Sample.two_strings)
    (analyzeAuditLogs [Sample.log "org.user.add" 0 "a@example.com"] (Some Sample.llm))
  = Fulfilled [JStr "a"; JStr "b"].
Proof. vm_compute. reflexivity. Qed.

End Evaluation.
